(** * Genfest YAML scenario generator: selector mapping and incremental emission

    A shallow embedding of the two versions of the recorder's YAML code
    generator:

    - [Revised]: the revised generator (the unnamed source with the
      [yamlTypes] declarations, scenario version 0.2);
    - [Packaged]: [packages/playwright-core/src/server/codegen/yaml.ts]
      (scenario version 0.1).

    JavaScript values built by the generator (elements, filters, selectors,
    steps) are untyped property bags in the source ([Record<string, unknown>]);
    they are embedded as one type [value] of JavaScript values, with objects
    as insertion-ordered association lists.  Exceptions are explicit: every
    function that can throw returns an [outcome].

    Strings are sequences of code units below 256; numbers are the integral
    ones ([Z]), and a number read from text by [parseInt] is the finite
    double nearest to the digits. *)

From Stdlib Require Import String Ascii List ZArith Bool Lia Arith.
From Stdlib Require Import DecimalString.
Import ListNotations.
Local Open Scope string_scope.
Local Open Scope list_scope.
Local Open Scope Z_scope.

Set Implicit Arguments.

(* ===================================================================== *)
(** * Outcomes: return, exception, exhausted recursion budget             *)
(* ===================================================================== *)

Inductive outcome (A : Type) : Type :=
| Ret (a : A)
| Throw (error : string)
| OutOfFuel.

Arguments Ret {A} a.
Arguments Throw {A} error.
Arguments OutOfFuel {A}.

Definition bind {A B : Type} (m : outcome A) (k : A -> outcome B) : outcome B :=
  match m with
  | Ret a => k a
  | Throw e => Throw e
  | OutOfFuel => OutOfFuel
  end.

Notation "x <- m ;; k" := (bind m (fun x => k))
  (at level 61, m at next level, right associativity).

Definition returns {A : Type} (m : outcome A) : bool :=
  match m with Ret _ => true | _ => false end.

Definition throws {A : Type} (m : outcome A) : bool :=
  match m with Throw _ => true | _ => false end.

(* ===================================================================== *)
(** * JavaScript strings                                                  *)
(* ===================================================================== *)

Module Js.

Definition code (c : ascii) : nat := nat_of_ascii c.

(** [String.prototype.startsWith]. *)
Definition startsWith (s p : string) : bool := String.prefix p s.

(** [String.prototype.endsWith]. *)
Definition endsWith (s p : string) : bool :=
  let n := String.length s in
  let m := String.length p in
  (m <=? n)%nat && String.eqb (substring (n - m) m s) p.

(** Relative index of [slice] and [at]: a negative index counts from the
    end; the result is clamped to [0 .. len]. *)
Definition relIndex (len : nat) (i : Z) : nat :=
  if i <? 0 then Z.to_nat (Z.max 0 (Z.of_nat len + i))
  else Nat.min (Z.to_nat i) len.

(** [String.prototype.slice(start, end)]. *)
Definition slice (s : string) (b e : Z) : string :=
  let len := String.length s in
  let from := relIndex len b in
  let to := relIndex len e in
  substring from (to - from) s.

(** [String.prototype.at(i)]; [None] is [undefined]. *)
Definition at_ (s : string) (i : Z) : option ascii :=
  let len := Z.of_nat (String.length s) in
  let k := if i <? 0 then len + i else i in
  if (k <? 0) || (len <=? k) then None else String.get (Z.to_nat k) s.

(** [String.prototype.includes]. *)
Fixpoint includes (s sub : string) : bool :=
  String.prefix sub s ||
  match s with
  | EmptyString => false
  | String _ rest => includes rest sub
  end.

(** Characters of the regex class [\s] (and of [trim]) below 256. *)
Definition isSpace (c : ascii) : bool :=
  let n := code c in
  ((9 <=? n) && (n <=? 13) || (n =? 32) || (n =? 160))%nat.

(** Line terminators below 256: the characters [.] does not match. *)
Definition isLineTerminator (c : ascii) : bool :=
  let n := code c in ((n =? 10) || (n =? 13))%nat.

Fixpoint trimStart (s : string) : string :=
  match s with
  | String c rest => if isSpace c then trimStart rest else s
  | EmptyString => EmptyString
  end.

Fixpoint rev_string (s acc : string) : string :=
  match s with
  | EmptyString => acc
  | String c rest => rev_string rest (String c acc)
  end.

Definition trimEnd (s : string) : string :=
  rev_string (trimStart (rev_string s "")) "".

(** [String.prototype.trim]. *)
Definition trim (s : string) : string := trimEnd (trimStart s).

Definition lowerChar (c : ascii) : ascii :=
  let n := code c in
  if ((65 <=? n) && (n <=? 90) ||
      (192 <=? n) && (n <=? 222) && negb (n =? 215))%nat
  then ascii_of_nat (n + 32) else c.

Fixpoint mapChars (f : ascii -> ascii) (s : string) : string :=
  match s with
  | EmptyString => EmptyString
  | String c rest => String (f c) (mapChars f rest)
  end.

(** [String.prototype.toLowerCase]. *)
Definition toLowerCase (s : string) : string := mapChars lowerChar s.

Definition asciiLowerChar (c : ascii) : ascii :=
  let n := code c in
  if ((65 <=? n) && (n <=? 90))%nat then ascii_of_nat (n + 32) else c.

(** [/password|pwd|secret/i.test(s)]: a search anywhere in [s]; with the
    [i] flag and no [u] flag only the letters A-Z fold onto the pattern's
    letters. *)
Definition testSecret (s : string) : bool :=
  let l := mapChars asciiLowerChar s in
  includes l "password" || includes l "pwd" || includes l "secret".

Definition isDigit (c : ascii) : bool :=
  let n := code c in ((48 <=? n) && (n <=? 57))%nat.

Fixpoint digitsValue (s : string) (acc : Z) : Z :=
  match s with
  | String c rest =>
      if isDigit c then digitsValue rest (10 * acc + Z.of_nat (code c - 48))
      else acc
  | EmptyString => acc
  end.

Definition startsWithDigit (s : string) : bool :=
  match s with String c _ => isDigit c | EmptyString => false end.

(** The number value of a non-negative integer: the double nearest to it,
    ties to the even significand, given as the integer it is equal to;
    [None] when that double is an infinity.  Integers below 2^53 are
    their own number value. *)
Definition toFiniteDouble (n : Z) : option Z :=
  let bits := Z.log2 n + 1 in
  if bits <=? 53 then Some n
  else
    let e := bits - 53 in
    let q := Z.shiftr n e in
    let r := n - Z.shiftl q e in
    let half := Z.shiftl 1 (e - 1) in
    let q' := if (half <? r) || ((r =? half) && Z.odd q) then q + 1 else q in
    let v := Z.shiftl q' e in
    if v <? Z.shiftl 1 1024 then Some v else None.

(** [parseInt(s, 10)] when the result passes [Number.isFinite]: [None]
    is [NaN] or an infinity.  The digits are read exactly and the integer
    is rounded to a double once (the language lets an engine read the
    digits after the twentieth as zeros; V8 reads them all). *)
Definition parseInt10 (s : string) : option Z :=
  match trimStart s with
  | String "-" rest =>
      if startsWithDigit rest
      then option_map Z.opp (toFiniteDouble (digitsValue rest 0)) else None
  | String "+" rest =>
      if startsWithDigit rest then toFiniteDouble (digitsValue rest 0) else None
  | t => if startsWithDigit t then toFiniteDouble (digitsValue t 0) else None
  end.

(** Decimal rendering of an integral number ([String(n)]). *)
Definition numberToString (n : Z) : string :=
  NilZero.string_of_int (Z.to_int n).

(** [Array.prototype.join] on strings. *)
Fixpoint join (sep : string) (l : list string) : string :=
  match l with
  | [] => ""
  | [x] => x
  | x :: rest => x ++ sep ++ join sep rest
  end.

End Js.

(* ===================================================================== *)
(** * JavaScript values                                                   *)
(* ===================================================================== *)

#[local] Unset Elimination Schemes.

Inductive value : Type :=
| VUndef
| VNull
| VBool (b : bool)
| VNum (n : Z)
| VStr (s : string)
| VRegExp (source flags : string)
| VArr (items : list value)
| VObj (entries : list (string * value)).

#[local] Set Elimination Schemes.

(** An object's own enumerable properties, in insertion order. *)
Definition object := list (string * value).

Definition isNullish (v : value) : bool :=
  match v with VUndef | VNull => true | _ => false end.

(** JavaScript truthiness. *)
Definition truthy (v : value) : bool :=
  match v with
  | VUndef | VNull => false
  | VBool b => b
  | VNum n => negb (n =? 0)
  | VStr s => negb (String.eqb s "")
  | VRegExp _ _ | VArr _ | VObj _ => true
  end.

(** [typeof v === 'object' && !Array.isArray(v)] for a non-null [v]. *)
Definition isNonArrayObject (v : value) : bool :=
  match v with VObj _ | VRegExp _ _ => true | _ => false end.

Definition isEmptyArray (v : value) : bool :=
  match v with VArr [] => true | _ => false end.

Definition isZero (v : value) : bool :=
  match v with VNum 0 => true | _ => false end.

(** [k in o]. *)
Fixpoint hasKey (k : string) (o : object) : bool :=
  match o with
  | [] => false
  | (k', _) :: rest => String.eqb k k' || hasKey k rest
  end.

(** [o[k]]; a missing property reads as [undefined]. *)
Fixpoint getKey (k : string) (o : object) : value :=
  match o with
  | [] => VUndef
  | (k', v) :: rest => if String.eqb k k' then v else getKey k rest
  end.

(** [o[k] = v]: an existing property keeps its place, a new one is
    appended. *)
Fixpoint setKey (k : string) (v : value) (o : object) : object :=
  match o with
  | [] => [(k, v)]
  | (k', v') :: rest =>
      if String.eqb k k' then (k', v) :: rest else (k', v') :: setKey k v rest
  end.

(** [Object.keys]. *)
Definition keys (o : object) : list string := map fst o.

(** Property read on any value: [v.k] and [v?.k] for a non-nullish [v]. *)
Definition prop (k : string) (v : value) : value :=
  match v with
  | VObj o => getKey k o
  | _ => VUndef
  end.

(** [Object.entries]: a RegExp has no own enumerable property. *)
Definition entriesOf (v : value) : object :=
  match v with VObj o => o | _ => [] end.

(** [a ?? b]. *)
Definition nullish_or (a b : value) : value :=
  if isNullish a then b else a.

Definition ofOption (o : option string) : value :=
  match o with Some s => VStr s | None => VUndef end.

(** [String(v)]. *)
Fixpoint toString (v : value) : string :=
  match v with
  | VUndef => "undefined"
  | VNull => "null"
  | VBool true => "true"
  | VBool false => "false"
  | VNum n => Js.numberToString n
  | VStr s => s
  | VRegExp source flags => "/" ++ source ++ "/" ++ flags
  | VArr items =>
      Js.join "," (map (fun x => if isNullish x then "" else toString x) items)
  | VObj _ => "[object Object]"
  end.

(* ===================================================================== *)
(** * Default stripping (shared by both versions)                         *)
(* ===================================================================== *)

(** One iteration of the loop of [stripDefaults]: the value stored under
    [k], or [None] when the entry is skipped.  [rec] is the recursive
    call. *)
Definition stripEntry (rec : value -> object) (k : string) (v : value)
  : option value :=
  if isNullish v then None
  else if String.eqb k "modifiers" && isZero v then None
  else if String.eqb k "framePath" && isEmptyArray v then None
  else if isNonArrayObject v then
    let nested := rec v in
    match nested with
    | [] => None
    | _ :: _ => Some (VObj nested)
    end
  else Some v.

Definition stripLoop (rec : value -> object)
  : list (string * value) -> object -> object :=
  fix loop (es : list (string * value)) (out : object) : object :=
    match es with
    | [] => out
    | (k, v) :: rest =>
        match stripEntry rec k v with
        | Some v' => loop rest (setKey k v' out)
        | None => loop rest out
        end
    end.

(** [stripDefaults(obj)]: the entries of the returned object. *)
Fixpoint stripDefaults (obj : value) : object :=
  match obj with
  | VObj es => stripLoop stripDefaults es []
  | _ => []
  end.

(* ===================================================================== *)
(** * Inputs and collaborators                                            *)
(* ===================================================================== *)

(** ** The parsed selector chain ([selectorParser])

    A part's body is a string, a parsed CSS selector list (never inspected
    by the generator) or, for the nesting engines, a nested chain. *)

#[local] Unset Elimination Schemes.

Inductive ParsedSelector : Type :=
| mkParsed (parts : list ParsedSelectorPart) (capture : option Z)
with ParsedSelectorPart : Type :=
| mkPart (name : string) (body : Body) (source : string)
with Body : Type :=
| BodyString (s : string)
| BodyCss
| BodyNested (parsed : ParsedSelector) (distance : option Z).

#[local] Set Elimination Schemes.

Definition parts (p : ParsedSelector) : list ParsedSelectorPart :=
  match p with mkParsed ps _ => ps end.

Definition capture (p : ParsedSelector) : option Z :=
  match p with mkParsed _ c => c end.

Definition partName (p : ParsedSelectorPart) : string :=
  match p with mkPart n _ _ => n end.

Definition partBody (p : ParsedSelectorPart) : Body :=
  match p with mkPart _ b _ => b end.

Definition partSource (p : ParsedSelectorPart) : string :=
  match p with mkPart _ _ s => s end.

(** [String(body)]: a parsed CSS list or a nested body renders as
    [[object Object]] entries. *)
Definition bodyText (b : Body) : string :=
  match b with
  | BodyString s => s
  | BodyCss | BodyNested _ _ => "[object Object]"
  end.

(** [(body as Record<string, unknown>)?.parsed]. *)
Definition bodyParsed (b : Body) : option ParsedSelector :=
  match b with
  | BodyNested p _ => Some p
  | BodyString _ | BodyCss => None
  end.

(** ** The attribute selector ([parseAttributeSelector]) *)

Record AttributeSelectorPart : Type := mkAttr {
  attrName : string;
  attrOp : string;
  attrValue : value;
  attrCaseSensitive : bool
}.

Record AttributeSelector : Type := mkAttributeSelector {
  selName : string;
  attributes : list AttributeSelectorPart
}.

(** ** [URL] *)

Record URL : Type := mkURL {
  origin : string;
  protocol : string;
  hostname : string;
  pathname : string;
  search : string;
  hash : string
}.

(** ** Recorded actions ([@recorder/actions]) *)

Record Signal : Type := mkSignal {
  signalName : string;
  signalUrl : option string;
  popupAlias : option string
}.

(** A recorded action: its [name] tag and the fields the generator reads.
    [selector] is [None] when the action has no such property, [Some None]
    when the property is [null] or [undefined]. *)
Record Action : Type := mkAction {
  name : string;
  selector : option (option string);
  url : option string;
  text : option string;
  key : option string;
  actionValue : option string;
  checked : option bool;
  options : option (list string);
  button : option string;
  modifiers : option Z;
  clickCount : option Z;
  isNot : bool;
  signals : option (list Signal)
}.

Record FrameDescription : Type := mkFrame {
  pageAlias : string;
  framePath : option (list string)
}.

Record ActionInContext : Type := mkActionInContext {
  frame : FrameDescription;
  action : Action
}.

Record DumpOptions : Type := mkDumpOptions {
  noRefs : bool;
  lineWidth : Z;
  forceQuotes : bool;
  quotingType : option string
}.

Record LanguageGeneratorOptions : Type := mkOptions {
  baseURL : option string
}.

(** ** Collaborators

    The functions the generator imports or takes from the host.  [None]
    stands for a thrown exception. *)
Class Host : Type := {
  (** [parseSelector(raw)] *)
  parseSelector : string -> option ParsedSelector;
  (** [parseAttributeSelector(body, allowUnquotedStrings)] *)
  parseAttributeSelector : string -> bool -> option AttributeSelector;
  (** [stringifySelector(parsed)] *)
  stringifySelector : ParsedSelector -> string;
  (** [JSON.parse(text)] *)
  JSON_parse : string -> option value;
  (** [new RegExp(pattern, flags)]: the [source] and [flags] of the result *)
  RegExp_new : string -> string -> option (string * string);
  (** [new URL(url)] *)
  URL_new : string -> option URL;
  (** [Number(v)] when the result is finite *)
  Number_of : value -> option Z;
  (** [YAML.dump(value, options)] *)
  YAML_dump : value -> DumpOptions -> string;
  (** [process.env.GENFEST_HTML_DIR] *)
  GENFEST_HTML_DIR : option string;
  (** the recorded action in context, as the object it is *)
  actionObject : ActionInContext -> value;
  (** the content of the diagnostics sink once the selector of an action
      has been mapped; the sink is only written to, no result of the
      mapper depends on it *)
  debugInfo : ActionInContext -> value
}.

(* ===================================================================== *)
(** * Helpers that read the same in both versions                         *)
(* ===================================================================== *)

Section Shared.

Context {host : Host}.

(** The double quote character, as a string. *)
Definition QUOTE : string := String "034" EmptyString.

(** [parseJsonString], local to [parseTextSpec]. *)
Definition parseJsonString (q : string) : option string :=
  match JSON_parse q with
  | Some (VStr s) => Some s
  | _ => None
  end.

Definition isRegexSpecial (c : ascii) : bool :=
  existsb (Ascii.eqb c)
    ["."; "*"; "+"; "?"; "^"; "$"; "{"; "}"; "("; ")"; "|"; "["; "]"; "\"]%char.

(** [escapeRegex]: a backslash before every regex special character. *)
Fixpoint escapeRegex (s : string) : string :=
  match s with
  | EmptyString => EmptyString
  | String c rest =>
      if isRegexSpecial c then String "\" (String c (escapeRegex rest))
      else String c (escapeRegex rest)
  end.

(** A pattern anchored at both ends, [^text$]: the form the comment on
    the case-insensitive suffix rule of [parseTextSpec] announces. *)
Definition isAnchored (pattern : string) : bool :=
  Js.startsWith pattern "^" && Js.endsWith pattern "$".

Fixpoint splitLastSlash (s : string) : option (string * string) :=
  match s with
  | EmptyString => None
  | String c rest =>
      match splitLastSlash rest with
      | Some (b, f) => Some (String c b, f)
      | None => if Ascii.eqb c "/" then Some ("", rest) else None
      end
  end.

Fixpoint allChars (f : ascii -> bool) (s : string) : bool :=
  match s with
  | EmptyString => true
  | String c rest => f c && allChars f rest
  end.

Definition isFlagChar (c : ascii) : bool :=
  existsb (Ascii.eqb c) ["d"; "g"; "i"; "m"; "s"; "u"; "y"; "v"]%char.

(** The regex literal test of [parseTextSpec]: a slash, any text up to
    the last slash, then flag letters only; the result is the two
    groups. *)
Definition matchRegexLiteral (input : string) : option (string * string) :=
  match input with
  | String "/" rest =>
      match splitLastSlash rest with
      | Some (b, f) => if allChars isFlagChar f then Some (b, f) else None
      | None => None
      end
  | _ => None
  end.

Definition exactText (s : string) : value :=
  VObj [("value", VStr s); ("exact", VBool true)].

Definition regexText (pattern flags : string) : value :=
  VObj [("pattern", VStr pattern); ("flags", VStr flags)].

(** The suffix rule of [parseTextSpec] (a quoted string followed by [s]
    or [i]); [None] when the rule does not apply. *)
Definition parseSuffixForm (input : string) : option value :=
  if Js.endsWith input (QUOTE ++ "s") || Js.endsWith input (QUOTE ++ "i") then
    let suffix := Js.at_ input (-1) in
    let quoted := Js.slice input 0 (-1) in
    if Js.startsWith quoted QUOTE && Js.endsWith quoted QUOTE then
      match parseJsonString quoted with
      | Some decoded =>
          if match suffix with Some c => Ascii.eqb c "s" | None => false end
          then Some (exactText decoded)
          else Some (regexText (escapeRegex decoded) "i")
      | None => None
      end
    else None
  else None.

(** The plain quoted rule of [parseTextSpec]. *)
Definition parsePlainQuoted (input : string) : option value :=
  if Js.startsWith input QUOTE && Js.endsWith input QUOTE then
    match parseJsonString input with
    | Some decoded => Some (VStr decoded)
    | None => None
    end
  else None.

(** The regex literal rule of [parseTextSpec]. *)
Definition parseRegexLiteral (input : string) : option value :=
  match matchRegexLiteral input with
  | Some (b, f) =>
      match RegExp_new b f with
      | Some (src, fl) => Some (regexText src fl)
      | None => None
      end
  | None => None
  end.

(** [parseTextSpec(input)]; [VUndef] is [undefined]. *)
Definition parseTextSpec (input : option string) : value :=
  match input with
  | None => VUndef
  | Some "" => VUndef
  | Some input =>
      match parseRegexLiteral input with
      | Some m => m
      | None =>
          match parseSuffixForm input with
          | Some m => m
          | None =>
              match parsePlainQuoted input with
              | Some m => m
              | None => VStr input
              end
          end
      end
  end.

(** [parseTextSpec(part.body as string | undefined)]: a body that is not
    a string has no [match] method. *)
Definition parseTextSpecOfBody (b : Body) : outcome value :=
  match b with
  | BodyString s => Ret (parseTextSpec (Some s))
  | BodyCss | BodyNested _ _ => Throw "TypeError: input.match is not a function"
  end.

(** [parseAttributeSelector(part.body as string, true)]. *)
Definition parseAttributeSelectorOfBody (b : Body) : outcome AttributeSelector :=
  match b with
  | BodyString s =>
      match parseAttributeSelector s true with
      | Some a => Ret a
      | None => Throw "InvalidSelectorError"
      end
  | BodyCss | BodyNested _ _ => Throw "InvalidSelectorError"
  end.

(** [framePathToObjects], over the version's [frameRefFromString]. *)
Definition framePathToObjects (frameRefFromString : string -> value)
    (path : option (list string)) : value :=
  match path with
  | None | Some [] => VUndef
  | Some l => VArr (map frameRefFromString l)
  end.

(** The frame name test of [frameRefFromString]: the text between
    [frame[name=] quote and quote [ ]], at least one character, none a
    line terminator. *)
Definition matchFrameName (sel : string) : option string :=
  let pre := ("frame[name=" ++ QUOTE)%string in
  let n := String.length sel in
  if Js.startsWith sel pre && Js.endsWith sel (QUOTE ++ "]") && (15 <=? n)%nat then
    let mid := substring 12 (n - 14) sel in
    if allChars (fun c => negb (Js.isLineTerminator c)) mid
    then Some mid else None
  else None.

(** [dumped.replace(/\r\n?/g, '\n')]. *)
Fixpoint normalizeNewlines (s : string) : string :=
  match s with
  | EmptyString => EmptyString
  | String c rest =>
      if Ascii.eqb c "013" then
        match rest with
        | String c' rest' =>
            if Ascii.eqb c' "010" then String "010" (normalizeNewlines rest')
            else String "010" (normalizeNewlines rest)
        | EmptyString => String "010" EmptyString
        end
      else String c (normalizeNewlines rest)
  end.

Definition LF : string := String "010" EmptyString.

(** [s.split('\n')]. *)
Fixpoint splitLines (s : string) : list string :=
  match s with
  | EmptyString => [""]
  | String c rest =>
      if Ascii.eqb c "010" then "" :: splitLines rest
      else
        match splitLines rest with
        | l :: ls => String c l :: ls
        | [] => [String c ""]
        end
  end.

Definition indentLines (lines : list string) : list string :=
  match lines with
  | [] => []
  | first :: others =>
      ("  - " ++ first)%string :: map (fun l => ("    " ++ l)%string) others
  end.

(** [formatAsYamlListItem(entry, dumpOpts)]. *)
Definition formatAsYamlListItem (entry : value) (dumpOpts : DumpOptions) : string :=
  let dumped := normalizeNewlines (YAML_dump entry dumpOpts) in
  let lines :=
    if Js.endsWith dumped LF then splitLines (Js.slice dumped 0 (-1))
    else splitLines dumped in
  (Js.join LF (indentLines lines) ++ LF)%string.

Definition TRIVIAL_URL_PREFIXES : list string :=
  ["about:blank"; "chrome-error://"; "devtools://"; "edge://"; "data:";
   "blob:"; "chrome-extension://"].

(** [isTrivialUrl(url)]. *)
Definition isTrivialUrl (url : option string) : bool :=
  match url with
  | None => true
  | Some "" => true
  | Some u => existsb (fun p => Js.startsWith u p) TRIVIAL_URL_PREFIXES
  end.

(** [toUrlHint], local to [expectFromSignals]: the entries spread into
    the expectation. *)
Definition toUrlHint (url : option string) : option object :=
  match url with
  | None => None
  | Some "" => None
  | Some u =>
      match URL_new u with
      | Some parsed =>
          if String.eqb (protocol parsed) "http:" || String.eqb (protocol parsed) "https:"
          then Some [("url_exact", VStr u)]
          else Some [("url_contains", VStr u)]
      | None => Some [("url_contains", VStr u)]
      end
  end.

Definition expectationOfSignal (signal : Signal) : option value :=
  if String.eqb (signalName signal) "navigation" then
    match toUrlHint (signalUrl signal) with
    | Some hint => Some (VObj (("expect", VStr "navigation") :: hint))
    | None => Some (VObj [("expect", VStr "navigation")])
    end
  else if String.eqb (signalName signal) "popup" then
    Some (VObj [("expect", VStr "popup"); ("pageAlias", ofOption (popupAlias signal))])
  else if String.eqb (signalName signal) "download" then
    Some (VObj [("expect", VStr "download")])
  else if String.eqb (signalName signal) "dialog" then
    Some (VObj [("expect", VStr "dialog")])
  else None.

Fixpoint expectationsOf (l : list Signal) : list value :=
  match l with
  | [] => []
  | s :: rest =>
      match expectationOfSignal s with
      | Some e => e :: expectationsOf rest
      | None => expectationsOf rest
      end
  end.

(** [expectFromSignals(action)]. *)
Definition expectFromSignals (a : Action) : value :=
  match signals a with
  | None | Some [] => VUndef
  | Some l =>
      match expectationsOf l with
      | [] => VUndef
      | es => VArr es
      end
  end.

Definition ENV_PASSWORD : string := "${env:ANET_PASSWORD}".

End Shared.

(* ===================================================================== *)
(** * The revised generator                                               *)
(* ===================================================================== *)

Module Revised.

Section Generator.

Context {host : Host}.

Definition YAML_DUMP_OPTIONS : DumpOptions :=
  {| noRefs := true; lineWidth := 120; forceQuotes := true;
     quotingType := Some QUOTE |}.

(** [frameRefFromString(sel)]. *)
Definition frameRefFromString (sel : string) : value :=
  match matchFrameName sel with
  | Some m => VObj [("name", VStr m)]
  | None => VObj [("url_contains", VStr sel)]
  end.

(** [isActionWithSelector(action)]: ['selector' in action]. *)
Definition isActionWithSelector (a : Action) : bool :=
  match selector a with Some _ => true | None => false end.

(** ** [stripEmpty] *)

(** [typeof x === 'object' && x !== null]. *)
Definition isObjectLike (x : value) : bool :=
  match x with VObj _ | VRegExp _ _ | VArr _ => true | _ => false end.

Definition stripEmptyEntry (rec : value -> object) (v : value) : option value :=
  if isNullish v then None
  else
    match v with
    | VArr [] => None
    | VArr items =>
        Some (VArr (map (fun x => if isObjectLike x then VObj (rec x) else x) items))
    | VObj _ | VRegExp _ _ =>
        match rec v with
        | [] => None
        | nested => Some (VObj nested)
        end
    | _ => Some v
    end.

(** [stripEmpty(obj)]: the entries of the returned object.  The entries
    of an array are its items under their indices. *)
Fixpoint stripEmpty (obj : value) : object :=
  match obj with
  | VObj es =>
      (fix loop (es : list (string * value)) (out : object) : object :=
         match es with
         | [] => out
         | (k, v) :: rest =>
             match stripEmptyEntry stripEmpty v with
             | Some v' => loop rest (setKey k v' out)
             | None => loop rest out
             end
         end) es []
  | VArr items =>
      (fix loop (items : list value) (i : Z) (out : object) : object :=
         match items with
         | [] => out
         | v :: rest =>
             match stripEmptyEntry stripEmpty v with
             | Some v' => loop rest (i + 1) (setKey (Js.numberToString i) v' out)
             | None => loop rest (i + 1) out
             end
         end) items 0 []
  | _ => []
  end.

(** ** Secret masking *)

(** [matchText(t)]; the [in] operator throws on a primitive. *)
Definition matchText (t : value) : outcome bool :=
  match t with
  | VStr s => Ret (Js.testSecret s)
  | VObj o =>
      if hasKey "value" o &&
         match getKey "value" o with VStr s => Js.testSecret s | _ => false end
      then Ret true
      else if hasKey "pattern" o &&
         match getKey "pattern" o with VStr s => Js.testSecret s | _ => false end
      then Ret true
      else Ret false
  | VArr _ | VRegExp _ _ => Ret false
  | VUndef | VNull | VBool _ | VNum _ =>
      Throw "TypeError: cannot use 'in' operator"
  end.

(** The chain of tests of [maybeMaskValue] on an element object. *)
Definition looksSecret (el : object) : outcome bool :=
  if hasKey "testId" el && Js.testSecret (toString (getKey "testId" el))
  then Ret true
  else
    l <- (if hasKey "label" el then matchText (getKey "label" el) else Ret false) ;;
    if l : bool then Ret true
    else
      p <- (if hasKey "placeholder" el then matchText (getKey "placeholder" el)
            else Ret false) ;;
      if p : bool then Ret true
      else if hasKey "role" el &&
              Js.testSecret (toString (nullish_or (getKey "name" el) (VStr "")))
      then Ret true
      else
        t <- (if hasKey "text" el then matchText (getKey "text" el) else Ret false) ;;
        if t : bool then Ret true
        else if hasKey "css" el && Js.testSecret (toString (getKey "css" el))
        then Ret true
        else if hasKey "xpath" el && Js.testSecret (toString (getKey "xpath" el))
        then Ret true
        else Ret false.

(** [maybeMaskValue(el, text)]. *)
Definition maybeMaskValue (el : value) (text : option string)
  : outcome (option string) :=
  if negb (truthy el) then Ret text
  else
    match text with
    | None => Ret None
    | Some t =>
        match el with
        | VObj o =>
            secret <- looksSecret o ;;
            if secret : bool then Ret (Some ENV_PASSWORD) else Ret (Some t)
        | VArr _ | VRegExp _ _ => Ret (Some t)
        | _ => Throw "TypeError: cannot use 'in' operator"
        end
    end.

(** [decodeModifiers(mask)]. *)
Definition decodeModifiers (mask : option Z) : value :=
  match mask with
  | None => VUndef
  | Some m =>
      if m =? 0 then VUndef
      else
        let result :=
          (if negb (Z.land m 1 =? 0) then [VStr "Alt"] else []) ++
          (if negb (Z.land m 2 =? 0) then [VStr "Control"] else []) ++
          (if negb (Z.land m 4 =? 0) then [VStr "Meta"] else []) ++
          (if negb (Z.land m 8 =? 0) then [VStr "Shift"] else []) in
        match result with
        | [] => VUndef
        | _ => VArr result
        end
  end.

(** ** The selector mapper *)

Definition FILTER_ENGINES : list string :=
  ["internal:has-text"; "internal:has-not-text"; "internal:has";
   "internal:has-not"; "visible"; "nth"].

Definition IGNORE_ENGINES : list string := ["internal:describe"].

(** [set.has(x)]. *)
Definition setHas (set : list string) (x : string) : bool :=
  existsb (String.eqb x) set.

(** [IGNORE_ENGINES.has(parsed.parts[i]?.name)]. *)
Definition ignoredAt (ps : list ParsedSelectorPart) (i : nat) : bool :=
  match nth_error ps i with
  | Some p => setHas IGNORE_ENGINES (partName p)
  | None => false
  end.

(** The backward scan for the last part that is neither a filter nor
    ignored, over the indices below [n]; [-1] when there is none. *)
Fixpoint scanBase (ps : list ParsedSelectorPart) (n : nat) : Z :=
  match n with
  | O => -1
  | S i =>
      match nth_error ps i with
      | None => scanBase ps i
      | Some p =>
          let name := partName p in
          if String.eqb name "" then scanBase ps i
          else if setHas IGNORE_ENGINES name then scanBase ps i
          else if negb (setHas FILTER_ENGINES name) then Z.of_nat i
          else scanBase ps i
      end
  end.

(** The loop that walks back over ignored parts, from index [n - 1]. *)
Fixpoint skipIgnored (ps : list ParsedSelectorPart) (n : nat) : Z :=
  match n with
  | O => -1
  | S i => if ignoredAt ps i then skipIgnored ps i else Z.of_nat i
  end.

(** The base index of [elementFromParsedSelector]. *)
Definition resolveBaseIndex (parsed : ParsedSelector) : Z :=
  let ps := parts parsed in
  let len := Z.of_nat (List.length ps) in
  let baseIndex :=
    match capture parsed with
    | Some c =>
        if c >=? 0 then c
        else
          let found := scanBase ps (List.length ps) in
          if found =? -1 then len - 1 else found
    | None =>
        let found := scanBase ps (List.length ps) in
        if found =? -1 then len - 1 else found
    end in
  if baseIndex >=? 0 then skipIgnored ps (Z.to_nat (baseIndex + 1))
  else baseIndex.

(** [asBool], local to the role case. *)
Definition asBool (attr : AttributeSelectorPart) : option bool :=
  if String.eqb (attrOp attr) "<truthy>" then Some true
  else
    match attrValue attr with
    | VBool b => Some b
    | VStr v =>
        let s := Js.toLowerCase v in
        if String.eqb s "true" then Some true
        else if String.eqb s "false" then Some false
        else None
    | _ => None
    end.

(** The accessible name matcher of the role case. *)
Definition roleNameMatcher (attr : AttributeSelectorPart) : option value :=
  match attrValue attr with
  | VRegExp source flags => Some (regexText source flags)
  | VUndef | VNull => None
  | v =>
      let s := toString v in
      if attrCaseSensitive attr then Some (exactText s) else Some (VStr s)
  end.

(** One iteration of the loop over the attributes of a role selector. *)
Definition roleAttribute (element : object) (attr : AttributeSelectorPart) : object :=
  let name := attrName attr in
  if String.eqb name "name" then
    match roleNameMatcher attr with
    | Some matcher => setKey "name" matcher element
    | None => element
    end
  else if String.eqb name "include-hidden" then
    match asBool attr with
    | Some v => setKey "include_hidden" (VBool v) element
    | None => element
    end
  else if String.eqb name "level" then
    match attrValue attr with
    | VNum n => setKey "level" (VNum n) element
    | raw =>
        match Number_of raw with
        | Some n => setKey "level" (VNum n) element
        | None => element
        end
    end
  else if setHas ["checked"; "pressed"; "selected"; "expanded"; "disabled"] name then
    match asBool attr with
    | Some v => setKey name (VBool v) element
    | None =>
        match attrValue attr with
        | VStr s => setKey name (VStr s) element
        | _ => element
        end
    end
  else element.

(** The group of [body.match(/=\s*(.+)\s*\]$/)] when the match starts
    right before [t] and [t] is the text between the equals sign and the
    final bracket: leading blanks are taken greedily, then the longest
    run without line terminators that leaves blanks only. *)
Fixpoint spanNoLineTerminator (u : string) : string * string :=
  match u with
  | EmptyString => (EmptyString, EmptyString)
  | String c rest =>
      if Js.isLineTerminator c then (EmptyString, u)
      else let (m, r) := spanNoLineTerminator rest in (String c m, r)
  end.

Definition groupAt (u : string) : option string :=
  let (m, r) := spanNoLineTerminator u in
  match m with
  | EmptyString => None
  | _ => if allChars Js.isSpace r then Some m else None
  end.

Fixpoint valueGroup (t : string) : option string :=
  match t with
  | EmptyString => None
  | String c rest =>
      if Js.isSpace c then
        match valueGroup rest with
        | Some g => Some g
        | None => groupAt t
        end
      else groupAt t
  end.

Definition valueGroupAfterEquals (r : string) : option string :=
  if Js.endsWith r "]" then valueGroup (Js.slice r 0 (-1)) else None.

(** [body.match(/=\s*(.+)\s*\]$/)]: the group of the leftmost match. *)
Fixpoint matchAttrValue (body : string) : option string :=
  match body with
  | EmptyString => None
  | String c rest =>
      if Ascii.eqb c "=" then
        match valueGroupAfterEquals rest with
        | Some g => Some g
        | None => matchAttrValue rest
        end
      else matchAttrValue rest
  end.

(** The [internal:attr] case. *)
Definition attrElement (parsed : ParsedSelector) (basePart : ParsedSelectorPart)
  : outcome object :=
  attrSelector <- parseAttributeSelectorOfBody (partBody basePart) ;;
  match attributes attrSelector with
  | [] => Ret [("css", VStr (stringifySelector parsed))]
  | first :: _ =>
      let attrName := Js.toLowerCase (attrName first) in
      let body := bodyText (partBody basePart) in
      let textMatcher :=
        match matchAttrValue body with
        | Some rawValueSource => parseTextSpec (Some rawValueSource)
        | None => VUndef
        end in
      let value := nullish_or textMatcher (attrValue first) in
      if String.eqb attrName "alt" then Ret [("alt", value)]
      else if String.eqb attrName "title" then Ret [("title", value)]
      else if String.eqb attrName "placeholder" then Ret [("placeholder", value)]
      else Ret [("css", VStr (stringifySelector parsed))]
  end.

(** The switch on the engine of the base part: the element. *)
Definition elementOfBasePart (parsed : ParsedSelector) (basePart : ParsedSelectorPart)
  : outcome object :=
  let name := partName basePart in
  if String.eqb name "internal:testid" then
    attrSelector <- parseAttributeSelectorOfBody (partBody basePart) ;;
    match attributes attrSelector with
    | first :: _ => Ret [("testId", attrValue first)]
    | [] => Throw "TypeError: cannot destructure property 'value' of undefined"
    end
  else if String.eqb name "internal:role" then
    attrSelector <- parseAttributeSelectorOfBody (partBody basePart) ;;
    Ret (fold_left roleAttribute (attributes attrSelector)
           [("role", VStr (selName attrSelector))])
  else if String.eqb name "internal:text" then
    t <- parseTextSpecOfBody (partBody basePart) ;;
    Ret [("text", t)]
  else if String.eqb name "css" || String.eqb name "css:light" then
    Ret [("css", VStr (partSource basePart))]
  else if String.eqb name "xpath" then
    Ret [("xpath", VStr (partSource basePart))]
  else if String.eqb name "internal:label" then
    t <- parseTextSpecOfBody (partBody basePart) ;;
    Ret [("label", t)]
  else if String.eqb name "internal:placeholder" then
    t <- parseTextSpecOfBody (partBody basePart) ;;
    Ret [("placeholder", t)]
  else if String.eqb name "internal:attr" then
    attrElement parsed basePart
  else
    Ret [("css", VStr (stringifySelector parsed))].

(** [(filters ??= {}).k = v]. *)
Definition setFilter (filters : value) (k : string) (v : value) : value :=
  match filters with
  | VObj o => VObj (setKey k v o)
  | _ => VObj [(k, v)]
  end.

(** The [visible] case: [false] for the body [false] after trimming and
    lowercasing, [true] otherwise. *)
Definition visibleOfBody (b : Body) : bool :=
  let s := Js.toLowerCase (Js.trim (bodyText b)) in
  negb (String.eqb s "false").

(** A nested [has] or [has-not] filter; [rec] is the recursive call of
    [elementFromParsedSelector]. *)
Definition nestedFilter (rec : option string -> outcome value)
    (filters : value) (k : string) (b : Body) : outcome value :=
  match bodyParsed b with
  | Some nestedParsed =>
      let nestedRaw := stringifySelector nestedParsed in
      nested <- rec (Some nestedRaw) ;;
      if truthy nested then Ret (setFilter filters k nested) else Ret filters
  | None => Ret filters
  end.

(** One iteration of the loop over the parts after the base part; the
    state is the pair of [filters] and [nth]. *)
Definition filterPart (rec : option string -> outcome value)
    (acc : value * value) (part : ParsedSelectorPart) : outcome (value * value) :=
  let (filters, nth) := acc in
  let name := partName part in
  if String.eqb name "internal:describe" then Ret acc
  else if String.eqb name "internal:has-text" then
    t <- parseTextSpecOfBody (partBody part) ;;
    Ret (setFilter filters "hasText" t, nth)
  else if String.eqb name "internal:has-not-text" then
    t <- parseTextSpecOfBody (partBody part) ;;
    Ret (setFilter filters "hasNotText" t, nth)
  else if String.eqb name "visible" then
    Ret (setFilter filters "visible" (VBool (visibleOfBody (partBody part))), nth)
  else if String.eqb name "internal:has" then
    f <- nestedFilter rec filters "has" (partBody part) ;;
    Ret (f, nth)
  else if String.eqb name "internal:has-not" then
    f <- nestedFilter rec filters "hasNot" (partBody part) ;;
    Ret (f, nth)
  else if String.eqb name "nth" then
    match Js.parseInt10 (bodyText (partBody part)) with
    | Some n => Ret (filters, VNum n)
    | None => Ret acc
    end
  else Ret acc.

Fixpoint filterParts (rec : option string -> outcome value)
    (acc : value * value) (ps : list ParsedSelectorPart) : outcome (value * value) :=
  match ps with
  | [] => Ret acc
  | part :: rest =>
      acc' <- filterPart rec acc part ;;
      filterParts rec acc' rest
  end.

Definition cssFallback (raw : string) : value :=
  VObj [("element", VObj [("css", VStr raw)])].

(** The body of [elementFromParsedSelector], over its recursive call. *)
Definition elementFromParsedSelector_body (rec : option string -> outcome value)
    (raw : option string) : outcome value :=
  match raw with
  | None => Ret VUndef
  | Some "" => Ret VUndef
  | Some raw =>
      match parseSelector raw with
      | None => Ret VUndef
      | Some parsed =>
          let baseIndex := resolveBaseIndex parsed in
          if baseIndex <? 0 then Ret (cssFallback raw)
          else
            match nth_error (parts parsed) (Z.to_nat baseIndex) with
            | None => Ret (cssFallback raw)
            | Some basePart =>
                element <- elementOfBasePart parsed basePart ;;
                fn <- filterParts rec (VUndef, VUndef)
                        (skipn (Z.to_nat (baseIndex + 1)) (parts parsed)) ;;
                Ret (VObj [("element", VObj element);
                           ("filters", fst fn); ("nth", snd fn)])
            end
      end
  end.

(** [elementFromParsedSelector(raw)]; [VUndef] is [undefined].  [fuel]
    bounds the depth of the recursion through nested [has] and [has-not]
    filters, which goes through the re-stringified nested chain. *)
Fixpoint elementFromParsedSelector (fuel : nat) (raw : option string)
  : outcome value :=
  match fuel with
  | O => OutOfFuel
  | S fuel' =>
      elementFromParsedSelector_body (elementFromParsedSelector fuel') raw
  end.

(** [buildStructuredSelector(actionInContext)]. *)
Definition buildStructuredSelector (fuel : nat) (actionInContext : ActionInContext)
  : outcome object :=
  let frame := frame actionInContext in
  let selector0 : object :=
    if String.eqb (pageAlias frame) "" then []
    else [("page", VStr (pageAlias frame))] in
  let framePath := framePathToObjects frameRefFromString (framePath frame) in
  let selector1 :=
    if truthy framePath then setKey "framePath" framePath selector0
    else selector0 in
  let action := action actionInContext in
  match selector action with
  | Some sel =>
      let raw := sel in
      mapped <- elementFromParsedSelector fuel raw ;;
      let fallback :=
        VObj [("css", match raw with Some r => VStr r | None => VStr "UNKNOWN" end)] in
      let selector2 :=
        setKey "element" (nullish_or (prop "element" mapped) fallback) selector1 in
      let selector3 :=
        if truthy (prop "filters" mapped)
        then setKey "filters" (prop "filters" mapped) selector2
        else selector2 in
      match prop "nth" mapped with
      | VNum n => Ret (setKey "nth" (VNum n) selector3)
      | _ => Ret selector3
      end
  | None => Ret selector1
  end.

(** ** The emitter *)

Record Meta : Type := mkMeta {
  version : string;
  metaName : string;
  metaBaseURL : option string
}.

Record Generator : Type := mkGenerator {
  _headerEmitted : bool;
  _seedUrl : option string;
  _meta : Meta;
  _debug : bool
}.

(** The state of a new instance. *)
Definition initial : Generator :=
  {| _headerEmitted := false; _seedUrl := None;
     _meta := {| version := "0.2"; metaName := "Recorded Scenario";
                 metaBaseURL := None |};
     _debug := false |}.

Definition metaObject (m : Meta) : value :=
  VObj [("version", VStr (version m)); ("name", VStr (metaName m));
        ("baseURL", ofOption (metaBaseURL m))].

Definition withHeaderEmitted (g : Generator) (b : bool) : Generator :=
  {| _headerEmitted := b; _seedUrl := _seedUrl g; _meta := _meta g;
     _debug := _debug g |}.

Definition withBaseURL (g : Generator) (u : option string) : Generator :=
  {| _headerEmitted := _headerEmitted g; _seedUrl := _seedUrl g;
     _meta := {| version := version (_meta g); metaName := metaName (_meta g);
                 metaBaseURL := u |};
     _debug := _debug g |}.

(** [a || b] on optional strings: the empty string is falsy. *)
Definition orElse (a b : option string) : option string :=
  match a with
  | Some "" | None => b
  | Some _ => a
  end.

Definition isSet (a : option string) : bool :=
  match a with
  | Some "" | None => false
  | Some _ => true
  end.

(** The header lines: the dumped metadata without its trailing newline,
    the [steps:] key and a blank line. *)
Definition headerLines (g : Generator) : list string :=
  let metaDump :=
    normalizeNewlines (YAML_dump (VObj (stripEmpty (metaObject (_meta g))))
                         YAML_DUMP_OPTIONS) in
  let metaNoTrail :=
    if Js.endsWith metaDump LF then Js.slice metaDump 0 (-1) else metaDump in
  [metaNoTrail; "steps:"; ""].

(** [_emitHeaderOnce()]. *)
Definition _emitHeaderOnce (g : Generator) : Generator * list string :=
  if _headerEmitted g then (g, [])
  else (withHeaderEmitted g true, headerLines g).

(** [generateHeader(options)]. *)
Definition generateHeader (g : Generator) (options : LanguageGeneratorOptions)
  : outcome (Generator * string) :=
  let debug := if isSet GENFEST_HTML_DIR then true else _debug g in
  let seedUrl := orElse (baseURL options) None in
  name <- match seedUrl with
          | Some seed =>
              match URL_new seed with
              | Some u => Ret (hostname u)
              | None => Throw "TypeError: Invalid URL"
              end
          | None => Ret "Recorded Scenario"
          end ;;
  Ret ({| _headerEmitted := false; _seedUrl := seedUrl;
          _meta := {| version := version (_meta g); metaName := name;
                      metaBaseURL := orElse (baseURL options) seedUrl |};
          _debug := debug |},
       "# Generated by Genfest").

(** The URL written for a retained navigation, given the base URL. *)
Definition outputUrl (base : option string) (url : string) : string :=
  if isSet base && negb (String.eqb url "") then
    match base with
    | Some b =>
        match URL_new b, URL_new url with
        | Some baseUrl, Some targetUrl =>
            if String.eqb (origin baseUrl) (origin targetUrl)
            then (pathname targetUrl ++ search targetUrl ++ hash targetUrl)%string
            else url
        | _, _ => url
        end
    | None => url
    end
  else url.

(** The base URL taken from the first retained navigation. *)
Definition inferBaseURL (url : string) : string :=
  match URL_new url with
  | Some u => origin u
  | None => url
  end.

(** What the switch on the action's name produces: nothing for a
    suppressed navigation, otherwise the new state, the header lines
    pushed to [out] and the fields of the step. *)
Inductive built : Type :=
| Skipped
| Built (g : Generator) (header : list string) (step : object).

Definition navigateStep (g : Generator) (a : Action) : built :=
  if isTrivialUrl (url a) then Skipped
  else
    let url := match url a with Some u => u | None => "" end in
    let g1 :=
      if isSet (metaBaseURL (_meta g)) then g
      else withBaseURL g (Some (inferBaseURL url)) in
    let (g2, header) :=
      if _headerEmitted g1 then (g1, []) else _emitHeaderOnce g1 in
    Built g2 header
      [("action", VStr "navigate");
       ("url", VStr (outputUrl (metaBaseURL (_meta g1)) url))].

Definition optNum (n : option Z) : value :=
  match n with Some z => VNum z | None => VUndef end.

Definition optBool (b : option bool) : value :=
  match b with Some x => VBool x | None => VUndef end.

Definition isNum (n : option Z) (k : Z) : bool :=
  match n with Some z => z =? k | None => false end.

(** The switch of [generateAction]; [selector] is the structured
    selector of the action. *)
Definition stepOfAction (g : Generator) (actionInContext : ActionInContext)
    (selector : object) : outcome built :=
  let action := action actionInContext in
  let n := name action in
  if String.eqb n "openPage" || String.eqb n "navigate" then
    Ret (navigateStep g action)
  else if String.eqb n "click" then
    let step0 :=
      if isNum (clickCount action) 2 then [("action", VStr "dblclick")]
      else
        let s := [("action", VStr "click")] in
        if isNum (clickCount action) 1 then s
        else setKey "clickCount" (optNum (clickCount action)) s in
    Ret (Built g []
      (setKey "expectations" (expectFromSignals action)
        (setKey "modifiers" (decodeModifiers (modifiers action))
          (setKey "button" (ofOption (button action)) step0))))
  else if String.eqb n "fill" then
    t <- maybeMaskValue (getKey "element" selector) (text action) ;;
    Ret (Built g []
      [("action", VStr "fill"); ("text", ofOption t);
       ("expectations", expectFromSignals action)])
  else if String.eqb n "press" then
    Ret (Built g []
      [("action", VStr "press"); ("key", ofOption (key action));
       ("modifiers", decodeModifiers (modifiers action));
       ("expectations", expectFromSignals action)])
  else if String.eqb n "check" then
    Ret (Built g []
      [("action", VStr "check"); ("expectations", expectFromSignals action)])
  else if String.eqb n "uncheck" then
    Ret (Built g []
      [("action", VStr "uncheck"); ("expectations", expectFromSignals action)])
  else if String.eqb n "assertText" then
    Ret (Built g [] [("action", VStr "assert.text"); ("text", ofOption (text action))])
  else if String.eqb n "assertValue" then
    Ret (Built g []
      [("action", VStr "assert.value"); ("value", ofOption (actionValue action))])
  else if String.eqb n "assertVisible" then
    Ret (Built g []
      (if isNot action
       then [("action", VStr "assert.visible"); ("visible", VBool false)]
       else [("action", VStr "assert.visible")]))
  else if String.eqb n "assertChecked" then
    Ret (Built g []
      [("action", VStr "assert.checked"); ("checked", optBool (checked action))])
  else if String.eqb n "closePage" then
    Ret (Built g [] [("action", VStr "closePage")])
  else if String.eqb n "select" then
    match options action with
    | Some opts =>
        Ret (Built g []
          [("action", VStr "select");
           ("options", VArr (map (fun opt => VObj [("value", VStr opt)]) opts));
           ("expectations", expectFromSignals action)])
    | None => Throw "TypeError: cannot read properties of undefined (reading 'map')"
    end
  else
    let step0 := [("action", VStr (n ++ " (NOT SUPPORTED)"))] in
    Ret (Built g []
      (if _debug g then step0
       else setKey "debug" (VObj [("action_in_context", actionObject actionInContext)])
              step0)).

(** The step handed to [stripDefaults]: the fields of the switch, then
    the selector, then the diagnostics in debug mode. *)
Definition finishStep (g : Generator) (actionInContext : ActionInContext)
    (selector step : object) : object :=
  let step1 := setKey "selector" (VObj selector) step in
  if _debug g then setKey "debug" (debugInfo actionInContext) step1 else step1.

(** [generateAction(actionInContext)]: the new state and the array [out]
    whose lines are joined into the returned string. *)
Definition generateActionOut (fuel : nat) (g : Generator)
    (actionInContext : ActionInContext) : outcome (Generator * list string) :=
  selector <- buildStructuredSelector fuel actionInContext ;;
  b <- stepOfAction g actionInContext selector ;;
  match b with
  | Skipped => Ret (g, [])
  | Built g' header step =>
      let entry := VObj (stripDefaults (VObj (finishStep g actionInContext selector step))) in
      Ret (g', header ++ [formatAsYamlListItem entry YAML_DUMP_OPTIONS])
  end.

Definition generateAction (fuel : nat) (g : Generator)
    (actionInContext : ActionInContext) : outcome (Generator * string) :=
  r <- generateActionOut fuel g actionInContext ;;
  Ret (fst r, Js.join LF (snd r)).

(** A sequence of [generateAction] calls on one instance: the final state
    and the arrays [out] of the calls, in order.  An exception ends the
    sequence. *)
Fixpoint run (fuel : nat) (g : Generator) (l : list ActionInContext)
  : outcome (Generator * list (list string)) :=
  match l with
  | [] => Ret (g, [])
  | a :: rest =>
      r <- generateActionOut fuel g a ;;
      rs <- run fuel (fst r) rest ;;
      Ret (fst rs, snd r :: snd rs)
  end.

(** The action is a navigation: [navigate] or [openPage], without a
    selector. *)
Definition isNavigation (a : ActionInContext) : bool :=
  (String.eqb (name (action a)) "openPage" || String.eqb (name (action a)) "navigate")
  && negb (isActionWithSelector (action a)).

(** A navigation to a trivial URL. *)
Definition isTrivialNavigation (a : ActionInContext) : bool :=
  isNavigation a && isTrivialUrl (url (action a)).

(** A navigation to a URL that is kept. *)
Definition isRetainedNavigation (a : ActionInContext) : bool :=
  isNavigation a && negb (isTrivialUrl (url (action a))).

(** The array [out] of a call holds the header block. *)
Definition hasHeader (out : list string) : bool := (1 <? List.length out)%nat.

(** The selector of an action without a [selector] property: the page
    alias and the frame path. *)
Definition frameSelector (a : ActionInContext) : object :=
  let selector0 : object :=
    if String.eqb (pageAlias (frame a)) "" then []
    else [("page", VStr (pageAlias (frame a)))] in
  let framePath := framePathToObjects frameRefFromString (framePath (frame a)) in
  if truthy framePath then setKey "framePath" framePath selector0 else selector0.

(** The base URL after a retained navigation to [u]. *)
Definition baseAfter (g : Generator) (u : string) : option string :=
  if isSet (metaBaseURL (_meta g)) then metaBaseURL (_meta g)
  else Some (inferBaseURL u).

(** The entry of a step in the document: the step with its selector,
    stripped of defaults. *)
Definition entryOf (g : Generator) (a : ActionInContext) (selector step : object)
  : value :=
  VObj (stripDefaults (VObj (finishStep g a selector step))).

(** [generateFooter(saveStorage)]. *)
Definition generateFooter (g : Generator) (_saveStorage : option string) : string := "".

End Generator.

End Revised.

(* ===================================================================== *)
(** * The packaged generator ([codegen/yaml.ts])                          *)
(* ===================================================================== *)

Module Packaged.

Section Generator.

Context {host : Host}.

Definition dumpOpts : DumpOptions :=
  {| noRefs := true; lineWidth := 120; forceQuotes := true;
     quotingType := None |}.

(** [frameRefFromString(sel)]. *)
Definition frameRefFromString (sel : string) : value :=
  match matchFrameName sel with
  | Some m => VObj [("name", VStr m)]
  | None => VObj [("selector", VStr sel)]
  end.

(** [isActionWithSelector(action)]: a truthy [selector]. *)
Definition isActionWithSelector (a : Action) : bool :=
  match selector a with
  | Some (Some s) => negb (String.eqb s "")
  | _ => false
  end.

(** ** [stripEmpty] *)

(** [typeof x === 'object']. *)
Definition isTypeofObject (x : value) : bool :=
  match x with VNull | VObj _ | VRegExp _ _ | VArr _ => true | _ => false end.

Definition mapM {A B : Type} (f : A -> outcome B) : list A -> outcome (list B) :=
  fix go (l : list A) : outcome (list B) :=
    match l with
    | [] => Ret []
    | x :: rest => y <- f x ;; ys <- go rest ;; Ret (y :: ys)
    end.

Definition stripEmptyEntry (rec : value -> outcome object) (v : value)
  : outcome (option value) :=
  if isNullish v then Ret None
  else
    match v with
    | VArr [] => Ret None
    | VArr items =>
        items' <- mapM (fun x =>
                          if isTypeofObject x
                          then (o <- rec x ;; Ret (VObj o))
                          else Ret x) items ;;
        Ret (Some (VArr items'))
    | VObj _ | VRegExp _ _ =>
        nested <- rec v ;;
        match nested with
        | [] => Ret None
        | _ => Ret (Some (VObj nested))
        end
    | _ => Ret (Some v)
    end.

(** [stripEmpty(obj)]: the entries of the returned object;
    [Object.entries(null)] throws. *)
Fixpoint stripEmpty (obj : value) : outcome object :=
  match obj with
  | VObj es =>
      (fix loop (es : list (string * value)) (out : object) : outcome object :=
         match es with
         | [] => Ret out
         | (k, v) :: rest =>
             r <- stripEmptyEntry stripEmpty v ;;
             match r with
             | Some v' => loop rest (setKey k v' out)
             | None => loop rest out
             end
         end) es []
  | VArr items =>
      (fix loop (items : list value) (i : Z) (out : object) : outcome object :=
         match items with
         | [] => Ret out
         | v :: rest =>
             r <- stripEmptyEntry stripEmpty v ;;
             match r with
             | Some v' => loop rest (i + 1) (setKey (Js.numberToString i) v' out)
             | None => loop rest (i + 1) out
             end
         end) items 0 []
  | VNull | VUndef => Throw "TypeError: cannot convert undefined or null to object"
  | _ => Ret []
  end.

(** ** Secret masking *)

(** [v && /password|pwd|secret/i.test(v)]. *)
Definition truthySecret (v : value) : bool :=
  truthy v && Js.testSecret (toString v).

(** [matchText(t)]; reading a property of [null] or [undefined] throws. *)
Definition matchText (t : value) : outcome bool :=
  match t with
  | VStr s => Ret (Js.testSecret s)
  | VUndef | VNull => Throw "TypeError: cannot read properties of undefined"
  | _ =>
      if truthySecret (prop "value" t) then Ret true
      else if truthySecret (prop "regex" t) then Ret true
      else Ret false
  end.

(** The chain of tests of [maybeMaskValue] on an element object. *)
Definition looksSecret (el : object) : outcome bool :=
  if hasKey "testId" el && Js.testSecret (toString (getKey "testId" el))
  then Ret true
  else
    l <- (if hasKey "label" el then matchText (getKey "label" el) else Ret false) ;;
    if l : bool then Ret true
    else
      p <- (if hasKey "placeholder" el then matchText (getKey "placeholder" el)
            else Ret false) ;;
      if p : bool then Ret true
      else if hasKey "role" el &&
              Js.testSecret (toString (nullish_or (getKey "name" el) (VStr "")))
      then Ret true
      else
        t <- (if hasKey "text" el then matchText (getKey "text" el) else Ret false) ;;
        if t : bool then Ret true
        else if hasKey "css" el && Js.testSecret (toString (getKey "css" el))
        then Ret true
        else if hasKey "xpath" el && Js.testSecret (toString (getKey "xpath" el))
        then Ret true
        else Ret false.

(** [maybeMaskValue(el, text)]; the [in] operator throws on a value that
    is not an object. *)
Definition maybeMaskValue (el : value) (text : option string)
  : outcome (option string) :=
  match text with
  | None => Ret None
  | Some t =>
      match el with
      | VObj o =>
          secret <- looksSecret o ;;
          if secret : bool then Ret (Some ENV_PASSWORD) else Ret (Some t)
      | VArr _ | VRegExp _ _ => Ret (Some t)
      | _ => Throw "TypeError: cannot use 'in' operator"
      end
  end.

(** ** The selector mapper *)

Definition FILTER_ENGINES : list string :=
  ["internal:has-text"; "internal:has"; "nth"].

Definition setHas (set : list string) (x : string) : bool :=
  existsb (String.eqb x) set.

(** The backward scan for the last part that is not a filter, over the
    indices below [n]; [None] when there is none. *)
Fixpoint scanBase (ps : list ParsedSelectorPart) (n : nat) : option Z :=
  match n with
  | O => None
  | S i =>
      match nth_error ps i with
      | Some p =>
          if negb (setHas FILTER_ENGINES (partName p)) then Some (Z.of_nat i)
          else scanBase ps i
      | None => Some (Z.of_nat i)
      end
  end.

(** The base index of [elementFromParsedSelector]. *)
Definition resolveBaseIndex (parsed : ParsedSelector) : Z :=
  let ps := parts parsed in
  let scanned :=
    match scanBase ps (List.length ps) with
    | Some i => i
    | None => Z.of_nat (List.length ps) - 1
    end in
  match capture parsed with
  | Some c => if c >=? 0 then c else scanned
  | None => scanned
  end.

(** One iteration of the loop over the attributes of a role selector. *)
Definition roleAttribute (element : object) (attr : AttributeSelectorPart) : object :=
  if String.eqb (attrName attr) "name"
  then setKey "name" (attrValue attr) element
  else element.

(** The switch on the engine of the base part: the element. *)
Definition elementOfBasePart (parsed : ParsedSelector) (basePart : ParsedSelectorPart)
  : outcome object :=
  let name := partName basePart in
  if String.eqb name "internal:testid" then
    attrSelector <- parseAttributeSelectorOfBody (partBody basePart) ;;
    match attributes attrSelector with
    | first :: _ => Ret [("testId", attrValue first)]
    | [] => Throw "TypeError: cannot destructure property 'value' of undefined"
    end
  else if String.eqb name "internal:role" then
    attrSelector <- parseAttributeSelectorOfBody (partBody basePart) ;;
    Ret (fold_left roleAttribute (attributes attrSelector)
           [("role", VStr (selName attrSelector))])
  else if String.eqb name "internal:text" then
    t <- parseTextSpecOfBody (partBody basePart) ;;
    Ret [("text", t)]
  else if String.eqb name "css" || String.eqb name "css:light" then
    Ret [("css", VStr (partSource basePart))]
  else if String.eqb name "xpath" then
    Ret [("xpath", VStr (partSource basePart))]
  else if String.eqb name "internal:label" then
    t <- parseTextSpecOfBody (partBody basePart) ;;
    Ret [("label", t)]
  else if String.eqb name "internal:placeholder" then
    t <- parseTextSpecOfBody (partBody basePart) ;;
    Ret [("placeholder", t)]
  else
    Ret [("css", VStr (stringifySelector parsed))].

(** [(filters ??= {}).k = v]. *)
Definition setFilter (filters : value) (k : string) (v : value) : value :=
  match filters with
  | VObj o => VObj (setKey k v o)
  | _ => VObj [(k, v)]
  end.

(** One iteration of the loop over the parts after the base part. *)
Definition filterPart (acc : value * value) (part : ParsedSelectorPart)
  : outcome (value * value) :=
  let (filters, nth) := acc in
  let name := partName part in
  if String.eqb name "internal:has-text" then
    t <- parseTextSpecOfBody (partBody part) ;;
    Ret (setFilter filters "hasText" t, nth)
  else if String.eqb name "nth" then
    match Js.parseInt10 (bodyText (partBody part)) with
    | Some n => Ret (filters, VNum n)
    | None => Ret acc
    end
  else Ret acc.

Fixpoint filterParts (acc : value * value) (ps : list ParsedSelectorPart)
  : outcome (value * value) :=
  match ps with
  | [] => Ret acc
  | part :: rest =>
      acc' <- filterPart acc part ;;
      filterParts acc' rest
  end.

Definition cssFallback (raw : string) : value :=
  VObj [("element", VObj [("css", VStr raw)])].

(** [elementFromParsedSelector(raw)]; [VUndef] is [undefined]. *)
Definition elementFromParsedSelector (raw : option string) : outcome value :=
  match raw with
  | None => Ret VUndef
  | Some "" => Ret VUndef
  | Some raw =>
      match parseSelector raw with
      | None => Ret VUndef
      | Some parsed =>
          let baseIndex := resolveBaseIndex parsed in
          if baseIndex <? 0 then Ret (cssFallback raw)
          else
            match nth_error (parts parsed) (Z.to_nat baseIndex) with
            | None => Ret (cssFallback raw)
            | Some basePart =>
                element <- elementOfBasePart parsed basePart ;;
                fn <- filterParts (VUndef, VUndef)
                        (skipn (Z.to_nat (baseIndex + 1)) (parts parsed)) ;;
                Ret (VObj [("element", VObj element);
                           ("filters", fst fn); ("nth", snd fn)])
            end
      end
  end.

(** [buildStructuredSelector(actionInContext)]. *)
Definition buildStructuredSelector (actionInContext : ActionInContext)
  : outcome object :=
  let frame := frame actionInContext in
  let selector0 : object :=
    if String.eqb (pageAlias frame) "" then []
    else [("page", VStr (pageAlias frame))] in
  let framePath := framePathToObjects frameRefFromString (framePath frame) in
  let selector1 :=
    if truthy framePath then setKey "framePath" framePath selector0
    else selector0 in
  let action := action actionInContext in
  if isActionWithSelector action then
    let raw := match selector action with Some r => r | None => None end in
    mapped <- elementFromParsedSelector raw ;;
    let fallback :=
      VObj [("css", match raw with Some r => VStr r | None => VStr "UNKNOWN" end)] in
    let selector2 :=
      setKey "element" (nullish_or (prop "element" mapped) fallback) selector1 in
    let selector3 :=
      if truthy (prop "filters" mapped)
      then setKey "filters" (prop "filters" mapped) selector2
      else selector2 in
    match prop "nth" mapped with
    | VNum n => Ret (setKey "nth" (VNum n) selector3)
    | _ => Ret selector3
    end
  else Ret selector1.

(** ** The emitter *)

Record Meta : Type := mkMeta {
  version : string;
  metaName : string;
  metaBaseURL : option string
}.

Record Generator : Type := mkGenerator {
  _headerEmitted : bool;
  _seedUrl : option string;
  _meta : Meta;
  _debug : bool
}.

(** The state of a new instance. *)
Definition initial : Generator :=
  {| _headerEmitted := false; _seedUrl := None;
     _meta := {| version := "0.2"; metaName := "Recorded Scenario";
                 metaBaseURL := None |};
     _debug := false |}.

Definition metaObject (m : Meta) : value :=
  VObj [("version", VStr (version m)); ("name", VStr (metaName m));
        ("baseURL", ofOption (metaBaseURL m))].

Definition withHeaderEmitted (g : Generator) (b : bool) : Generator :=
  {| _headerEmitted := b; _seedUrl := _seedUrl g; _meta := _meta g;
     _debug := _debug g |}.

Definition withBaseURL (g : Generator) (u : option string) : Generator :=
  {| _headerEmitted := _headerEmitted g; _seedUrl := _seedUrl g;
     _meta := {| version := version (_meta g); metaName := metaName (_meta g);
                 metaBaseURL := u |};
     _debug := _debug g |}.

Definition orElse (a b : option string) : option string :=
  match a with
  | Some "" | None => b
  | Some _ => a
  end.

Definition isSet (a : option string) : bool :=
  match a with
  | Some "" | None => false
  | Some _ => true
  end.

(** The header lines: the dumped metadata without its trailing newline,
    the [steps:] key and a blank line. *)
Definition headerLines (g : Generator) : outcome (list string) :=
  stripped <- stripEmpty (metaObject (_meta g)) ;;
  let metaDump := normalizeNewlines (YAML_dump (VObj stripped) dumpOpts) in
  let metaNoTrail :=
    if Js.endsWith metaDump LF then Js.slice metaDump 0 (-1) else metaDump in
  Ret [metaNoTrail; "steps:"; ""].

(** [_emitHeaderOnce()]. *)
Definition _emitHeaderOnce (g : Generator) : outcome (Generator * list string) :=
  if _headerEmitted g then Ret (g, [])
  else
    lines <- headerLines g ;;
    Ret (withHeaderEmitted g true, lines).

(** [generateHeader(options)]. *)
Definition generateHeader (g : Generator) (options : LanguageGeneratorOptions)
  : outcome (Generator * string) :=
  let debug := if isSet GENFEST_HTML_DIR then true else _debug g in
  let seedUrl := orElse (baseURL options) None in
  name <- match seedUrl with
          | Some seed =>
              match URL_new seed with
              | Some u => Ret (hostname u)
              | None => Throw "TypeError: Invalid URL"
              end
          | None => Ret "Recorded Scenario"
          end ;;
  Ret ({| _headerEmitted := false; _seedUrl := seedUrl;
          _meta := {| version := "0.1"; metaName := name;
                      metaBaseURL := orElse (baseURL options) seedUrl |};
          _debug := debug |},
       "# Generated by Genfest").

Inductive built : Type :=
| Skipped
| Built (g : Generator) (header : list string) (step : object).

Definition navigateStep (g : Generator) (a : Action) : outcome built :=
  if isTrivialUrl (url a) then Ret Skipped
  else
    let url := match url a with Some u => u | None => "" end in
    let g1 :=
      if isSet (metaBaseURL (_meta g)) then g
      else withBaseURL g (Some url) in
    r <- (if _headerEmitted g1 then Ret (g1, []) else _emitHeaderOnce g1) ;;
    Ret (Built (fst r) (snd r) [("action", VStr "navigate"); ("url", VStr url)]).

Definition optNum (n : option Z) : value :=
  match n with Some z => VNum z | None => VUndef end.

Definition optBool (b : option bool) : value :=
  match b with Some x => VBool x | None => VUndef end.

Definition isNum (n : option Z) (k : Z) : bool :=
  match n with Some z => z =? k | None => false end.

(** The switch of [generateAction]. *)
Definition stepOfAction (g : Generator) (actionInContext : ActionInContext)
    (selector : object) : outcome built :=
  let action := action actionInContext in
  let n := name action in
  if String.eqb n "openPage" || String.eqb n "navigate" then
    navigateStep g action
  else if String.eqb n "click" then
    let step0 :=
      [("action", VStr (if isNum (clickCount action) 2 then "dblclick" else "click"));
       ("button", ofOption (button action));
       ("modifiers", optNum (modifiers action))] in
    let step1 :=
      if isNum (clickCount action) 1 then step0
      else setKey "clickCount" (optNum (clickCount action)) step0 in
    Ret (Built g [] (setKey "expectations" (expectFromSignals action) step1))
  else if String.eqb n "fill" then
    t <- maybeMaskValue (getKey "element" selector) (text action) ;;
    Ret (Built g []
      [("action", VStr "fill"); ("text", ofOption t);
       ("expectations", expectFromSignals action)])
  else if String.eqb n "press" then
    Ret (Built g []
      [("action", VStr "press"); ("key", ofOption (key action));
       ("modifiers", optNum (modifiers action));
       ("expectations", expectFromSignals action)])
  else if String.eqb n "check" then
    Ret (Built g []
      [("action", VStr "check"); ("expectations", expectFromSignals action)])
  else if String.eqb n "uncheck" then
    Ret (Built g []
      [("action", VStr "uncheck"); ("expectations", expectFromSignals action)])
  else if String.eqb n "assertText" then
    Ret (Built g [] [("action", VStr "assert.text"); ("text", ofOption (text action))])
  else if String.eqb n "assertValue" then
    Ret (Built g []
      [("action", VStr "assert.value"); ("value", ofOption (actionValue action))])
  else if String.eqb n "assertVisible" then
    Ret (Built g [] [("action", VStr "assert.visible")])
  else if String.eqb n "assertChecked" then
    Ret (Built g []
      [("action", VStr "assertChecked"); ("checked", optBool (checked action))])
  else if String.eqb n "closePage" then
    Ret (Built g [] [("action", VStr "closePage")])
  else
    let step0 := [("action", VStr (n ++ " (NOT SUPPORTED)"))] in
    Ret (Built g []
      (if _debug g then step0
       else setKey "debug" (VObj [("action_in_context", actionObject actionInContext)])
              step0)).

Definition finishStep (g : Generator) (actionInContext : ActionInContext)
    (selector step : object) : object :=
  let step1 := setKey "selector" (VObj selector) step in
  if _debug g then setKey "debug" (debugInfo actionInContext) step1 else step1.

(** [generateAction(actionInContext)]: the new state and the array [out]
    whose lines are joined into the returned string. *)
Definition generateActionOut (g : Generator) (actionInContext : ActionInContext)
  : outcome (Generator * list string) :=
  selector <- buildStructuredSelector actionInContext ;;
  b <- stepOfAction g actionInContext selector ;;
  match b with
  | Skipped => Ret (g, [])
  | Built g' header step =>
      let entry := VObj (stripDefaults (VObj (finishStep g actionInContext selector step))) in
      Ret (g', header ++ [formatAsYamlListItem entry dumpOpts])
  end.

Definition generateAction (g : Generator) (actionInContext : ActionInContext)
  : outcome (Generator * string) :=
  r <- generateActionOut g actionInContext ;;
  Ret (fst r, Js.join LF (snd r)).

(** [generateFooter(saveStorage)]. *)
Definition generateFooter (g : Generator) (saveStorage : option string) : string := "".

End Generator.

End Packaged.

(* ===================================================================== *)
(** * The frame tree dump: file name slugs                                *)
(* ===================================================================== *)

(** The pure helpers of the frame tree dump utility.  The dump itself
    (directory creation, frame contents, file writes) and [shortHash] (a
    SHA-256 digest) are effects of the host and are not embedded. *)

Module FrameDump.

Section Slug.

Context {host : Host}.

(** [Array.from(new URLSearchParams(search).keys())]. *)
Variable searchParamKeys : string -> list string.

Definition isAlnum (c : ascii) : bool :=
  let n := Js.code c in
  ((48 <=? n) && (n <=? 57) || (65 <=? n) && (n <=? 90)
   || (97 <=? n) && (n <=? 122))%nat.

(** The class of safe characters: letters, digits, dot, underscore and
    dash. *)
Definition isSafe (c : ascii) : bool :=
  isAlnum c || Ascii.eqb c "." || Ascii.eqb c "_" || Ascii.eqb c "-".

(** The class of edge punctuation: dash and dot. *)
Definition isEdge (c : ascii) : bool := Ascii.eqb c "-" || Ascii.eqb c ".".

(** The first replacement of [sanitize]: every unsafe character becomes
    a dash. *)
Definition replaceUnsafe (s : string) : string :=
  Js.mapChars (fun c => if isSafe c then c else "-"%char) s.

(** The second replacement: a run of dashes becomes one dash;
    [afterDash] tells that the previous character was a dash. *)
Fixpoint collapseDashes (afterDash : bool) (s : string) : string :=
  match s with
  | EmptyString => EmptyString
  | String c rest =>
      if Ascii.eqb c "-" then
        if afterDash then collapseDashes true rest
        else String c (collapseDashes true rest)
      else String c (collapseDashes false rest)
  end.

Fixpoint dropEdge (s : string) : string :=
  match s with
  | String c rest => if isEdge c then dropEdge rest else s
  | EmptyString => EmptyString
  end.

(** The third replacement: the runs of edge punctuation at the start and
    at the end are removed. *)
Definition trimEdges (s : string) : string :=
  Js.rev_string (dropEdge (Js.rev_string (dropEdge s) "")) "".

(** [sanitize(s, max)]. *)
Definition sanitize (s : string) (max : Z) : string :=
  match Js.slice (trimEdges (collapseDashes false (replaceUnsafe s))) 0 max with
  | EmptyString => "page"
  | r => r
  end.

(** [s.split(sep)] for a separator of one character. *)
Fixpoint splitOn (sep : ascii) (s : string) : list string :=
  match s with
  | EmptyString => [""]
  | String c rest =>
      if Ascii.eqb c sep then "" :: splitOn sep rest
      else
        match splitOn sep rest with
        | l :: ls => String c l :: ls
        | [] => [String c ""]
        end
  end.

(** [list.filter(Boolean)] on strings. *)
Definition nonEmpty (l : list string) : list string :=
  filter (fun x => negb (String.eqb x "")) l.

(** [list.slice(-n)]. *)
Definition lastN {A : Type} (n : nat) (l : list A) : list A :=
  skipn (List.length l - n) l.

(** [urlSlug(raw)]. *)
Definition urlSlug (raw : string) : string :=
  match URL_new raw with
  | Some u =>
      let host := Js.mapChars (fun c => if Ascii.eqb c "." then "-"%char else c)
                    (hostname u) in
      let parts := nonEmpty (splitOn "/" (pathname u)) in
      let tail := Js.join "_" (lastN 3 parts) in
      let qsKeys := Js.join "_" (firstn 2 (searchParamKeys (search u))) in
      let combined :=
        match Js.join "_" (nonEmpty [host; tail; qsKeys]) with
        | EmptyString => "root"
        | c => c
        end in
      sanitize combined 90
  | None => sanitize (match raw with EmptyString => "page" | r => r end) 60
  end.

End Slug.

End FrameDump.

(* ===================================================================== *)
(** * A host for the examples                                             *)
(* ===================================================================== *)

(** The collaborators on the inputs of the examples, tabulated: each row
    is what the selector grammar, the attribute parser and [URL] return
    on that input.  Inputs outside the tables are rejected. *)

Module Examples.

Definition quoted (s : string) : string := (QUOTE ++ s ++ QUOTE)%string.

(** [css=.btn >> internal:has-text="Go" >> nth=2] *)
Definition goRaw : string :=
  ("css=.btn >> internal:has-text=" ++ quoted "Go" ++ " >> nth=2")%string.

Definition goChain : ParsedSelector :=
  mkParsed
    [mkPart "css" BodyCss ".btn";
     mkPart "internal:has-text" (BodyString (quoted "Go")) (quoted "Go");
     mkPart "nth" (BodyString "2") "2"]
    None.

(** [internal:testid=foo] *)
Definition testidRaw : string := "internal:testid=foo".

Definition testidChain : ParsedSelector :=
  mkParsed [mkPart "internal:testid" (BodyString "foo") "foo"] None.

(** [internal:testid=[data-testid="login-password"s]] *)
Definition loginBody : string :=
  ("[data-testid=" ++ quoted "login-password" ++ "s]")%string.

Definition loginRaw : string := ("internal:testid=" ++ loginBody)%string.

Definition loginChain : ParsedSelector :=
  mkParsed [mkPart "internal:testid" (BodyString loginBody) loginBody] None.

(** [internal:role=button[name="Submit"i]] *)
Definition submitBody : string := ("button[name=" ++ quoted "Submit" ++ "i]")%string.

Definition submitRaw : string := ("internal:role=" ++ submitBody)%string.

Definition submitChain : ParsedSelector :=
  mkParsed [mkPart "internal:role" (BodyString submitBody) submitBody] None.

Definition submitName : AttributeSelectorPart :=
  {| attrName := "name"; attrOp := "="; attrValue := VStr "Submit";
     attrCaseSensitive := false |}.

(** [internal:role=textbox[name="Password"s]] *)
Definition passwordBody : string :=
  ("textbox[name=" ++ quoted "Password" ++ "s]")%string.

Definition passwordRaw : string := ("internal:role=" ++ passwordBody)%string.

Definition passwordChain : ParsedSelector :=
  mkParsed [mkPart "internal:role" (BodyString passwordBody) passwordBody] None.

Definition passwordName : AttributeSelectorPart :=
  {| attrName := "name"; attrOp := "="; attrValue := VStr "Password";
     attrCaseSensitive := true |}.

(** [internal:label="Password"s] *)
Definition labelBody : string := (quoted "Password" ++ "s")%string.

Definition labelRaw : string := ("internal:label=" ++ labelBody)%string.

Definition labelChain : ParsedSelector :=
  mkParsed [mkPart "internal:label" (BodyString labelBody) labelBody] None.

(** [css=.btn >> visible=true] *)
Definition visibleRaw : string := "css=.btn >> visible=true".

Definition visibleChain : ParsedSelector :=
  mkParsed [mkPart "css" BodyCss ".btn"; mkPart "visible" (BodyString "true") "true"]
    None.

(** [css=.btn >> visible=FALSE] *)
Definition visibleUpperRaw : string := "css=.btn >> visible=FALSE".

Definition visibleUpperChain : ParsedSelector :=
  mkParsed [mkPart "css" BodyCss ".btn"; mkPart "visible" (BodyString "FALSE") "FALSE"]
    None.

Fixpoint lookup {A : Type} (table : list (string * A)) (k : string) : option A :=
  match table with
  | [] => None
  | (k', a) :: rest => if String.eqb k k' then Some a else lookup rest k
  end.

Definition selectorTable : list (string * ParsedSelector) :=
  [(goRaw, goChain); (testidRaw, testidChain); (loginRaw, loginChain);
   (submitRaw, submitChain); (passwordRaw, passwordChain);
   (labelRaw, labelChain); (visibleRaw, visibleChain);
   (visibleUpperRaw, visibleUpperChain)].

Definition attributeTable : list (string * AttributeSelector) :=
  [("foo", {| selName := "foo"; attributes := [] |});
   (loginBody,
    {| selName := "";
       attributes := [{| attrName := "data-testid"; attrOp := "=";
                         attrValue := VStr "login-password";
                         attrCaseSensitive := true |}] |});
   (submitBody, {| selName := "button"; attributes := [submitName] |});
   (passwordBody, {| selName := "textbox"; attributes := [passwordName] |})].

Definition urlTable : list (string * URL) :=
  [("https://example.com",
    {| origin := "https://example.com"; protocol := "https:";
       hostname := "example.com"; pathname := "/"; search := ""; hash := "" |});
   ("https://example.com/a/b?x=1",
    {| origin := "https://example.com"; protocol := "https:";
       hostname := "example.com"; pathname := "/a/b"; search := "?x=1";
       hash := "" |});
   ("https://other.com/",
    {| origin := "https://other.com"; protocol := "https:";
       hostname := "other.com"; pathname := "/"; search := ""; hash := "" |})].

(** [stringifySelector]: the parts joined by [ >> ], the captured part
    starred; the engine prefix is left out of a part that is not captured
    when the engine is [css], when it is [xpath] and the source starts
    with two slashes, or when the source starts with two dots. *)
Definition stringifyPart (capture : option Z) (i : Z) (p : ParsedSelectorPart)
  : string :=
  let captured := match capture with Some c => (c =? i)%Z | None => false end in
  let includeEngine :=
    captured ||
    negb (String.eqb (partName p) "css"
          || String.eqb (partName p) "xpath" && Js.startsWith (partSource p) "//"
          || Js.startsWith (partSource p) "..") in
  ((if captured then "*" else "") ++
   (if includeEngine then partName p ++ "=" else "") ++
   partSource p)%string.

Fixpoint stringifyParts (capture : option Z) (i : Z) (ps : list ParsedSelectorPart)
  : list string :=
  match ps with
  | [] => []
  | p :: rest => stringifyPart capture i p :: stringifyParts capture (i + 1) rest
  end.

Definition stringify (parsed : ParsedSelector) : string :=
  Js.join " >> " (stringifyParts (capture parsed) 0 (parts parsed)).

Definition plainChar (c : ascii) : bool :=
  negb (Ascii.eqb c "034") && negb (Ascii.eqb c "\") && (32 <=? Js.code c)%nat.

(** JSON string literals without escapes. *)
Definition jsonParse (q : string) : option value :=
  let n := String.length q in
  if Js.startsWith q QUOTE && Js.endsWith q QUOTE && (2 <=? n)%nat then
    let inner := substring 1 (n - 2) q in
    if allChars plainChar inner then Some (VStr inner) else None
  else None.

Fixpoint render (v : value) : string :=
  match v with
  | VUndef => ""
  | VNull => "null"
  | VBool true => "true"
  | VBool false => "false"
  | VNum n => Js.numberToString n
  | VStr s => quoted s
  | VRegExp source flags => ("/" ++ source ++ "/" ++ flags)%string
  | VArr items => ("[" ++ Js.join ", " (map render items) ++ "]")%string
  | VObj es =>
      ("{" ++ Js.join ", " (map (fun e => (fst e ++ ": " ++ render (snd e))%string) es)
       ++ "}")%string
  end.

(** A block rendering of the top-level entries, one per line. *)
Definition dump (v : value) (_ : DumpOptions) : string :=
  match v with
  | VObj es =>
      String.concat ""
        (map (fun e => (fst e ++ ": " ++ render (snd e) ++ LF)%string) es)
  | _ => (render v ++ LF)%string
  end.

Definition host : Host := {|
  parseSelector := lookup selectorTable;
  parseAttributeSelector := fun body _ => lookup attributeTable body;
  stringifySelector := stringify;
  JSON_parse := jsonParse;
  RegExp_new := fun pattern flags =>
    Some (if String.eqb pattern "" then "(?:)" else pattern, flags);
  URL_new := lookup urlTable;
  Number_of := fun v => match v with VStr s => Js.parseInt10 s | _ => None end;
  YAML_dump := dump;
  GENFEST_HTML_DIR := None;
  actionObject := fun a => VObj [("action", VObj [("name", VStr (name (action a)))])];
  debugInfo := fun a => VObj []
|}.

Definition noFrame : FrameDescription := {| pageAlias := "page"; framePath := None |}.

Definition bare (n : string) : Action :=
  {| name := n; selector := None; url := None; text := None; key := None;
     actionValue := None; checked := None; options := None; button := None;
     modifiers := None; clickCount := None; isNot := false; signals := None |}.

Definition navigate (u : string) : ActionInContext :=
  {| frame := noFrame;
     action := {| name := "navigate"; selector := None; url := Some u;
                  text := None; key := None; actionValue := None;
                  checked := None; options := None; button := None;
                  modifiers := None; clickCount := None; isNot := false;
                  signals := None |} |}.

Definition fill (sel t : string) : ActionInContext :=
  {| frame := noFrame;
     action := {| name := "fill"; selector := Some (Some sel); url := None;
                  text := Some t; key := None; actionValue := None;
                  checked := None; options := None; button := None;
                  modifiers := None; clickCount := None; isNot := false;
                  signals := Some [] |} |}.

Definition closePage : ActionInContext :=
  {| frame := noFrame; action := bare "closePage" |}.

(** An instance configured with the base URL [https://example.com]. *)
Definition configured : Revised.Generator :=
  {| Revised._headerEmitted := false;
     Revised._seedUrl := Some "https://example.com";
     Revised._meta :=
       {| Revised.version := "0.2"; Revised.metaName := "example.com";
          Revised.metaBaseURL := Some "https://example.com" |};
     Revised._debug := false |}.

End Examples.

(* ===================================================================== *)
(** * Notions used in the statements                                      *)
(* ===================================================================== *)

Section Statements.

Context {host : Host}.

Import Revised.

(** A part that the backward scan passes over: a filter engine or an
    ignored engine. *)
Definition passedOver (q : ParsedSelectorPart) : bool :=
  setHas FILTER_ENGINES (partName q) || setHas IGNORE_ENGINES (partName q).

(** The result of the mapper once the base part is known. *)
Definition mappedFrom (fuel : nat) (parsed : ParsedSelector)
    (p : ParsedSelectorPart) (post : list ParsedSelectorPart) : outcome value :=
  element <- elementOfBasePart parsed p ;;
  fn <- filterParts (elementFromParsedSelector fuel) (VUndef, VUndef) post ;;
  Ret (VObj [("element", VObj element); ("filters", fst fn); ("nth", snd fn)]).

(** The entry of the accessible name in a role element. *)
Definition nameEntry (attr : AttributeSelectorPart) : object :=
  match roleNameMatcher attr with
  | Some matcher => [("name", matcher)]
  | None => []
  end.

(** The number of calls of a sequence that wrote the header block. *)
Definition countHeaders (outs : list (list string)) : nat :=
  List.length (filter hasHeader outs).

(** The engines both versions treat alike. *)
Definition COMMON_ENGINES : list string :=
  ["internal:testid"; "internal:text"; "css"; "css:light"; "xpath";
   "internal:label"; "internal:placeholder"; "internal:has-text"; "nth"].

Definition commonEngine (p : ParsedSelectorPart) : bool :=
  setHas COMMON_ENGINES (partName p).

End Statements.

(* ===================================================================== *)
(** * Notions used in the statements on the rest of the code              *)
(* ===================================================================== *)

Section MoreStatements.

Context {host : Host}.

Import Revised.

(** No two dashes in a row; [afterDash] tells that the character before
    the string is a dash. *)
Fixpoint noDoubleDash (afterDash : bool) (s : string) : bool :=
  match s with
  | EmptyString => true
  | String c rest =>
      if Ascii.eqb c "-" then negb afterDash && noDoubleDash true rest
      else noDoubleDash false rest
  end.

(** The working string of [sanitize] before the cut to the bound. *)
Definition cleaned (s : string) : string :=
  FrameDump.trimEdges (FrameDump.collapseDashes false (FrameDump.replaceUnsafe s)).

(** The first character, if any, satisfies [f]. *)
Definition headIs (f : ascii -> bool) (s : string) : bool :=
  match s with
  | EmptyString => false
  | String c _ => f c
  end.


(** What one entry contributes to the stripped object, [rec] being the
    stripping of nested objects. *)
Definition strippedEntry (rec : value -> object) (e : string * value) : object :=
  match stripEntry rec (fst e) (snd e) with
  | Some v' => [(fst e, v')]
  | None => []
  end.


(** The three forms of a text matcher: a plain string, an exact matcher,
    a pattern with flags. *)
Definition isTextMatcher (v : value) : bool :=
  match v with
  | VStr _ => true
  | VObj [(k1, VStr _); (k2, VBool true)] =>
      String.eqb k1 "value" && String.eqb k2 "exact"
  | VObj [(k1, VStr _); (k2, VStr _)] =>
      String.eqb k1 "pattern" && String.eqb k2 "flags"
  | _ => false
  end.

(** The text a matcher looks for: the string, the value or the pattern. *)
Definition matcherText (v : value) : string :=
  match v with
  | VStr s => s
  | VObj o =>
      match getKey "value" o, getKey "pattern" o with
      | VStr s, _ => s
      | _, VStr s => s
      | _, _ => ""
      end
  | _ => ""
  end.

(** A value [stripEmpty] keeps: neither [null] nor [undefined], not an
    empty array, not an empty object. *)
Definition isFilled (v : value) : bool :=
  match v with
  | VUndef | VNull | VArr [] | VObj [] => false
  | _ => true
  end.

(** A character other than the carriage return. *)
Definition noCR (c : ascii) : bool := negb (Ascii.eqb c "013").

(** The items of an array value. *)
Definition itemsOf (v : value) : list value :=
  match v with VArr l => l | _ => [] end.

(** The signal is of a kind [expectFromSignals] knows. *)
Definition isKnownSignal (s : Signal) : bool :=
  existsb (String.eqb (signalName s)) ["navigation"; "popup"; "download"; "dialog"].

(** The part is an [nth] part whose body [parseInt] reads as a finite
    number: the number. *)
Definition nthOf (p : ParsedSelectorPart) : option Z :=
  if String.eqb (partName p) "nth" then Js.parseInt10 (bodyText (partBody p))
  else None.

(** What a call of [generateAction] leaves in place: the debug switch,
    the seed URL, the version and the name of the scenario, a raised
    header flag and a base URL that is set. *)
Definition keepsSettings (g g' : Generator) : Prop :=
  _debug g' = _debug g /\
  _seedUrl g' = _seedUrl g /\
  version (_meta g') = version (_meta g) /\
  metaName (_meta g') = metaName (_meta g) /\
  (_headerEmitted g = true -> _headerEmitted g' = true) /\
  (isSet (metaBaseURL (_meta g)) = true ->
   metaBaseURL (_meta g') = metaBaseURL (_meta g)).

(** The step has an action tag and no selector yet. *)
Definition isTaggedStep (step : object) : Prop :=
  NoDup (keys step) /\
  hasKey "selector" step = false /\
  exists tag, getKey "action" step = VStr tag /\ tag <> ""%string.

End MoreStatements.

(** A left click, once, without modifiers nor signals, on the element
    of the selector [sel]. *)
Definition clickOn (sel : string) : ActionInContext :=
  {| frame := Examples.noFrame;
     action := {| name := "click"; selector := Some (Some sel); url := None;
                  text := None; key := None; actionValue := None;
                  checked := None; options := None; button := Some "left";
                  modifiers := Some 0; clickCount := Some 1; isNot := false;
                  signals := Some [] |} |}.

(** The list item of a click on the button named Submit. *)
Definition submitClickItem : string :=
  formatAsYamlListItem (host := Examples.host)
    (VObj [("action", VStr "click"); ("button", VStr "left");
           ("selector",
            VObj [("page", VStr "page");
                  ("element", VObj [("role", VStr "button");
                                    ("name", VStr "Submit")])])])
    Revised.YAML_DUMP_OPTIONS.

(** The list item of a navigation written with the URL [u]. *)
Definition navigateItem (u : string) : string :=
  formatAsYamlListItem (host := Examples.host)
    (VObj [("action", VStr "navigate"); ("url", VStr u);
           ("selector", VObj [("page", VStr "page")])])
    Revised.YAML_DUMP_OPTIONS.

(** A run of [n] digits 9. *)
Definition nines (n : nat) : string := String.concat "" (List.repeat "9"%string n).

(** The host of the examples with another table of parsed selectors. *)
Definition hostWith (table : list (string * ParsedSelector)) : Host := {|
  parseSelector := Examples.lookup table;
  parseAttributeSelector := @parseAttributeSelector Examples.host;
  stringifySelector := @stringifySelector Examples.host;
  JSON_parse := @JSON_parse Examples.host;
  RegExp_new := @RegExp_new Examples.host;
  URL_new := @URL_new Examples.host;
  Number_of := @Number_of Examples.host;
  YAML_dump := @YAML_dump Examples.host;
  GENFEST_HTML_DIR := @GENFEST_HTML_DIR Examples.host;
  actionObject := @actionObject Examples.host;
  debugInfo := @debugInfo Examples.host
|}.

(* ===================================================================== *)
(** * Properties                                                          *)
(* ===================================================================== *)

Unset Implicit Arguments.

(** Structural induction on values, through arrays and objects. *)
Lemma value_ind (P : value -> Prop)
  (HUndef : P VUndef) (HNull : P VNull)
  (HBool : forall b, P (VBool b)) (HNum : forall n, P (VNum n))
  (HStr : forall s, P (VStr s))
  (HRegExp : forall source flags, P (VRegExp source flags))
  (HArr : forall items, Forall P items -> P (VArr items))
  (HObj : forall es, Forall (fun e => P (snd e)) es -> P (VObj es)) :
  forall v, P v.
Proof.
  fix IH 1. intros v. destruct v as [ | | b | n | s | source flags | items | es ].
  - exact HUndef.
  - exact HNull.
  - apply HBool.
  - apply HNum.
  - apply HStr.
  - apply HRegExp.
  - apply HArr. induction items as [ | x xs IHxs ]; constructor.
    + apply IH.
    + exact IHxs.
  - apply HObj. induction es as [ | [k x] xs IHxs ]; constructor.
    + apply IH.
    + exact IHxs.
Qed.

Section ObjectLemmas.


Lemma in_setKey k v o k' x :
  In (k', x) (setKey k v o) -> (k' = k /\ x = v) \/ In (k', x) o.
Proof.
  induction o as [ | [k0 v0] o IHo ]; simpl.
  - intros [H | []]. inversion H; auto.
  - destruct (String.eqb_spec k k0) as [-> | Hne]; simpl.
    + intros [H | H]; [inversion H; subst; auto | auto].
    + intros [H | H]; [auto | ]. destruct (IHo H); auto.
Qed.

Lemma keys_setKey_fresh k v o :
  ~ In k (keys o) -> setKey k v o = o ++ [(k, v)].
Proof.
  induction o as [ | [k0 v0] o IHo ]; simpl; intros Hk; [reflexivity | ].
  destruct (String.eqb_spec k k0) as [-> | Hne]; [tauto | ].
  rewrite IHo; [reflexivity | tauto].
Qed.

Lemma keys_setKey k v o :
  keys (setKey k v o) = if hasKey k o then keys o else keys o ++ [k].
Proof.
  induction o as [ | [k0 v0] o IHo ]; simpl; [reflexivity | ].
  destruct (String.eqb_spec k k0) as [-> | Hne]; simpl; [reflexivity | ].
  rewrite IHo. destruct (hasKey k o); reflexivity.
Qed.

Lemma hasKey_in k o : hasKey k o = true <-> In k (keys o).
Proof.
  induction o as [ | [k0 v0] o IHo ]; simpl; [intuition discriminate | ].
  rewrite orb_true_iff, IHo.
  destruct (String.eqb_spec k k0); intuition (subst; auto; discriminate).
Qed.

Lemma NoDup_setKey k v o : NoDup (keys o) -> NoDup (keys (setKey k v o)).
Proof.
  intros Hnd. rewrite keys_setKey.
  destruct (hasKey k o) eqn:Hk; [assumption | ].
  apply NoDup_app; [assumption | repeat constructor; simpl; tauto | ].
  intros x Hx [<- | []]. apply hasKey_in in Hx. congruence.
Qed.

End ObjectLemmas.

Section StripDefaults.

Variable rec : value -> object.

Lemma stripLoop_NoDup es : forall out,
  NoDup (keys out) -> NoDup (keys (stripLoop rec es out)).
Proof.
  induction es as [ | [k v] es IHes ]; simpl; intros out Hnd; [assumption | ].
  destruct (stripEntry rec k v); auto using NoDup_setKey.
Qed.

Lemma stripLoop_forall (Q : string -> value -> Prop) es : forall out,
  (forall k v, In (k, v) out -> Q k v) ->
  (forall k v v', In (k, v) es -> stripEntry rec k v = Some v' -> Q k v') ->
  forall k v, In (k, v) (stripLoop rec es out) -> Q k v.
Proof.
  induction es as [ | [k0 v0] es IHes ]; simpl; intros out Hout Hes; [assumption | ].
  destruct (stripEntry rec k0 v0) as [v' | ] eqn:E.
  - apply IHes.
    + intros k v Hin. destruct (in_setKey _ _ _ _ _ Hin) as [[-> ->] | H]; eauto.
    + eauto.
  - apply IHes; eauto.
Qed.

Lemma stripLoop_fixed l : forall out,
  NoDup (keys (out ++ l)) ->
  (forall k v, In (k, v) l -> stripEntry rec k v = Some v) ->
  stripLoop rec l out = out ++ l.
Proof.
  induction l as [ | [k v] l IHl ]; simpl; intros out Hnd Hkeep.
  - now rewrite app_nil_r.
  - rewrite (Hkeep k v) by auto.
    assert (Hfresh : ~ In k (keys out)).
    { unfold keys in Hnd. rewrite map_app in Hnd. simpl in Hnd.
      apply NoDup_remove_2 in Hnd. intros Hin. apply Hnd, in_or_app. auto. }
    rewrite keys_setKey_fresh by assumption.
    rewrite IHl; [now rewrite <- app_assoc | now rewrite <- app_assoc | auto].
Qed.

End StripDefaults.

Ltac strip_simpl :=
  cbn [isNullish isNonArrayObject];
  repeat match goal with
  | |- context [isZero ?v] =>
      lazymatch v with VNum _ => fail | _ => change (isZero v) with false end
  | |- context [isEmptyArray ?v] =>
      lazymatch v with VArr _ => fail | _ => change (isEmptyArray v) with false end
  end;
  rewrite ?andb_false_r.

Lemma stripEntry_fixed k v v' :
  stripDefaults (VObj (stripDefaults v)) = stripDefaults v ->
  stripEntry stripDefaults k v = Some v' ->
  stripEntry stripDefaults k v' = Some v'.
Proof.
  intros IH. unfold stripEntry.
  destruct v as [ | | b | n | s | source flags | items | es ]; strip_simpl.
  - discriminate.
  - discriminate.
  - intros [= <-]. strip_simpl. reflexivity.
  - destruct (String.eqb k "modifiers" && isZero (VNum n)) eqn:E; [discriminate | ].
    intros [= <-]. strip_simpl. now rewrite E.
  - intros [= <-]. strip_simpl. reflexivity.
  - cbn [stripDefaults]. discriminate.
  - destruct (String.eqb k "framePath" && isEmptyArray (VArr items)) eqn:E; [discriminate | ].
    intros [= <-]. strip_simpl. now rewrite E.
  - destruct (stripDefaults (VObj es)) as [ | e nested ] eqn:E; [discriminate | ].
    intros [= <-]. strip_simpl. rewrite IH. reflexivity.
Qed.

(** C9. Default stripping is idempotent: stripping the result of
    [stripDefaults] again returns it unchanged, for every step object. *)
Theorem stripDefaults_idempotent (obj : value) :
  stripDefaults (VObj (stripDefaults obj)) = stripDefaults obj.
Proof.
  induction obj as [ | | b | n | s | source flags | items _ | es IH ]
    using value_ind; try reflexivity.
  cbn [stripDefaults].
  apply (stripLoop_fixed stripDefaults (stripLoop stripDefaults es []) []).
  - simpl. apply stripLoop_NoDup. constructor.
  - apply stripLoop_forall with (Q := fun k v => stripEntry stripDefaults k v = Some v).
    + intros k v [].
    + intros k v v' Hin. apply stripEntry_fixed.
      rewrite Forall_forall in IH. apply (IH (k, v) Hin).
Qed.

(* ===================================================================== *)
(** ** The selector mapper of the revised generator                       *)
(* ===================================================================== *)

Section MapperProperties.

Context {host : Host}.

Import Revised.

Lemma scanBase_passes pre p post k :
  (k <= List.length post)%nat ->
  partName p <> "" ->
  setHas FILTER_ENGINES (partName p) = false ->
  setHas IGNORE_ENGINES (partName p) = false ->
  Forall (fun q => passedOver q = true) post ->
  scanBase (pre ++ p :: post) (List.length pre + 1 + k) = Z.of_nat (List.length pre).
Proof.
  intros Hk Hname Hfilter Hignore Hpost.
  induction k as [ | k IHk ].
  - replace (List.length pre + 1 + 0)%nat with (S (List.length pre)) by lia.
    cbn [scanBase]. rewrite nth_error_app2 by lia.
    rewrite Nat.sub_diag. cbn [nth_error].
    destruct (String.eqb_spec (partName p) ""); [contradiction | ].
    now rewrite Hignore, Hfilter.
  - replace (List.length pre + 1 + S k)%nat with (S (List.length pre + 1 + k)) by lia.
    cbn [scanBase]. rewrite nth_error_app2 by lia.
    replace (List.length pre + 1 + k - List.length pre)%nat with (S k) by lia.
    cbn [nth_error].
    destruct (nth_error post k) as [q | ] eqn:Hq.
    + assert (Hin : In q post) by (eapply nth_error_In; eauto).
      rewrite Forall_forall in Hpost. specialize (Hpost q Hin).
      unfold passedOver in Hpost.
      destruct (String.eqb (partName q) ""); [apply IHk; lia | ].
      destruct (setHas IGNORE_ENGINES (partName q)); [apply IHk; lia | ].
      rewrite orb_false_r in Hpost. rewrite Hpost. cbn [negb]. apply IHk; lia.
    + apply IHk; lia.
Qed.

Lemma resolveBaseIndex_last parsed pre p post :
  (forall c, capture parsed = Some c -> c < 0) ->
  parts parsed = pre ++ p :: post ->
  partName p <> "" ->
  setHas FILTER_ENGINES (partName p) = false ->
  setHas IGNORE_ENGINES (partName p) = false ->
  Forall (fun q => passedOver q = true) post ->
  resolveBaseIndex parsed = Z.of_nat (List.length pre).
Proof.
  intros Hcap Hparts Hname Hfilter Hignore Hpost.
  assert (Hscan : scanBase (parts parsed) (List.length (parts parsed))
                  = Z.of_nat (List.length pre)).
  { rewrite Hparts.
    replace (List.length (pre ++ p :: post))
      with (List.length pre + 1 + List.length post)%nat
      by (rewrite length_app; simpl; lia).
    now apply scanBase_passes. }
  assert (Hskip : skipIgnored (parts parsed) (Z.to_nat (Z.of_nat (List.length pre) + 1))
                  = Z.of_nat (List.length pre)).
  { replace (Z.to_nat (Z.of_nat (List.length pre) + 1)) with (S (List.length pre)) by lia.
    cbn [skipIgnored]. unfold ignoredAt. rewrite Hparts.
    rewrite nth_error_app2 by lia. rewrite Nat.sub_diag. cbn [nth_error].
    now rewrite Hignore. }
  unfold resolveBaseIndex.
  assert (Hfound : (Z.of_nat (List.length pre) =? -1) = false) by lia.
  assert (Hpos : (Z.of_nat (List.length pre) >=? 0) = true) by lia.
  destruct (capture parsed) as [c | ] eqn:Hc.
  - assert (Hneg : (c >=? 0) = false) by (specialize (Hcap c eq_refl); lia).
    rewrite Hneg, Hscan, Hfound, Hpos. exact Hskip.
  - rewrite Hscan, Hfound, Hpos. exact Hskip.
Qed.

Lemma skipn_past (A : Type) (pre : list A) (p : A) (post : list A) :
  skipn (List.length pre + 1) (pre ++ p :: post) = post.
Proof. induction pre as [ | x pre IH ]; simpl; auto. Qed.

Lemma elementFromParsedSelector_at fuel raw parsed pre p post :
  raw <> "" ->
  parseSelector raw = Some parsed ->
  parts parsed = pre ++ p :: post ->
  resolveBaseIndex parsed = Z.of_nat (List.length pre) ->
  elementFromParsedSelector (S fuel) (Some raw) = mappedFrom fuel parsed p post.
Proof.
  intros Hraw Hparse Hparts Hbase.
  cbn [elementFromParsedSelector]. unfold elementFromParsedSelector_body.
  destruct raw as [ | c raw' ]; [contradiction | ].
  rewrite Hparse, Hbase.
  assert (Hlt : (Z.of_nat (List.length pre) <? 0) = false) by lia.
  rewrite Hlt, Nat2Z.id, Hparts.
  rewrite nth_error_app2 by lia. rewrite Nat.sub_diag. cbn [nth_error].
  replace (Z.to_nat (Z.of_nat (List.length pre) + 1)) with (List.length pre + 1)%nat by lia.
  rewrite skipn_past. reflexivity.
Qed.

(** C1. For a chain parsed without a non-negative capture index, the
    base element is the last part whose engine is neither a filter
    engine (has-text, has-not-text, has, has-not, visible, nth) nor the
    ignored describe engine: the base index is its position, the element
    is mapped from it and the filters from the parts after it.  Every
    part of a parsed chain carries an engine name (the scan passes over
    a part without one).  In particular, for
    [css=.btn >> internal:has-text="Go" >> nth=2] the element is the css
    part, [filters.hasText] is the text matcher of ["Go"] and [nth] is
    2. *)
Theorem base_is_last_part_not_filter_nor_ignored :
  (forall fuel raw parsed pre p post,
      raw <> "" ->
      parseSelector raw = Some parsed ->
      (forall c, capture parsed = Some c -> c < 0) ->
      parts parsed = pre ++ p :: post ->
      partName p <> "" ->
      setHas FILTER_ENGINES (partName p) = false ->
      setHas IGNORE_ENGINES (partName p) = false ->
      Forall (fun q => passedOver q = true) post ->
      resolveBaseIndex parsed = Z.of_nat (List.length pre) /\
      elementFromParsedSelector (S fuel) (Some raw) = mappedFrom fuel parsed p post)
  /\
  (forall fuel,
      parseSelector Examples.goRaw = Some Examples.goChain ->
      elementFromParsedSelector (S fuel) (Some Examples.goRaw) =
        Ret (VObj [("element", VObj [("css", VStr ".btn")]);
                   ("filters",
                    VObj [("hasText", parseTextSpec (Some (Examples.quoted "Go")))]);
                   ("nth", VNum 2)])).
Proof.
  assert (General : forall fuel raw parsed pre p post,
      raw <> "" ->
      parseSelector raw = Some parsed ->
      (forall c, capture parsed = Some c -> c < 0) ->
      parts parsed = pre ++ p :: post ->
      partName p <> "" ->
      setHas FILTER_ENGINES (partName p) = false ->
      setHas IGNORE_ENGINES (partName p) = false ->
      Forall (fun q => passedOver q = true) post ->
      resolveBaseIndex parsed = Z.of_nat (List.length pre) /\
      elementFromParsedSelector (S fuel) (Some raw) = mappedFrom fuel parsed p post).
  { intros fuel raw parsed pre p post Hraw Hparse Hcap Hparts Hname Hf Hi Hpost.
    assert (Hbase := resolveBaseIndex_last parsed pre p post Hcap Hparts Hname Hf Hi Hpost).
    split; [exact Hbase | ].
    now apply elementFromParsedSelector_at with (pre := pre). }
  split; [exact General | ].
  intros fuel Hparse.
  destruct (General fuel Examples.goRaw Examples.goChain []
              (mkPart "css" BodyCss ".btn")
              [mkPart "internal:has-text" (BodyString (Examples.quoted "Go"))
                 (Examples.quoted "Go");
               mkPart "nth" (BodyString "2") "2"]) as [_ ->];
    try reflexivity; try discriminate; try assumption.
  repeat constructor.
Qed.

End MapperProperties.

Lemma base_is_last_part_not_filter_nor_ignored_witness :
  Revised.resolveBaseIndex Examples.goChain = 0 /\
  Revised.elementFromParsedSelector (host := Examples.host) 1 (Some Examples.goRaw) =
    Ret (VObj [("element", VObj [("css", VStr ".btn")]);
               ("filters", VObj [("hasText", VStr "Go")]);
               ("nth", VNum 2)]).
Proof.
  destruct (@base_is_last_part_not_filter_nor_ignored Examples.host)
    as [General Example].
  split.
  - apply (General 0%nat Examples.goRaw Examples.goChain []
             (mkPart "css" BodyCss ".btn")
             [mkPart "internal:has-text" (BodyString (Examples.quoted "Go"))
                (Examples.quoted "Go");
              mkPart "nth" (BodyString "2") "2"]).
    + discriminate.
    + reflexivity.
    + discriminate.
    + reflexivity.
    + discriminate.
    + reflexivity.
    + reflexivity.
    + repeat constructor.
  - rewrite (Example 0%nat eq_refl). reflexivity.
Defined.

Section MapperTotality.

Context {host : Host}.

Import Revised.

(** An absent, empty or unparseable raw selector maps to [undefined]. *)
Lemma elementFromParsedSelector_unparseable fuel raw :
  match raw with
  | Some r => r = "" \/ parseSelector r = None
  | None => True
  end ->
  elementFromParsedSelector (S fuel) raw = Ret VUndef.
Proof.
  cbn [elementFromParsedSelector]. unfold elementFromParsedSelector_body.
  destruct raw as [[ | c r] | ]; try reflexivity.
  intros [H | H]; [discriminate | now rewrite H].
Qed.

(** The caller then substitutes the fallback element: the raw string
    when there is one, the marker otherwise. *)
Lemma buildStructuredSelector_fallback fuel a raw :
  selector (action a) = Some raw ->
  match raw with
  | Some r => r = "" \/ parseSelector r = None
  | None => True
  end ->
  exists s,
    buildStructuredSelector (S fuel) a = Ret s /\
    getKey "element" s =
      VObj [("css", VStr match raw with Some r => r | None => "UNKNOWN" end)].
Proof.
  intros Hsel Hraw. unfold buildStructuredSelector. rewrite Hsel.
  rewrite (elementFromParsedSelector_unparseable fuel raw Hraw).
  cbn [bind prop nullish_or isNullish truthy].
  eexists. split; [reflexivity | ].
  destruct (String.eqb (pageAlias (frame a)) "");
    destruct (truthy (framePathToObjects frameRefFromString (framePath (frame a))));
    destruct raw; reflexivity.
Qed.

End MapperTotality.

(** C2. Building the structured selector can raise: for the raw selector
    [internal:testid=foo], which parses to one [internal:testid] part whose
    attribute body has no attribute, the mapper destructures the missing
    first attribute and throws, and so do [buildStructuredSelector] and
    [generateAction] on a fill of that selector.  (The [internal:attr]
    case guards the same access.) *)
Theorem testid_without_attribute_throws :
  Revised.elementFromParsedSelector (host := Examples.host) 1 (Some Examples.testidRaw)
    = Throw "TypeError: cannot destructure property 'value' of undefined" /\
  Revised.buildStructuredSelector (host := Examples.host) 1
      (Examples.fill Examples.testidRaw "x")
    = Throw "TypeError: cannot destructure property 'value' of undefined" /\
  Revised.generateAction (host := Examples.host) 1 Revised.initial
      (Examples.fill Examples.testidRaw "x")
    = Throw "TypeError: cannot destructure property 'value' of undefined".
Proof. repeat split; vm_compute; reflexivity. Qed.

Section RoleNames.

Context {host : Host}.

Import Revised.

(** C3 (amended). For a role selector with a single [name] attribute the
    mapped element holds the role and the name matcher: a regex value
    gives the regex matcher of its source and flags, a case-sensitive
    value the exact matcher of its text, any other value that is neither
    [null] nor [undefined] its text as a plain matcher, and [null] or
    [undefined] no name at all.  For [button[name="Submit"i]] the
    element is the role [button] with the plain matcher [Submit]. *)
Theorem role_name_matcher :
  (forall fuel raw body src role attr,
      raw <> "" ->
      parseSelector raw =
        Some (mkParsed [mkPart "internal:role" (BodyString body) src] None) ->
      parseAttributeSelector body true =
        Some {| selName := role; attributes := [attr] |} ->
      attrName attr = "name" ->
      elementFromParsedSelector (S fuel) (Some raw) =
        Ret (VObj [("element", VObj (("role", VStr role) :: nameEntry attr));
                   ("filters", VUndef); ("nth", VUndef)]))
  /\
  (forall attr,
      match attrValue attr with
      | VRegExp source flags => nameEntry attr = [("name", regexText source flags)]
      | VUndef | VNull => nameEntry attr = []
      | v =>
          nameEntry attr =
            [("name", if attrCaseSensitive attr then exactText (toString v)
                      else VStr (toString v))]
      end)
  /\
  nameEntry Examples.submitName = [("name", VStr "Submit")].
Proof.
  split; [ | split ].
  - intros fuel raw body src role attr Hraw Hparse Hattr Hname.
    rewrite (elementFromParsedSelector_at fuel raw _ [] _ [] Hraw Hparse eq_refl eq_refl).
    unfold mappedFrom, elementOfBasePart, parseAttributeSelectorOfBody.
    cbn. rewrite Hattr. cbn.
    unfold roleAttribute, nameEntry. rewrite Hname. cbn.
    destruct (roleNameMatcher attr); reflexivity.
  - intros attr. unfold nameEntry, roleNameMatcher.
    destruct (attrValue attr); destruct (attrCaseSensitive attr); reflexivity.
  - reflexivity.
Qed.

End RoleNames.

Lemma role_name_matcher_witness :
  Revised.elementFromParsedSelector (host := Examples.host) 1 (Some Examples.submitRaw) =
    Ret (VObj [("element", VObj [("role", VStr "button"); ("name", VStr "Submit")]);
               ("filters", VUndef); ("nth", VUndef)]).
Proof.
  destruct (@role_name_matcher Examples.host) as [Mapped [_ Submit]].
  rewrite (Mapped 0%nat Examples.submitRaw Examples.submitBody Examples.submitBody
             "button" Examples.submitName).
  - rewrite Submit. reflexivity.
  - discriminate.
  - reflexivity.
  - reflexivity.
  - reflexivity.
Defined.

(** C3 as stated fails: the name of [button[name="Submit"i]] is mapped to
    the plain string, not to a pattern with the case-insensitive flag, and
    a name attribute without a value gives no matcher. *)
Lemma role_name_is_not_a_pattern :
  Revised.elementFromParsedSelector (host := Examples.host) 1 (Some Examples.submitRaw) =
    Ret (VObj [("element", VObj [("role", VStr "button"); ("name", VStr "Submit")]);
               ("filters", VUndef); ("nth", VUndef)]) /\
  (forall pattern flags, VStr "Submit" <> regexText pattern flags) /\
  Revised.roleNameMatcher
    {| attrName := "name"; attrOp := "<truthy>"; attrValue := VNull;
       attrCaseSensitive := false |} = None.
Proof.
  split; [vm_compute; reflexivity | split; [ | reflexivity ]].
  intros pattern flags. discriminate.
Qed.

Section TextSpec.

Context {host : Host}.

Lemma escapeRegex_not_anchored decoded : isAnchored (escapeRegex decoded) = false.
Proof.
  unfold isAnchored. destruct decoded as [ | c rest ]; [reflexivity | ].
  cbn [escapeRegex]. destruct (isRegexSpecial c) eqn:E.
  - reflexivity.
  - unfold Js.startsWith. cbn [String.prefix].
    destruct (Ascii.ascii_dec "^" c) as [<- | Hne]; [discriminate E | reflexivity].
Qed.

End TextSpec.

(** C4. The case-insensitive suffix form is not compiled to an anchored
    pattern: for the input ["Go"i] the matcher is the pattern [Go] with
    the flag [i], and for every decoded text the escaped pattern is not of
    the form [^text$] that the comment on the rule announces. *)
Theorem suffix_i_pattern_is_not_anchored :
  parseTextSpec (host := Examples.host) (Some (Examples.quoted "Go" ++ "i")%string)
    = regexText "Go" "i" /\
  isAnchored "Go" = false /\
  (forall decoded, isAnchored (escapeRegex decoded) = false).
Proof.
  split; [vm_compute; reflexivity | split; [reflexivity | ]].
  exact escapeRegex_not_anchored.
Qed.

Section VisibleFilter.

Context {host : Host}.

Import Revised.

Lemma filterParts_app rec acc l1 l2 :
  filterParts rec acc (l1 ++ l2) =
    (acc1 <- filterParts rec acc l1 ;; filterParts rec acc1 l2).
Proof.
  revert acc. induction l1 as [ | q l1 IH ]; intros acc; cbn [app filterParts bind].
  - reflexivity.
  - destruct (filterPart rec acc q) as [acc' | e | ]; cbn [bind]; auto.
Qed.

Lemma prop_setFilter_other filters k v k' :
  k <> k' -> prop k' (setFilter filters k v) = prop k' filters.
Proof.
  intros Hne. unfold setFilter.
  assert (Hget : forall o, getKey k' (setKey k v o) = getKey k' o).
  { induction o as [ | [k0 v0] o IHo ]; cbn [setKey getKey].
    - destruct (String.eqb_spec k' k); [congruence | reflexivity].
    - destruct (String.eqb_spec k k0) as [-> | Hk]; cbn [getKey].
      + destruct (String.eqb_spec k' k0); [congruence | reflexivity].
      + now rewrite IHo. }
  destruct filters; cbn [prop getKey];
    try (destruct (String.eqb_spec k' k); [congruence | reflexivity]).
  apply Hget.
Qed.

Lemma prop_setFilter_same filters k v : prop k (setFilter filters k v) = v.
Proof.
  unfold setFilter.
  assert (Hget : forall o, getKey k (setKey k v o) = v).
  { induction o as [ | [k0 v0] o IHo ]; cbn [setKey getKey].
    - now rewrite String.eqb_refl.
    - destruct (String.eqb_spec k k0) as [-> | Hk]; cbn [getKey].
      + now rewrite String.eqb_refl.
      + destruct (String.eqb_spec k k0); [contradiction | exact IHo]. }
  destruct filters; cbn [prop getKey]; rewrite ?String.eqb_refl; auto.
Qed.

Lemma filterPart_visible rec filters nth part :
  partName part = "visible" ->
  filterPart rec (filters, nth) part =
    Ret (setFilter filters "visible" (VBool (visibleOfBody (partBody part))), nth).
Proof. intros Hname. unfold filterPart. rewrite Hname. reflexivity. Qed.

Lemma filterPart_keeps_visible rec acc q acc' :
  partName q <> "visible" ->
  filterPart rec acc q = Ret acc' ->
  prop "visible" (fst acc') = prop "visible" (fst acc).
Proof.
  intros Hname. destruct acc as [filters nth]. unfold filterPart.
  repeat match goal with
  | |- context [String.eqb (partName q) ?s] =>
      destruct (String.eqb_spec (partName q) s); cbv iota
  end; try congruence.
  - destruct (parseTextSpecOfBody (partBody q)); cbn [bind]; try discriminate.
    intros [= <-]. cbn [fst]. now apply prop_setFilter_other.
  - destruct (parseTextSpecOfBody (partBody q)); cbn [bind]; try discriminate.
    intros [= <-]. cbn [fst]. now apply prop_setFilter_other.
  - unfold nestedFilter. destruct (bodyParsed (partBody q)); cbn [bind].
    + destruct (rec (Some (stringifySelector p))) as [nested | | ]; cbn [bind];
        try discriminate.
      destruct (truthy nested); cbn [bind]; intros [= <-]; cbn [fst];
        [now apply prop_setFilter_other | reflexivity].
    + intros [= <-]. reflexivity.
  - unfold nestedFilter. destruct (bodyParsed (partBody q)); cbn [bind].
    + destruct (rec (Some (stringifySelector p))) as [nested | | ]; cbn [bind];
        try discriminate.
      destruct (truthy nested); cbn [bind]; intros [= <-]; cbn [fst];
        [now apply prop_setFilter_other | reflexivity].
    + intros [= <-]. reflexivity.
  - destruct (Js.parseInt10 (bodyText (partBody q))); intros [= <-]; reflexivity.
Qed.

Lemma filterParts_keep_visible rec post : forall acc acc',
  Forall (fun q => partName q <> "visible") post ->
  filterParts rec acc post = Ret acc' ->
  prop "visible" (fst acc') = prop "visible" (fst acc).
Proof.
  induction post as [ | q post IH ]; intros acc acc' Hpost; cbn [filterParts].
  - intros [= <-]. reflexivity.
  - inversion Hpost as [ | ? ? Hq Hrest ]; subst.
    destruct (filterPart rec acc q) as [acc1 | e | ] eqn:E; cbn [bind];
      try discriminate.
    intros Hrun. rewrite (IH acc1 acc' Hrest Hrun).
    exact (filterPart_keeps_visible rec acc q acc1 Hq E).
Qed.

(** C5 (amended). A [visible] part after the base element sets
    [filters.visible] to a boolean that is [false] exactly when the text
    of the body, trimmed and lowercased, is [false], and [true] for every
    other body; with several [visible] parts the last one decides, and no
    other part changes the value.  For a css base followed by one
    [visible] part the mapper returns the css element with that filter. *)
Theorem visible_filter_is_false_only_for_false :
  (forall b, visibleOfBody b = false <->
             Js.toLowerCase (Js.trim (bodyText b)) = "false")
  /\
  (forall rec filters nth part,
      partName part = "visible" ->
      exists filters',
        filterPart rec (filters, nth) part = Ret (filters', nth) /\
        prop "visible" filters' = VBool (visibleOfBody (partBody part)))
  /\
  (forall rec acc post1 part post2 acc',
      partName part = "visible" ->
      Forall (fun q => partName q <> "visible") post2 ->
      filterParts rec acc (post1 ++ part :: post2) = Ret acc' ->
      prop "visible" (fst acc') = VBool (visibleOfBody (partBody part)))
  /\
  (forall fuel raw src b vsrc,
      raw <> "" ->
      parseSelector raw =
        Some (mkParsed [mkPart "css" BodyCss src; mkPart "visible" b vsrc] None) ->
      elementFromParsedSelector (S fuel) (Some raw) =
        Ret (VObj [("element", VObj [("css", VStr src)]);
                   ("filters", VObj [("visible", VBool (visibleOfBody b))]);
                   ("nth", VUndef)])).
Proof.
  split; [ | split; [ | split ] ].
  - intros b. unfold visibleOfBody.
    destruct (String.eqb_spec (Js.toLowerCase (Js.trim (bodyText b))) "false");
      cbn [negb]; split; congruence.
  - intros rec filters nth part Hname. eexists. split.
    + now apply filterPart_visible.
    + apply prop_setFilter_same.
  - intros rec acc post1 part post2 acc' Hname Hpost2.
    rewrite filterParts_app. cbn [filterParts].
    destruct (filterParts rec acc post1) as [[filters nth] | e | ]; cbn [bind];
      try discriminate.
    rewrite (filterPart_visible rec filters nth part Hname). cbn [bind].
    intros Hrun. rewrite (filterParts_keep_visible rec post2 _ acc' Hpost2 Hrun).
    cbn [fst]. apply prop_setFilter_same.
  - intros fuel raw src b vsrc Hraw Hparse.
    rewrite (elementFromParsedSelector_at fuel raw _ [] _ [mkPart "visible" b vsrc]
               Hraw Hparse eq_refl eq_refl).
    reflexivity.
Qed.

End VisibleFilter.

Lemma visible_filter_is_false_only_for_false_witness :
  Revised.elementFromParsedSelector (host := Examples.host) 1
      (Some Examples.visibleUpperRaw) =
    Ret (VObj [("element", VObj [("css", VStr ".btn")]);
               ("filters", VObj [("visible", VBool false)]);
               ("nth", VUndef)]) /\
  prop "visible"
    (fst (VObj [("visible", VBool false)], VUndef)) = VBool false.
Proof.
  destruct (@visible_filter_is_false_only_for_false Examples.host)
    as [_ [Step [Last Mapped]]].
  split.
  - rewrite (Mapped 0%nat Examples.visibleUpperRaw ".btn" (BodyString "FALSE") "FALSE").
    + reflexivity.
    + discriminate.
    + reflexivity.
  - destruct (Step (fun _ => Ret VUndef) VUndef VUndef
                (mkPart "visible" (BodyString "FALSE") "FALSE") eq_refl)
      as [filters' [Hrun Hvisible]].
    exact (Last (fun _ => Ret VUndef) (VUndef, VUndef) []
             (mkPart "visible" (BodyString "FALSE") "FALSE") []
             (VObj [("visible", VBool false)], VUndef)
             eq_refl (Forall_nil _) eq_refl).
Defined.

(** C5 as stated fails: the body [FALSE] is not literally [false], yet
    the filter is [false]. *)
Lemma visible_false_for_other_bodies :
  Revised.elementFromParsedSelector (host := Examples.host) 1
      (Some Examples.visibleUpperRaw) =
    Ret (VObj [("element", VObj [("css", VStr ".btn")]);
               ("filters", VObj [("visible", VBool false)]);
               ("nth", VUndef)]) /\
  BodyString "FALSE" <> BodyString "false" /\
  Revised.visibleOfBody (BodyString " false ") = false.
Proof. repeat split; try reflexivity. discriminate. Qed.

(* ===================================================================== *)
(** ** The emitter of the revised generator                               *)
(* ===================================================================== *)

Section EmitterProperties.

Context {host : Host}.

Import Revised.

Lemma getKey_setKey_other k v k' o :
  k <> k' -> getKey k' (setKey k v o) = getKey k' o.
Proof.
  intros Hne. induction o as [ | [k0 v0] o IHo ]; cbn [setKey getKey].
  - destruct (String.eqb_spec k' k); [congruence | reflexivity].
  - destruct (String.eqb_spec k k0) as [-> | Hk]; cbn [getKey].
    + destruct (String.eqb_spec k' k0); [congruence | reflexivity].
    + now rewrite IHo.
Qed.


(** A navigation has no selector to map: its structured selector is the
    frame selector, whatever the budget. *)
Lemma buildStructuredSelector_navigation fuel a :
  isNavigation a = true ->
  buildStructuredSelector fuel a = Ret (frameSelector a).
Proof.
  unfold isNavigation, isActionWithSelector, buildStructuredSelector, frameSelector.
  destruct (selector (action a)); [ | reflexivity ].
  rewrite andb_false_r. discriminate.
Qed.

Lemma stepOfAction_navigation g a sel :
  isNavigation a = true ->
  stepOfAction g a sel = Ret (navigateStep g (action a)).
Proof.
  unfold isNavigation, stepOfAction. intros H.
  apply andb_true_iff in H. destruct H as [H _]. now rewrite H.
Qed.







(** What a retained navigation returns. *)
Lemma generateActionOut_retained fuel g a u :
  isRetainedNavigation a = true ->
  url (action a) = Some u ->
  let base := baseAfter g u in
  let g1 := if isSet (metaBaseURL (_meta g)) then g else withBaseURL g base in
  let entry :=
    entryOf g a (frameSelector a)
      [("action", VStr "navigate"); ("url", VStr (outputUrl base u))] in
  generateActionOut fuel g a =
    Ret (withHeaderEmitted g1 true,
         (if _headerEmitted g then [] else headerLines g1)
         ++ [formatAsYamlListItem entry YAML_DUMP_OPTIONS]).
Proof.
  unfold isRetainedNavigation. intros H Hu.
  apply andb_true_iff in H. destruct H as [Hnav Hkeep]. rewrite Hu in Hkeep.
  apply negb_true_iff in Hkeep.
  cbv zeta. unfold generateActionOut.
  rewrite (buildStructuredSelector_navigation fuel a Hnav). cbn [bind].
  rewrite (stepOfAction_navigation g a _ Hnav). cbn [bind].
  unfold navigateStep, baseAfter. rewrite Hu, Hkeep.
  destruct (isSet (metaBaseURL (_meta g))) eqn:Hset.
  - unfold _emitHeaderOnce. destruct (_headerEmitted g) eqn:Hh.
    + destruct g as [h s m d]; cbn in *; subst; reflexivity.
    + reflexivity.
  - unfold _emitHeaderOnce.
    cbn [withBaseURL _headerEmitted _meta metaBaseURL].
    destruct (_headerEmitted g) eqn:Hh.
    + unfold withHeaderEmitted, withBaseURL. cbn. rewrite Hh. reflexivity.
    + reflexivity.
Qed.


End EmitterProperties.


(** C7. The accessible name of a role element is tested as if it were a
    string: when it is an exact or a regex matcher, as for
    [internal:role=textbox[name="Password"s]], the recorded text is
    written unmasked, although the same matcher under [label] (or
    [placeholder], [text]) is masked. *)
Theorem role_name_matcher_is_not_masked :
  Revised.maybeMaskValue
      (VObj [("role", VStr "textbox"); ("name", exactText "Password")])
      (Some "hunter2") = Ret (Some "hunter2") /\
  Revised.maybeMaskValue
      (VObj [("role", VStr "textbox"); ("name", regexText "Password" "i")])
      (Some "hunter2") = Ret (Some "hunter2") /\
  Revised.maybeMaskValue (VObj [("label", exactText "Password")]) (Some "hunter2")
    = Ret (Some ENV_PASSWORD) /\
  Revised.generateActionOut (host := Examples.host) 1 Revised.initial
      (Examples.fill Examples.passwordRaw "hunter2") =
    Ret (Revised.initial,
         [formatAsYamlListItem (host := Examples.host)
            (VObj [("action", VStr "fill"); ("text", VStr "hunter2");
                   ("selector",
                    VObj [("page", VStr "page");
                          ("element",
                           VObj [("role", VStr "textbox");
                                 ("name", exactText "Password")])])])
            Revised.YAML_DUMP_OPTIONS]) /\
  Revised.generateActionOut (host := Examples.host) 1 Revised.initial
      (Examples.fill Examples.labelRaw "hunter2") =
    Ret (Revised.initial,
         [formatAsYamlListItem (host := Examples.host)
            (VObj [("action", VStr "fill"); ("text", VStr ENV_PASSWORD);
                   ("selector",
                    VObj [("page", VStr "page");
                          ("element", VObj [("label", exactText "Password")])])])
            Revised.YAML_DUMP_OPTIONS]).
Proof. repeat split; vm_compute; reflexivity. Qed.

(** A test id that looks like a secret masks the text, whatever the other
    fields of the element. *)
Lemma testId_is_masked el t :
  hasKey "testId" el = true ->
  Js.testSecret (toString (getKey "testId" el)) = true ->
  Revised.maybeMaskValue (VObj el) (Some t) = Ret (Some ENV_PASSWORD).
Proof.
  intros Hkey Htest. unfold Revised.maybeMaskValue, Revised.looksSecret.
  cbn [truthy negb]. now rewrite Hkey, Htest.
Qed.

(** A fill of the test id [login-password] is masked. *)
Lemma fill_testid_is_masked :
  Revised.generateActionOut (host := Examples.host) 1 Revised.initial
      (Examples.fill Examples.loginRaw "hunter2") =
    Ret (Revised.initial,
         [formatAsYamlListItem (host := Examples.host)
            (VObj [("action", VStr "fill"); ("text", VStr ENV_PASSWORD);
                   ("selector",
                    VObj [("page", VStr "page");
                          ("element", VObj [("testId", VStr "login-password")])])])
            Revised.YAML_DUMP_OPTIONS]).
Proof. vm_compute. reflexivity. Qed.

Section HeaderOnce.

Context {host : Host}.

Import Revised.

Lemma stepOfAction_other g a sel b :
  (String.eqb (name (action a)) "openPage" || String.eqb (name (action a)) "navigate")
    = false ->
  stepOfAction g a sel = Ret b ->
  exists step, b = Built g [] step.
Proof.
  intros Hnav. unfold stepOfAction. rewrite Hnav.
  repeat match goal with
  | |- context [if String.eqb (name (action a)) ?s then _ else _] =>
      destruct (String.eqb (name (action a)) s)
  end;
  try (intros [= <-]; eexists; reflexivity).
  - destruct (maybeMaskValue (getKey "element" sel) (text (action a)));
      cbn [bind]; try discriminate.
    intros [= <-]; eexists; reflexivity.
  - destruct (options (action a)); try discriminate.
    intros [= <-]; eexists; reflexivity.
Qed.

(** The array [out] of a call is empty, one step entry, or the header
    block followed by one step entry; the header block is written only
    while the flag is down, and raises it. *)
Lemma generateActionOut_shape fuel g a g' out :
  generateActionOut fuel g a = Ret (g', out) ->
  (out = [] /\ g' = g) \/
  (exists item, out = [item] /\ _headerEmitted g' = _headerEmitted g) \/
  (exists g1 item,
      out = headerLines g1 ++ [item] /\
      _headerEmitted g = false /\ _headerEmitted g' = true).
Proof.
  unfold generateActionOut.
  destruct (buildStructuredSelector fuel a) as [sel | e | ]; cbn [bind];
    try discriminate.
  destruct (stepOfAction g a sel) as [b | e | ] eqn:Hstep; cbn [bind];
    try discriminate.
  destruct (String.eqb (name (action a)) "openPage"
            || String.eqb (name (action a)) "navigate") eqn:Hnav.
  - unfold stepOfAction in Hstep. rewrite Hnav in Hstep.
    injection Hstep as <-. unfold navigateStep.
    destruct (isTrivialUrl (url (action a))).
    + intros [= <- <-]. now left.
    + unfold _emitHeaderOnce.
      set (g1 := if isSet (metaBaseURL (_meta g)) then g
                 else withBaseURL g
                        (Some (inferBaseURL
                                 match url (action a) with Some u => u | None => "" end))).
      assert (Hflag : _headerEmitted g1 = _headerEmitted g)
        by (unfold g1; destruct (isSet (metaBaseURL (_meta g))); reflexivity).
      destruct (_headerEmitted g1) eqn:Hh; intros [= <- <-].
      * right; left. eexists. split; [reflexivity | congruence].
      * right; right. exists g1. eexists. split; [reflexivity | ].
        split; [congruence | reflexivity].
  - destruct (stepOfAction_other g a sel b Hnav Hstep) as [step ->].
    intros [= <- <-]. right; left. eexists; split; reflexivity.
Qed.

Lemma hasHeader_block g1 item : hasHeader (headerLines g1 ++ [item]) = true.
Proof. reflexivity. Qed.

Lemma run_after_header fuel l : forall g g' outs,
  _headerEmitted g = true ->
  run fuel g l = Ret (g', outs) ->
  countHeaders outs = 0%nat /\ _headerEmitted g' = true.
Proof.
  induction l as [ | a l IH ]; intros g g' outs Hg; cbn [run].
  - intros [= <- <-]. now split.
  - destruct (generateActionOut fuel g a) as [[g1 out] | e | ] eqn:Hcall;
      cbn [bind fst snd]; try discriminate.
    destruct (run fuel g1 l) as [[g2 outs'] | e | ] eqn:Hrun;
      cbn [bind fst snd]; try discriminate.
    intros [= <- <-].
    destruct (generateActionOut_shape fuel g a g1 out Hcall)
      as [[-> ->] | [[item [-> Hflag]] | [g0 [item [_ [Hdown _]]]]]].
    + exact (IH g g2 outs' Hg Hrun).
    + rewrite Hg in Hflag. exact (IH g1 g2 outs' Hflag Hrun).
    + congruence.
Qed.

Lemma run_headers_at_most_once fuel l : forall g g' outs,
  run fuel g l = Ret (g', outs) -> (countHeaders outs <= 1)%nat.
Proof.
  induction l as [ | a l IH ]; intros g g' outs; cbn [run].
  - intros [= <- <-]. cbn. lia.
  - destruct (generateActionOut fuel g a) as [[g1 out] | e | ] eqn:Hcall;
      cbn [bind fst snd]; try discriminate.
    destruct (run fuel g1 l) as [[g2 outs'] | e | ] eqn:Hrun;
      cbn [bind fst snd]; try discriminate.
    intros [= <- <-].
    destruct (generateActionOut_shape fuel g a g1 out Hcall)
      as [[-> ->] | [[item [-> Hflag]] | [g0 [item [-> [Hdown Hup]]]]]].
    + exact (IH g g2 outs' Hrun).
    + exact (IH g1 g2 outs' Hrun).
    + destruct (run_after_header fuel l g1 g2 outs' Hup Hrun) as [Hzero _].
      unfold countHeaders in *. cbn [filter]. rewrite hasHeader_block.
      cbn [List.length]. lia.
Qed.

Lemma generateActionOut_trivial fuel g a :
  isTrivialNavigation a = true ->
  generateActionOut fuel g a = Ret (g, []).
Proof.
  unfold isTrivialNavigation. intros H.
  apply andb_true_iff in H. destruct H as [Hnav Htrivial].
  unfold generateActionOut.
  rewrite (buildStructuredSelector_navigation fuel a Hnav). cbn [bind].
  rewrite (stepOfAction_navigation g a _ Hnav). cbn [bind].
  unfold navigateStep. now rewrite Htrivial.
Qed.

Lemma run_trivial fuel l : forall g,
  Forall (fun a => isTrivialNavigation a = true) l ->
  run fuel g l = Ret (g, map (fun _ => []) l).
Proof.
  induction l as [ | a l IH ]; intros g Hl; cbn [run map]; [reflexivity | ].
  inversion Hl as [ | ? ? Ha Hrest ]; subst.
  rewrite (generateActionOut_trivial fuel g a Ha). cbn [bind fst snd].
  rewrite (IH g Hrest). reflexivity.
Qed.

Lemma run_app_trivial fuel pre : forall g rest,
  Forall (fun a => isTrivialNavigation a = true) pre ->
  run fuel g (pre ++ rest) =
    (rs <- run fuel g rest ;; Ret (fst rs, map (fun _ => []) pre ++ snd rs)).
Proof.
  induction pre as [ | a pre IH ]; intros g rest Hpre; cbn [app run map].
  - destruct (run fuel g rest) as [[g' outs] | e | ]; reflexivity.
  - inversion Hpre as [ | ? ? Ha Hrest ]; subst.
    rewrite (generateActionOut_trivial fuel g a Ha). cbn [bind fst snd].
    rewrite (IH g rest Hrest).
    destruct (run fuel g rest) as [[g' outs] | e | ]; reflexivity.
Qed.

(** The part of the header invariant that holds.  On one instance the
    header block is written at most once, and only by a retained
    navigation, immediately before its step entry.  A navigation to a
    trivial URL returns an empty fragment and changes nothing.  So a
    sequence of navigations of which exactly one is retained, on an
    instance whose header is not written yet, yields exactly one header
    block followed by exactly one step entry. *)
Theorem header_written_once_by_first_retained_navigation :
  (forall fuel g l g' outs,
      run fuel g l = Ret (g', outs) -> (countHeaders outs <= 1)%nat)
  /\
  (forall fuel g a,
      isTrivialNavigation a = true ->
      generateActionOut fuel g a = Ret (g, []) /\
      generateAction fuel g a = Ret (g, ""))
  /\
  (forall fuel g a g' out,
      (String.eqb (name (action a)) "openPage"
       || String.eqb (name (action a)) "navigate") = false ->
      generateActionOut fuel g a = Ret (g', out) ->
      g' = g /\ exists item, out = [item])
  /\
  (forall fuel g pre a post u,
      _headerEmitted g = false ->
      Forall (fun x => isTrivialNavigation x = true) pre ->
      Forall (fun x => isTrivialNavigation x = true) post ->
      isRetainedNavigation a = true ->
      url (action a) = Some u ->
      exists g' g1 item,
        run fuel g (pre ++ a :: post) =
          Ret (g', map (fun _ => []) pre
                   ++ (headerLines g1 ++ [item]) :: map (fun _ => []) post) /\
        concat (map (fun _ : ActionInContext => @nil string) pre
                ++ (headerLines g1 ++ [item])
                   :: map (fun _ : ActionInContext => @nil string) post)
          = headerLines g1 ++ [item] /\
        metaBaseURL (_meta g1) = baseAfter g u /\
        _headerEmitted g' = true).
Proof.
  split; [ | split; [ | split ] ].
  - intros fuel g l g' outs. apply run_headers_at_most_once.
  - intros fuel g a Ha. split.
    + now apply generateActionOut_trivial.
    + unfold generateAction. now rewrite (generateActionOut_trivial fuel g a Ha).
  - intros fuel g a g' out Hnav. unfold generateActionOut.
    destruct (buildStructuredSelector fuel a) as [sel | e | ]; cbn [bind];
      try discriminate.
    destruct (stepOfAction g a sel) as [b | e | ] eqn:Hstep; cbn [bind];
      try discriminate.
    destruct (stepOfAction_other g a sel b Hnav Hstep) as [step ->].
    intros [= <- <-]. split; [reflexivity | eexists; reflexivity].
  - intros fuel g pre a post u Hdown Hpre Hpost Ha Hu.
    assert (Hcall := generateActionOut_retained fuel g a u Ha Hu). cbv zeta in Hcall.
    rewrite Hdown in Hcall.
    eexists _, _, _. split; [ | split; [ | split ] ].
    + rewrite (run_app_trivial fuel pre g (a :: post) Hpre). cbn [run].
      rewrite Hcall. cbn [bind fst snd].
      rewrite (run_trivial fuel post _ Hpost). cbn [bind fst snd]. reflexivity.
    + rewrite concat_app. cbn [concat].
      assert (Hnil : forall l : list ActionInContext,
                 concat (map (fun _ => @nil string) l) = []).
      { induction l as [ | x l IHl ]; [reflexivity | exact IHl]. }
      rewrite !Hnil. cbn [app]. now rewrite app_nil_r.
    + unfold baseAfter. destruct (isSet (metaBaseURL (_meta g))) eqn:Hset;
        [reflexivity | reflexivity].
    + reflexivity.
Qed.

End HeaderOnce.

Lemma header_written_once_by_first_retained_navigation_witness :
  exists g' g1 item,
    Revised.run (host := Examples.host) 1 Revised.initial
        [Examples.navigate "about:blank";
         Examples.navigate "https://example.com/a/b?x=1";
         Examples.navigate "about:blank"] =
      Ret (g', [[]; Revised.headerLines (host := Examples.host) g1 ++ [item]; []]) /\
    Revised._headerEmitted g' = true.
Proof.
  destruct (@header_written_once_by_first_retained_navigation Examples.host)
    as [Once [Trivial [Other Sequence]]].
  assert (Hblank : Forall (fun x => Revised.isTrivialNavigation x = true)
                     [Examples.navigate "about:blank"])
    by (repeat constructor).
  destruct (Sequence 1%nat Revised.initial
              [Examples.navigate "about:blank"]
              (Examples.navigate "https://example.com/a/b?x=1")
              [Examples.navigate "about:blank"]
              "https://example.com/a/b?x=1"
              eq_refl Hblank Hblank eq_refl eq_refl)
    as (g' & g1 & item & Hrun & _ & _ & Hup).
  exists g', g1, item. split; [exact Hrun | exact Hup].
Defined.

(** C8. The header is not written before the first retained step when
    that step is not a navigation.  The header block is pushed in the
    [navigate] / [openPage] case only: whatever the state of the
    instance, the fragment of any other action is its list item alone and
    the header flag stays as it was.  So, after [generateHeader] with a
    base URL, a sequence whose one retained action is a click yields the
    click item and no header block; and when a navigation follows the
    click, the header block, with its [steps:] key, is written after the
    first list item. *)
Theorem first_retained_step_is_written_without_header :
  (forall (host : Host) fuel g a g' out,
      (String.eqb (name (action a)) "openPage"
       || String.eqb (name (action a)) "navigate") = false ->
      Revised.generateActionOut fuel g a = Ret (g', out) ->
      g' = g /\ Revised.hasHeader out = false /\ exists item, out = [item])
  /\
  (r <- Revised.generateHeader (host := Examples.host) Revised.initial
          (mkOptions (Some "https://example.com")) ;;
   Revised.run (host := Examples.host) 1 (fst r)
     [Examples.navigate "about:blank"; clickOn Examples.submitRaw]) =
    Ret (Examples.configured, [[]; [submitClickItem]])
  /\
  countHeaders [[]; [submitClickItem]] = 0%nat
  /\
  (r <- Revised.generateHeader (host := Examples.host) Revised.initial
          (mkOptions (Some "https://example.com")) ;;
   Revised.run (host := Examples.host) 1 (fst r)
     [Examples.navigate "about:blank"; clickOn Examples.submitRaw;
      Examples.navigate "https://example.com/a/b?x=1"]) =
    Ret (Revised.withHeaderEmitted Examples.configured true,
         [[]; [submitClickItem];
          Revised.headerLines (host := Examples.host) Examples.configured
          ++ [navigateItem "/a/b?x=1"]])
  /\
  (r <- Revised.generateHeader (host := Examples.host) Revised.initial (mkOptions None) ;;
   Revised.run (host := Examples.host) 1 (fst r) [Examples.closePage]) =
    Ret (Revised.initial,
         [[formatAsYamlListItem (host := Examples.host)
             (VObj [("action", VStr "closePage");
                    ("selector", VObj [("page", VStr "page")])])
             Revised.YAML_DUMP_OPTIONS]]).
Proof.
  split; [ | repeat split; vm_compute; reflexivity ].
  intros host fuel g a g' out Hnav. unfold Revised.generateActionOut.
  destruct (Revised.buildStructuredSelector fuel a) as [sel | e | ]; cbn [bind];
    try discriminate.
  destruct (Revised.stepOfAction g a sel) as [b | e | ] eqn:Hstep; cbn [bind];
    try discriminate.
  destruct (stepOfAction_other g a sel b Hnav Hstep) as [step ->].
  intros [= <- <-]. repeat split. eexists. reflexivity.
Qed.

Lemma first_retained_step_is_written_without_header_witness :
  Revised.generateActionOut (host := Examples.host) 1 Examples.configured
      (clickOn Examples.submitRaw) =
    Ret (Examples.configured, [submitClickItem]) /\
  Revised.hasHeader [submitClickItem] = false /\
  Revised._headerEmitted Examples.configured = false.
Proof.
  assert (Hcall : Revised.generateActionOut (host := Examples.host) 1
                    Examples.configured (clickOn Examples.submitRaw) =
                  Ret (Examples.configured, [submitClickItem]))
    by (vm_compute; reflexivity).
  destruct first_retained_step_is_written_without_header as [General _].
  destruct (General Examples.host 1%nat Examples.configured
              (clickOn Examples.submitRaw) Examples.configured [submitClickItem]
              eq_refl Hcall) as (_ & Hno & _).
  split; [exact Hcall | split; [exact Hno | reflexivity]].
Defined.

(* ===================================================================== *)
(** ** The two versions                                                   *)
(* ===================================================================== *)

Section Versions.

Context {host : Host}.

Lemma commonEngine_cases p :
  commonEngine p = true ->
  In (partName p) COMMON_ENGINES.
Proof.
  unfold commonEngine, Revised.setHas. intros H.
  apply existsb_exists in H. destruct H as [x [Hin Heq]].
  apply String.eqb_eq in Heq. now subst.
Qed.

Ltac common_case p H :=
  apply commonEngine_cases in H; cbn [COMMON_ENGINES In] in H;
  repeat (destruct H as [H | H]); try contradiction;
  destruct p as [n b s]; cbn [partName] in H; subst n.

Lemma scanBase_agree ps n :
  Forall (fun p => commonEngine p = true) ps ->
  (n <= List.length ps)%nat ->
  Revised.scanBase ps n =
    match Packaged.scanBase ps n with Some i => i | None => -1 end.
Proof.
  intros Hps. induction n as [ | i IH ]; intros Hn; [reflexivity | ].
  cbn [Revised.scanBase Packaged.scanBase].
  destruct (nth_error ps i) as [p | ] eqn:Hp.
  - assert (Hc : commonEngine p = true).
    { rewrite Forall_forall in Hps. apply Hps. eapply nth_error_In; eauto. }
    specialize (IH ltac:(lia)).
    common_case p Hc; cbn; try reflexivity; exact IH.
  - apply nth_error_None in Hp. lia.
Qed.

Lemma ignoredAt_common ps i :
  Forall (fun p => commonEngine p = true) ps ->
  Revised.ignoredAt ps i = false.
Proof.
  intros Hps. unfold Revised.ignoredAt.
  destruct (nth_error ps i) as [p | ] eqn:Hp; [ | reflexivity ].
  assert (Hc : commonEngine p = true).
  { rewrite Forall_forall in Hps. apply Hps. eapply nth_error_In; eauto. }
  common_case p Hc; reflexivity.
Qed.

Lemma skipIgnored_common ps b :
  Forall (fun p => commonEngine p = true) ps ->
  0 <= b ->
  Revised.skipIgnored ps (Z.to_nat (b + 1)) = b.
Proof.
  intros Hps Hb.
  replace (Z.to_nat (b + 1)) with (S (Z.to_nat b)) by lia.
  cbn [Revised.skipIgnored]. rewrite (ignoredAt_common ps _ Hps). lia.
Qed.

Lemma resolveBaseIndex_agree parsed :
  Forall (fun p => commonEngine p = true) (parts parsed) ->
  Revised.resolveBaseIndex parsed = Packaged.resolveBaseIndex parsed.
Proof.
  intros Hps. unfold Revised.resolveBaseIndex, Packaged.resolveBaseIndex.
  rewrite (scanBase_agree (parts parsed) _ Hps (le_n _)).
  set (scanned := match Packaged.scanBase (parts parsed) (List.length (parts parsed)) with
                  | Some i => i
                  | None => Z.of_nat (List.length (parts parsed)) - 1
                  end).
  assert (Hfound :
    (if match Packaged.scanBase (parts parsed) (List.length (parts parsed)) with
        | Some i => i
        | None => -1
        end =? -1
     then Z.of_nat (List.length (parts parsed)) - 1
     else match Packaged.scanBase (parts parsed) (List.length (parts parsed)) with
          | Some i => i
          | None => -1
          end) = scanned).
  { unfold scanned.
    destruct (Packaged.scanBase (parts parsed) (List.length (parts parsed))) as [i | ] eqn:E;
      [ | reflexivity ].
    destruct (Z.eqb_spec i (-1)) as [-> | Hne]; [ | reflexivity ].
    exfalso. clear - E.
    revert E. generalize (List.length (parts parsed)) as n.
    induction n as [ | k IHk ]; cbn [Packaged.scanBase]; [discriminate | ].
    destruct (nth_error (parts parsed) k) as [p | ].
    - destruct (negb (Packaged.setHas Packaged.FILTER_ENGINES (partName p)));
        [intros [= E]; lia | exact IHk].
    - intros [= E]; lia. }
  assert (Hfinish : forall b,
    (if b >=? 0 then Revised.skipIgnored (parts parsed) (Z.to_nat (b + 1)) else b) = b).
  { intros b. destruct (Z.geb_spec b 0); [ | reflexivity ].
    apply skipIgnored_common; [assumption | lia]. }
  destruct (capture parsed) as [c | ].
  - destruct (c >=? 0) eqn:Hc.
    + apply Hfinish.
    + rewrite Hfound. apply Hfinish.
  - rewrite Hfound. apply Hfinish.
Qed.

Lemma elementOfBasePart_agree parsed p :
  commonEngine p = true ->
  Revised.elementOfBasePart parsed p = Packaged.elementOfBasePart parsed p.
Proof. intros Hc. common_case p Hc; reflexivity. Qed.

Lemma filterPart_agree rec acc p :
  commonEngine p = true ->
  Revised.filterPart rec acc p = Packaged.filterPart acc p.
Proof. intros Hc. destruct acc as [filters nth]. common_case p Hc; reflexivity. Qed.

Lemma filterParts_agree rec ps : forall acc,
  Forall (fun p => commonEngine p = true) ps ->
  Revised.filterParts rec acc ps = Packaged.filterParts acc ps.
Proof.
  induction ps as [ | p ps IH ]; intros acc Hps; [reflexivity | ].
  inversion Hps as [ | ? ? Hp Hrest ]; subst.
  cbn [Revised.filterParts Packaged.filterParts].
  rewrite (filterPart_agree rec acc p Hp).
  destruct (Packaged.filterPart acc p) as [acc' | e | ]; cbn [bind]; auto.
Qed.

Lemma Forall_skipn (A : Type) (P : A -> Prop) n : forall l : list A,
  Forall P l -> Forall P (skipn n l).
Proof.
  induction n as [ | n IH ]; intros l Hl; [exact Hl | ].
  destruct l as [ | x l ]; [constructor | ].
  inversion Hl; subst. cbn [skipn]. auto.
Qed.

(** C10 (amended). The two versions agree on part of their behaviour
    only: their footers are equal; their headers return the same comment
    line or both throw; a navigation to a trivial URL returns the empty
    fragment in both; and their selector mappers return the same result
    for an absent, empty or unparseable raw selector and for every chain
    whose parts all use the engines testid, text, css, css:light, xpath,
    label, placeholder, has-text and nth. *)
Theorem versions_agree_on_common_engines :
  (forall g g' saveStorage,
      Revised.generateFooter g saveStorage = Packaged.generateFooter g' saveStorage)
  /\
  (forall g g' options,
      match Revised.generateHeader g options, Packaged.generateHeader g' options with
      | Ret (_, s), Ret (_, s') => s = s'
      | Throw _, Throw _ => True
      | _, _ => False
      end)
  /\
  (forall fuel g g' a,
      Revised.isTrivialNavigation a = true ->
      Revised.generateAction fuel g a = Ret (g, "") /\
      Packaged.generateAction g' a = Ret (g', ""))
  /\
  (forall fuel raw,
      match raw with
      | Some r => r = "" \/ parseSelector r = None
      | None => True
      end ->
      Revised.elementFromParsedSelector (S fuel) raw = Ret VUndef /\
      Packaged.elementFromParsedSelector raw = Ret VUndef)
  /\
  (forall fuel raw parsed,
      parseSelector raw = Some parsed ->
      Forall (fun p => commonEngine p = true) (parts parsed) ->
      Revised.elementFromParsedSelector (S fuel) (Some raw) =
        Packaged.elementFromParsedSelector (Some raw)).
Proof.
  split; [ | split; [ | split; [ | split ] ] ].
  - reflexivity.
  - intros g g' options. unfold Revised.generateHeader, Packaged.generateHeader.
    destruct (Revised.orElse (baseURL options) None) as [seed | ] eqn:Hseed;
      change (Packaged.orElse (baseURL options) None)
        with (Revised.orElse (baseURL options) None);
      rewrite ?Hseed; cbn [bind].
    + destruct (URL_new seed); cbn [bind]; [reflexivity | exact I].
    + reflexivity.
  - intros fuel g g' a Ha. split.
    + unfold Revised.generateAction.
      now rewrite (generateActionOut_trivial fuel g a Ha).
    + unfold Revised.isTrivialNavigation, Revised.isNavigation in Ha.
      apply andb_true_iff in Ha. destruct Ha as [Hnav Htrivial].
      apply andb_true_iff in Hnav. destruct Hnav as [Hname Hsel].
      unfold Revised.isActionWithSelector in Hsel.
      destruct (selector (action a)) as [sel | ] eqn:Es; [discriminate | ].
      unfold Packaged.generateAction, Packaged.generateActionOut,
        Packaged.buildStructuredSelector, Packaged.isActionWithSelector.
      rewrite Es. cbn [bind].
      unfold Packaged.stepOfAction. rewrite Hname.
      unfold Packaged.navigateStep. rewrite Htrivial. reflexivity.
  - intros fuel raw Hraw. split.
    + now apply elementFromParsedSelector_unparseable.
    + unfold Packaged.elementFromParsedSelector.
      destruct raw as [[ | c r] | ]; try reflexivity.
      destruct Hraw as [H | H]; [discriminate | now rewrite H].
  - intros fuel raw parsed Hparse Hps.
    cbn [Revised.elementFromParsedSelector].
    unfold Revised.elementFromParsedSelector_body, Packaged.elementFromParsedSelector.
    destruct raw as [ | c r ]; [reflexivity | ].
    rewrite Hparse, (resolveBaseIndex_agree parsed Hps).
    destruct (Packaged.resolveBaseIndex parsed <? 0); [reflexivity | ].
    destruct (nth_error (parts parsed) (Z.to_nat (Packaged.resolveBaseIndex parsed)))
      as [basePart | ] eqn:Hbase; [ | reflexivity ].
    assert (Hc : commonEngine basePart = true).
    { rewrite Forall_forall in Hps. apply Hps. eapply nth_error_In; eauto. }
    rewrite (elementOfBasePart_agree parsed basePart Hc).
    destruct (Packaged.elementOfBasePart parsed basePart) as [element | e | ];
      cbn [bind]; try reflexivity.
    rewrite (filterParts_agree (Revised.elementFromParsedSelector fuel) _ (VUndef, VUndef)
               (Forall_skipn _ _ _ _ Hps)).
    reflexivity.
Qed.

End Versions.

Lemma versions_agree_on_common_engines_witness :
  Revised.elementFromParsedSelector (host := Examples.host) 1 (Some Examples.goRaw) =
    Packaged.elementFromParsedSelector (host := Examples.host) (Some Examples.goRaw) /\
  Revised.elementFromParsedSelector (host := Examples.host) 1 (Some "no such chain") =
    Ret VUndef /\
  Revised.generateAction (host := Examples.host) 1 Revised.initial
      (Examples.navigate "about:blank") = Ret (Revised.initial, "").
Proof.
  destruct (@versions_agree_on_common_engines Examples.host)
    as [_ [_ [Trivial [Unparseable Common]]]].
  split; [ | split ].
  - apply (Common 0%nat Examples.goRaw Examples.goChain); [reflexivity | ].
    repeat constructor.
  - apply (Unparseable 0%nat (Some "no such chain")). right. reflexivity.
  - apply (Trivial 1%nat Revised.initial Packaged.initial
             (Examples.navigate "about:blank")).
    reflexivity.
Defined.

(** C10 as stated fails: on [css=.btn >> visible=true] the packaged
    mapper takes the [visible] part as the base and falls back to the
    re-stringified chain, the revised mapper maps the css part and a
    [visible] filter. *)
Lemma versions_differ_on_visible :
  Packaged.elementFromParsedSelector (host := Examples.host) (Some Examples.visibleRaw) =
    Ret (VObj [("element", VObj [("css", VStr ".btn >> visible=true")]);
               ("filters", VUndef); ("nth", VUndef)]) /\
  Revised.elementFromParsedSelector (host := Examples.host) 1 (Some Examples.visibleRaw) =
    Ret (VObj [("element", VObj [("css", VStr ".btn")]);
               ("filters", VObj [("visible", VBool true)]); ("nth", VUndef)]) /\
  Packaged.elementFromParsedSelector (host := Examples.host) (Some Examples.visibleRaw) <>
    Revised.elementFromParsedSelector (host := Examples.host) 1 (Some Examples.visibleRaw).
Proof.
  split; [vm_compute; reflexivity | split; [vm_compute; reflexivity | ] ].
  vm_compute. discriminate.
Qed.

(* ===================================================================== *)
(** ** The suffix forms of the text matcher                               *)
(* ===================================================================== *)

Section SuffixForms.

Context {host : Host}.

Lemma string_length_app a b :
  String.length (a ++ b) = (String.length a + String.length b)%nat.
Proof. induction a as [ | c a IH ]; cbn; [reflexivity | now rewrite IH]. Qed.

Lemma string_app_assoc a b c : ((a ++ b) ++ c)%string = (a ++ (b ++ c))%string.
Proof. induction a as [ | x a IH ]; cbn; [reflexivity | now rewrite IH]. Qed.

Lemma substring_all p : substring 0 (String.length p) p = p.
Proof. induction p as [ | c p IH ]; cbn; [reflexivity | now rewrite IH]. Qed.

Lemma substring_prefix q r : substring 0 (String.length q) (q ++ r) = q.
Proof.
  induction q as [ | c q IH ]; cbn.
  - destruct r; reflexivity.
  - now rewrite IH.
Qed.

Lemma substring_suffix pre p :
  substring (String.length pre) (String.length p) (pre ++ p) = p.
Proof.
  induction pre as [ | c pre IH ]; cbn.
  - apply substring_all.
  - exact IH.
Qed.

Lemma substring_split s : forall k,
  (k <= String.length s)%nat ->
  s = (substring 0 k s ++ substring k (String.length s - k) s)%string.
Proof.
  induction s as [ | c s IH ]; intros k Hk.
  - cbn in Hk. assert (k = 0%nat) by lia. subst. reflexivity.
  - destruct k as [ | k ].
    + rewrite Nat.sub_0_r, substring_all. reflexivity.
    + cbn [substring String.length append Nat.sub]. cbn in Hk.
      f_equal. apply IH. lia.
Qed.

Lemma endsWith_app pre p : Js.endsWith (pre ++ p) p = true.
Proof.
  unfold Js.endsWith. rewrite string_length_app.
  replace (String.length pre + String.length p - String.length p)%nat
    with (String.length pre) by lia.
  rewrite substring_suffix, String.eqb_refl.
  apply andb_true_iff. split; [ | reflexivity ]. apply Nat.leb_le. lia.
Qed.

Lemma endsWith_inv s p :
  Js.endsWith s p = true -> exists pre, s = (pre ++ p)%string.
Proof.
  unfold Js.endsWith. intros H. apply andb_true_iff in H. destruct H as [Hle Heq].
  apply Nat.leb_le in Hle. apply String.eqb_eq in Heq.
  remember (String.length s - String.length p)%nat as k eqn:Hk.
  assert (Hm : String.length p = (String.length s - k)%nat) by lia.
  exists (substring 0 k s).
  rewrite Hm in Heq. rewrite <- Heq.
  apply substring_split. lia.
Qed.

Lemma endsWith_last q c p :
  Js.endsWith q p = true ->
  Js.endsWith (q ++ String c "") (p ++ String c "") = true.
Proof.
  intros H. destruct (endsWith_inv q p H) as [pre ->].
  rewrite string_app_assoc. apply endsWith_app.
Qed.

Lemma endsWith_other_last q c d :
  c <> d -> Js.endsWith (q ++ String c "") (String d "") = false.
Proof.
  intros Hne. unfold Js.endsWith. rewrite string_length_app.
  cbn [String.length].
  replace (String.length q + 1 - 1)%nat with (String.length q) by lia.
  pose proof (substring_suffix q (String c "")) as Hlast.
  cbn [String.length] in Hlast. rewrite Hlast.
  apply andb_false_iff. right. apply String.eqb_neq. congruence.
Qed.

Lemma at_last q c : Js.at_ (q ++ String c "") (-1) = Some c.
Proof.
  unfold Js.at_. rewrite string_length_app. cbn [String.length Z.ltb Z.compare].
  replace (Z.of_nat (String.length q + 1) + -1) with (Z.of_nat (String.length q)) by lia.
  assert (H1 : (Z.of_nat (String.length q) <? 0) = false) by (apply Z.ltb_ge; lia).
  assert (H2 : (Z.of_nat (String.length q + 1) <=? Z.of_nat (String.length q)) = false)
    by (apply Z.leb_gt; lia).
  rewrite H1, H2. cbn [orb]. rewrite Nat2Z.id. clear H1 H2.
  induction q as [ | x q IH ]; [reflexivity | exact IH].
Qed.

Lemma slice_drop_last q c : Js.slice (q ++ String c "") 0 (-1) = q.
Proof.
  unfold Js.slice, Js.relIndex. rewrite string_length_app.
  cbn [String.length Z.ltb Z.compare Z.to_nat Nat.min].
  replace (Z.to_nat (Z.max 0 (Z.of_nat (String.length q + 1) + -1)))
    with (String.length q) by lia.
  rewrite Nat.sub_0_r. apply substring_prefix.
Qed.

Lemma startsWith_quote q :
  Js.startsWith q QUOTE = true -> exists rest, q = String "034" rest.
Proof.
  unfold Js.startsWith, QUOTE. destruct q as [ | c rest ]; cbn [String.prefix];
    [discriminate | ].
  destruct (Ascii.ascii_dec "034" c) as [<- | Hne]; [eauto | discriminate].
Qed.

Lemma parseSuffixForm_decoded q decoded c :
  Js.startsWith q QUOTE = true ->
  Js.endsWith q QUOTE = true ->
  parseJsonString q = Some decoded ->
  c = "s"%char \/ c = "i"%char ->
  parseSuffixForm (q ++ String c "") =
    Some (if Ascii.eqb c "s" then exactText decoded
          else regexText (escapeRegex decoded) "i").
Proof.
  intros Hstart Hend Hjson Hc. unfold parseSuffixForm.
  rewrite at_last, slice_drop_last, Hstart, Hend, Hjson. cbn [andb].
  assert (Hsuffix :
    Js.endsWith (q ++ String c "") (QUOTE ++ "s")
    || Js.endsWith (q ++ String c "") (QUOTE ++ "i") = true).
  { destruct Hc as [-> | ->].
    - rewrite (endsWith_last q "s" QUOTE Hend). reflexivity.
    - rewrite (endsWith_last q "i" QUOTE Hend). apply orb_true_r. }
  rewrite Hsuffix. destruct (Ascii.eqb c "s"); reflexivity.
Qed.

Lemma parseSuffixForm_malformed q c :
  parseJsonString q = None ->
  parseSuffixForm (q ++ String c "") = None.
Proof.
  intros Hjson. unfold parseSuffixForm.
  rewrite slice_drop_last, Hjson.
  destruct (Js.endsWith (q ++ String c "") (QUOTE ++ "s")
            || Js.endsWith (q ++ String c "") (QUOTE ++ "i")); [ | reflexivity ].
  destruct (Js.startsWith q QUOTE && Js.endsWith q QUOTE); reflexivity.
Qed.

(** The part of C4 that holds.  For a quoted string [q] (it starts and
    ends with a double quote): when [q] decodes to [decoded], the input
    [q] followed by [s] gives the exact matcher of [decoded], and [q]
    followed by [i] gives the pattern [escapeRegex decoded] with the flag
    [i]; when [q] does not decode, the suffix rule is skipped and, the
    input not ending with a quote, the result is the input as plain
    text. *)
Lemma parseTextSpec_suffix_forms q :
  Js.startsWith q QUOTE = true ->
  Js.endsWith q QUOTE = true ->
  (forall decoded,
      parseJsonString q = Some decoded ->
      parseTextSpec (Some (q ++ "s")%string) = exactText decoded /\
      parseTextSpec (Some (q ++ "i")%string) = regexText (escapeRegex decoded) "i")
  /\
  (parseJsonString q = None ->
   parseTextSpec (Some (q ++ "s")%string) = VStr (q ++ "s") /\
   parseTextSpec (Some (q ++ "i")%string) = VStr (q ++ "i")).
Proof.
  intros Hstart Hend.
  destruct (startsWith_quote q Hstart) as [rest ->].
  split.
  - intros decoded Hjson. split; unfold parseTextSpec; cbn [append];
      change (String "034" (rest ++ ?x)) with (String "034" rest ++ x)%string.
    + rewrite (parseSuffixForm_decoded (String "034" rest) decoded "s" Hstart Hend Hjson
                 (or_introl eq_refl)).
      reflexivity.
    + rewrite (parseSuffixForm_decoded (String "034" rest) decoded "i" Hstart Hend Hjson
                 (or_intror eq_refl)).
      reflexivity.
  - intros Hjson. split; unfold parseTextSpec; cbn [append];
      change (String "034" (rest ++ ?x)) with (String "034" rest ++ x)%string.
    + rewrite (parseSuffixForm_malformed (String "034" rest) "s" Hjson).
      unfold parsePlainQuoted. change QUOTE with (String "034" "").
      rewrite (endsWith_other_last (String "034" rest) "s" "034") by discriminate.
      rewrite andb_false_r. reflexivity.
    + rewrite (parseSuffixForm_malformed (String "034" rest) "i" Hjson).
      unfold parsePlainQuoted. change QUOTE with (String "034" "").
      rewrite (endsWith_other_last (String "034" rest) "i" "034") by discriminate.
      rewrite andb_false_r. reflexivity.
Qed.

End SuffixForms.

(* ===================================================================== *)
(** ** File name slugs                                                    *)
(* ===================================================================== *)

Section SlugProperties.

Import FrameDump.

Lemma string_app_empty_r s : (s ++ "")%string = s.
Proof. induction s as [ | c s IH ]; cbn; [reflexivity | now rewrite IH]. Qed.

Lemma rev_string_app a : forall b acc,
  Js.rev_string (a ++ b) acc = Js.rev_string b (Js.rev_string a acc).
Proof. induction a as [ | c a IH ]; intros b acc; cbn; [reflexivity | apply IH]. Qed.

Lemma rev_string_acc s : forall acc,
  Js.rev_string s acc = (Js.rev_string s "" ++ acc)%string.
Proof.
  induction s as [ | c s IH ]; intros acc; cbn [Js.rev_string]; [reflexivity | ].
  rewrite (IH (String c acc)), (IH (String c "")).
  rewrite string_app_assoc. reflexivity.
Qed.

Lemma rev_string_rev s : forall acc acc',
  Js.rev_string (Js.rev_string s acc) acc' = Js.rev_string acc (s ++ acc').
Proof.
  induction s as [ | c s IH ]; intros acc acc'; cbn [Js.rev_string append];
    [reflexivity | ].
  rewrite IH. reflexivity.
Qed.

Lemma dropEdge_suffix s : exists pre, s = (pre ++ dropEdge s)%string.
Proof.
  induction s as [ | c s [pre IH] ]; [exists ""; reflexivity | ].
  cbn [dropEdge]. destruct (isEdge c).
  - exists (String c pre). cbn. now rewrite <- IH.
  - exists "". reflexivity.
Qed.

Lemma dropEdge_head s : dropEdge s = "" \/ headIs (fun c => negb (isEdge c)) (dropEdge s) = true.
Proof.
  induction s as [ | c s IH ]; [now left | ].
  cbn [dropEdge]. destruct (isEdge c) eqn:E; [exact IH | ].
  right. cbn. now rewrite E.
Qed.

(** The trimmed string sits inside the string, and it is a prefix of the
    string without its leading edge punctuation. *)
Lemma trimEdges_inside s :
  exists post, dropEdge s = (trimEdges s ++ post)%string.
Proof.
  unfold trimEdges.
  destruct (dropEdge_suffix (Js.rev_string (dropEdge s) "")) as [pre Hpre].
  exists (Js.rev_string pre "").
  rewrite <- rev_string_acc, <- rev_string_app, <- Hpre.
  rewrite rev_string_rev. cbn. now rewrite string_app_empty_r.
Qed.

Lemma allChars_app f a b :
  allChars f (a ++ b) = allChars f a && allChars f b.
Proof.
  induction a as [ | c a IH ]; cbn; [reflexivity | ].
  now rewrite IH, andb_assoc.
Qed.

Lemma allChars_substring f s : forall n m,
  allChars f s = true -> allChars f (substring n m s) = true.
Proof.
  induction s as [ | c s IH ]; intros n m H.
  - destruct n, m; reflexivity.
  - cbn in H. apply andb_true_iff in H. destruct H as [Hc Hs].
    destruct n as [ | n ]; [destruct m as [ | m ] | ]; cbn [substring allChars].
    + reflexivity.
    + rewrite Hc. now apply IH.
    + now apply IH.
Qed.

Lemma allChars_replaceUnsafe s : allChars isSafe (replaceUnsafe s) = true.
Proof.
  unfold replaceUnsafe. induction s as [ | c s IH ]; [reflexivity | ].
  cbn [Js.mapChars allChars]. rewrite IH, andb_true_r.
  destruct (isSafe c) eqn:E; [exact E | reflexivity].
Qed.

Lemma allChars_collapseDashes f s : forall b,
  allChars f s = true -> allChars f (collapseDashes b s) = true.
Proof.
  induction s as [ | c s IH ]; intros b H; [reflexivity | ].
  cbn in H. apply andb_true_iff in H. destruct H as [Hc Hs].
  cbn [collapseDashes]. destruct (Ascii.eqb c "-"); [destruct b | ];
    cbn [allChars]; rewrite ?Hc; cbn [andb]; auto.
Qed.

Lemma allChars_trimEdges f s : allChars f s = true -> allChars f (trimEdges s) = true.
Proof.
  intros H. destruct (dropEdge_suffix s) as [pre Hpre].
  destruct (trimEdges_inside s) as [post Hpost].
  rewrite Hpre, Hpost, !allChars_app in H.
  apply andb_true_iff in H. destruct H as [_ H].
  apply andb_true_iff in H. now destruct H.
Qed.

Lemma noDoubleDash_weaken s : noDoubleDash true s = true -> noDoubleDash false s = true.
Proof.
  destruct s as [ | c s ]; [reflexivity | ].
  cbn. destruct (Ascii.eqb c "-"); [discriminate | auto].
Qed.

Lemma noDoubleDash_any b s : noDoubleDash b s = true -> noDoubleDash false s = true.
Proof. destruct b; [apply noDoubleDash_weaken | auto]. Qed.

Lemma noDoubleDash_suffix a : forall b r,
  noDoubleDash b (a ++ r) = true -> noDoubleDash false r = true.
Proof.
  induction a as [ | c a IH ]; intros b r H; cbn in H.
  - now apply noDoubleDash_any with b.
  - destruct (Ascii.eqb c "-").
    + apply andb_true_iff in H. destruct H as [_ H]. now apply IH with true.
    + now apply IH with false.
Qed.

Lemma noDoubleDash_prefix m : forall b r,
  noDoubleDash b (m ++ r) = true -> noDoubleDash b m = true.
Proof.
  induction m as [ | c m IH ]; intros b r H; [reflexivity | ].
  cbn in *. destruct (Ascii.eqb c "-").
  - apply andb_true_iff in H. destruct H as [Hb H]. rewrite Hb. now apply IH with r.
  - now apply IH with r.
Qed.

Lemma noDoubleDash_collapse s : forall b, noDoubleDash b (collapseDashes b s) = true.
Proof.
  induction s as [ | c s IH ]; intros b; [reflexivity | ].
  cbn [collapseDashes]. destruct (Ascii.eqb c "-") eqn:E.
  - destruct b; [apply IH | ]. cbn. rewrite E. apply IH.
  - cbn. rewrite E. apply IH.
Qed.

Lemma prefix_substring s : forall k, exists r, s = (substring 0 k s ++ r)%string.
Proof.
  induction s as [ | c s IH ]; intros k.
  - exists "". destruct k; reflexivity.
  - destruct k as [ | k ]; [exists (String c s); reflexivity | ].
    destruct (IH k) as [r Hr]. exists r. cbn. now rewrite <- Hr.
Qed.

Lemma slice_from_start s max :
  Js.slice s 0 max = substring 0 (Js.relIndex (String.length s) max) s.
Proof. unfold Js.slice. cbn. now rewrite Nat.sub_0_r. Qed.

Lemma length_substring_le s : forall k, (String.length (substring 0 k s) <= k)%nat.
Proof.
  induction s as [ | c s IH ]; intros [ | k ]; cbn; try lia.
  specialize (IH k). lia.
Qed.

Lemma cleaned_head s :
  cleaned s = "" \/ headIs (fun c => negb (isEdge c)) (cleaned s) = true.
Proof.
  unfold cleaned. set (t := collapseDashes false (replaceUnsafe s)).
  destruct (trimEdges_inside t) as [post Hpost].
  destruct (trimEdges t) as [ | c m ] eqn:E; [now left | right].
  destruct (dropEdge_head t) as [H | H]; rewrite Hpost in H; [discriminate | exact H].
Qed.

Lemma sanitize_safe (s : string) (max : Z) :
  sanitize s max <> "" /\
  allChars isSafe (sanitize s max) = true /\
  noDoubleDash false (sanitize s max) = true /\
  headIs (fun c => negb (isEdge c)) (sanitize s max) = true.
Proof.
  unfold sanitize. fold (cleaned s). rewrite slice_from_start.
  set (k := Js.relIndex (String.length (cleaned s)) max).
  destruct (prefix_substring (cleaned s) k) as [r Hr].
  assert (Hsafe : allChars isSafe (cleaned s) = true).
  { unfold cleaned. apply allChars_trimEdges, allChars_collapseDashes,
      allChars_replaceUnsafe. }
  assert (Hdash : noDoubleDash false (cleaned s) = true).
  { unfold cleaned. set (t := collapseDashes false (replaceUnsafe s)).
    destruct (dropEdge_suffix t) as [pre Hpre].
    destruct (trimEdges_inside t) as [post Hpost].
    assert (Ht := noDoubleDash_collapse (replaceUnsafe s) false). fold t in Ht.
    rewrite Hpre in Ht. apply noDoubleDash_suffix in Ht.
    rewrite Hpost in Ht. now apply noDoubleDash_prefix in Ht. }
  destruct (substring 0 k (cleaned s)) as [ | c m ] eqn:E.
  - repeat split; try reflexivity. discriminate.
  - split; [discriminate | ]. split; [ | split ].
    + rewrite <- E. now apply allChars_substring.
    + rewrite Hr in Hdash. now apply noDoubleDash_prefix in Hdash.
    + destruct (cleaned_head s) as [H | H]; rewrite Hr in H; [discriminate | exact H].
Qed.

(** X1. The slug made by [sanitize] is never empty, holds only letters,
    digits, dots, underscores and dashes, has no two dashes in a row, and
    starts with neither a dash nor a dot, whatever the input and the
    bound. *)
Theorem sanitize_is_file_name_safe (s : string) (max : Z) :
  sanitize s max <> "" /\
  allChars isSafe (sanitize s max) = true /\
  noDoubleDash false (sanitize s max) = true /\
  headIs (fun c => negb (isEdge c)) (sanitize s max) = true.
Proof. exact (sanitize_safe s max). Qed.

Lemma sanitize_bounded (s : string) (max : Z) :
  4 <= max ->
  Z.of_nat (String.length (sanitize s max)) <= max.
Proof.
  intros Hmax. unfold sanitize. fold (cleaned s). rewrite slice_from_start.
  set (k := Js.relIndex (String.length (cleaned s)) max).
  assert (Hk : Z.of_nat k <= max).
  { unfold k, Js.relIndex. destruct (Z.ltb_spec max 0); lia. }
  assert (Hlen := length_substring_le (cleaned s) k).
  destruct (substring 0 k (cleaned s)) as [ | c m ] eqn:E; [cbn; lia | ].
  lia.
Qed.

(** X2. With a bound of at least four characters (the length of the
    fallback name), the slug is no longer than the bound. *)
Theorem sanitize_respects_bound (s : string) (max : Z) :
  4 <= max ->
  Z.of_nat (String.length (sanitize s max)) <= max.
Proof. exact (sanitize_bounded s max). Qed.

Section UrlSlug.

Context {host : Host}.

Variable searchParamKeys : string -> list string.

(** X3. Whatever the URL, parseable or not, its slug is a non-empty name
    of at most 90 safe characters that starts with neither a dash nor a
    dot. *)
Theorem urlSlug_is_file_name_safe (raw : string) :
  let slug := urlSlug searchParamKeys raw in
  slug <> "" /\
  allChars isSafe slug = true /\
  headIs (fun c => negb (isEdge c)) slug = true /\
  (String.length slug <= 90)%nat.
Proof.
  cbv zeta. unfold urlSlug.
  destruct (URL_new raw) as [u | ].
  - match goal with |- context [sanitize ?c 90] =>
      destruct (sanitize_safe c 90) as [H1 [H2 [_ H4]]];
      pose proof (sanitize_bounded c 90 ltac:(lia)) as H5
    end.
    repeat split; auto. lia.
  - match goal with |- context [sanitize ?c 60] =>
      destruct (sanitize_safe c 60) as [H1 [H2 [_ H4]]];
      pose proof (sanitize_bounded c 60 ltac:(lia)) as H5
    end.
    repeat split; auto. lia.
Qed.

End UrlSlug.

End SlugProperties.

Lemma sanitize_respects_bound_witness :
  Z.of_nat (String.length (FrameDump.sanitize "--Hello, World!!--" 8)) <= 8 /\
  FrameDump.sanitize "--Hello, World!!--" 8 = "Hello-Wo".
Proof.
  split.
  - apply (sanitize_respects_bound "--Hello, World!!--" 8). lia.
  - reflexivity.
Defined.

(* ===================================================================== *)
(** ** Default stripping, field by field                                  *)
(* ===================================================================== *)

Section StripFields.

Variable rec : value -> object.

Lemma stripLoop_flat_map es : forall out,
  NoDup (keys out ++ keys es) ->
  stripLoop rec es out = out ++ flat_map (strippedEntry rec) es.
Proof.
  induction es as [ | [k v] es IH ]; intros out Hnd; cbn [stripLoop flat_map].
  - now rewrite app_nil_r.
  - cbn [keys map fst] in Hnd. unfold strippedEntry at 1. cbn [fst snd].
    destruct (stripEntry rec k v) as [v' | ].
    + assert (Hfresh : ~ In k (keys out)).
      { apply NoDup_remove_2 in Hnd. intros Hin. apply Hnd, in_or_app. now left. }
      rewrite (keys_setKey_fresh k v' out Hfresh).
      rewrite IH.
      * now rewrite <- app_assoc.
      * unfold keys in *. rewrite map_app, <- app_assoc. exact Hnd.
    + rewrite IH; [reflexivity | ]. now apply NoDup_remove_1 in Hnd.
Qed.

End StripFields.

(** X4. On an object with distinct keys, default stripping works field by
    field and keeps the order of the fields: each field is dropped or
    replaced by its stripped value, independently of the others. *)
Theorem stripDefaults_is_fieldwise (es : list (string * value)) :
  NoDup (keys es) ->
  stripDefaults (VObj es) = flat_map (strippedEntry stripDefaults) es.
Proof.
  intros Hnd. cbn [stripDefaults].
  now rewrite (stripLoop_flat_map stripDefaults es []).
Qed.

Lemma stripDefaults_is_fieldwise_witness :
  stripDefaults
    (VObj [("action", VStr "click"); ("button", VUndef); ("modifiers", VNum 0);
           ("selector", VObj [("page", VStr "page"); ("nth", VNull)])]) =
    [("action", VStr "click"); ("selector", VObj [("page", VStr "page")])].
Proof.
  rewrite stripDefaults_is_fieldwise.
  - reflexivity.
  - repeat constructor; cbn; intuition discriminate.
Defined.



(* ===================================================================== *)
(** ** Modifiers, frame references, trivial URLs, expectations            *)
(* ===================================================================== *)

Section SmallHelpers.

Context {host : Host}.

Import Revised.

Lemma land_pow2_testbit m i :
  0 <= i -> (Z.land m (2 ^ i) =? 0) = negb (Z.testbit m i).
Proof.
  intros Hi. destruct (Z.testbit m i) eqn:E; cbn [negb].
  - apply Z.eqb_neq. intros H.
    assert (Hb : Z.testbit (Z.land m (2 ^ i)) i = true).
    { rewrite Z.land_spec, E, Z.pow2_bits_true by exact Hi. reflexivity. }
    rewrite H, Z.bits_0 in Hb. discriminate.
  - apply Z.eqb_eq. apply Z.bits_inj'. intros n Hn.
    rewrite Z.land_spec, Z.bits_0, Z.pow2_bits_eqb by exact Hi.
    destruct (Z.eqb_spec i n) as [-> | _].
    + now rewrite E.
    + apply andb_false_r.
Qed.

Lemma decodeModifiers_bits m :
  decodeModifiers (Some m) =
  match
    (if Z.testbit m 0 then [VStr "Alt"] else []) ++
    (if Z.testbit m 1 then [VStr "Control"] else []) ++
    (if Z.testbit m 2 then [VStr "Meta"] else []) ++
    (if Z.testbit m 3 then [VStr "Shift"] else [])
  with
  | [] => VUndef
  | l => VArr l
  end.
Proof.
  unfold decodeModifiers.
  change (Z.land m 1) with (Z.land m (2 ^ 0)).
  change (Z.land m 2) with (Z.land m (2 ^ 1)).
  change (Z.land m 4) with (Z.land m (2 ^ 2)).
  change (Z.land m 8) with (Z.land m (2 ^ 3)).
  rewrite !land_pow2_testbit, !negb_involutive by lia.
  destruct (Z.eqb_spec m 0) as [-> | _]; [reflexivity | ].
  destruct (Z.testbit m 0), (Z.testbit m 1), (Z.testbit m 2), (Z.testbit m 3);
    reflexivity.
Qed.

(** X6. The decoded modifier list names exactly the modifiers whose bit is
    set in the mask (Alt 1, Control 2, Meta 4, Shift 8); it is never an
    empty array, and bits above 8 are ignored. *)
Theorem decodeModifiers_lists_set_bits (m : Z) :
  (In (VStr "Alt") (itemsOf (decodeModifiers (Some m))) <-> Z.testbit m 0 = true) /\
  (In (VStr "Control") (itemsOf (decodeModifiers (Some m))) <-> Z.testbit m 1 = true) /\
  (In (VStr "Meta") (itemsOf (decodeModifiers (Some m))) <-> Z.testbit m 2 = true) /\
  (In (VStr "Shift") (itemsOf (decodeModifiers (Some m))) <-> Z.testbit m 3 = true) /\
  decodeModifiers (Some m) <> VArr [] /\
  decodeModifiers (Some m) = decodeModifiers (Some (Z.land m 15)).
Proof.
  rewrite (decodeModifiers_bits (Z.land m 15)), !Z.land_spec.
  change (Z.testbit 15 0) with true. change (Z.testbit 15 1) with true.
  change (Z.testbit 15 2) with true. change (Z.testbit 15 3) with true.
  rewrite !andb_true_r, <- decodeModifiers_bits.
  rewrite decodeModifiers_bits.
  destruct (Z.testbit m 0), (Z.testbit m 1), (Z.testbit m 2), (Z.testbit m 3);
    cbn [app itemsOf In];
    repeat split; try discriminate; try reflexivity; intros H;
    repeat (destruct H as [H | H]; try discriminate H);
    try contradiction; auto 6.
Qed.

Lemma prefix_app p r : String.prefix p (p ++ r) = true.
Proof.
  induction p as [ | c p IH ]; cbn; [destruct r; reflexivity | ].
  destruct (ascii_dec c c); [exact IH | congruence].
Qed.

Lemma prefix_app_r p : forall u v,
  String.prefix p u = true -> String.prefix p (u ++ v) = true.
Proof.
  induction p as [ | c p IH ]; intros u v H;
    [destruct (u ++ v)%string; reflexivity | ].
  destruct u as [ | d u ]; cbn in *; [discriminate | ].
  destruct (ascii_dec c d); [now apply IH | discriminate].
Qed.

Lemma prefix_inv p : forall s,
  String.prefix p s = true -> exists r, s = (p ++ r)%string.
Proof.
  induction p as [ | c p IH ]; intros s H.
  - now exists s.
  - destruct s as [ | d s ]; cbn in H; [discriminate | ].
    destruct (ascii_dec c d) as [<- | ]; [ | discriminate].
    destruct (IH s H) as [r ->]. now exists r.
Qed.

Lemma substring_middle a b c :
  substring (String.length a) (String.length b) (a ++ b ++ c) = b.
Proof.
  induction a as [ | x a IH ]; cbn; [apply substring_prefix | exact IH].
Qed.

Lemma endsWith_drop_prefix a x p :
  (String.length p <= String.length x)%nat ->
  Js.endsWith (a ++ x) p = true -> Js.endsWith x p = true.
Proof.
  unfold Js.endsWith. rewrite string_length_app. intros Hle H.
  apply andb_true_iff in H. destruct H as [_ H].
  apply andb_true_iff. split; [now apply Nat.leb_le | ].
  replace (String.length a + String.length x - String.length p)%nat
    with (String.length a + (String.length x - String.length p))%nat in H by lia.
  revert H. generalize (String.length x - String.length p)%nat. intros k.
  induction a as [ | c a IH ]; cbn; [trivial | exact IH].
Qed.

(** X7. A frame selector of the form [frame[name=] quote n quote [ ]],
    with a non-empty name free of line terminators, is read back as the
    frame name n, and these are the only strings read as a frame name. *)
Theorem frameRef_reads_back_frame_name (sel n : string) :
  frameRefFromString sel = VObj [("name", VStr n)] <->
  sel = ("frame[name=" ++ QUOTE ++ n ++ QUOTE ++ "]")%string /\
  n <> ""%string /\
  allChars (fun c => negb (Js.isLineTerminator c)) n = true.
Proof.
  set (pre := ("frame[name=" ++ QUOTE)%string).
  set (suf := (QUOTE ++ "]")%string).
  change ("frame[name=" ++ QUOTE ++ n ++ QUOTE ++ "]")%string
    with (pre ++ n ++ suf)%string.
  unfold frameRefFromString, matchFrameName. fold pre. fold suf. split.
  - destruct (Js.startsWith sel pre) eqn:Hs; [ | discriminate].
    destruct (Js.endsWith sel suf) eqn:He; [ | discriminate].
    destruct (15 <=? String.length sel)%nat eqn:Hl; [ | discriminate].
    cbn [andb].
    destruct (allChars _ (substring 12 (String.length sel - 14) sel)) eqn:Ha;
      [ | discriminate].
    intros H. injection H as H. apply Nat.leb_le in Hl.
    destruct (prefix_inv pre sel Hs) as [x ->].
    rewrite string_length_app in Hl. change (String.length pre) with 12%nat in Hl.
    apply endsWith_drop_prefix in He;
      [ | change (String.length suf) with 2%nat; lia].
    destruct (endsWith_inv x suf He) as [mid ->].
    rewrite !string_length_app in *.
    change (String.length pre) with 12%nat in *.
    change (String.length suf) with 2%nat in *.
    replace (12 + (String.length mid + 2) - 14)%nat with (String.length mid) in * by lia.
    change 12%nat with (String.length pre) in H, Ha.
    rewrite substring_middle in H, Ha. subst mid.
    repeat split; [ | exact Ha].
    intros ->. cbn in Hl. lia.
  - intros (-> & Hne & Ha).
    change ("frame[name=" ++ QUOTE ++ n ++ suf)%string with (pre ++ n ++ suf)%string.
    assert (Hs : Js.startsWith (pre ++ n ++ suf) pre = true) by apply prefix_app.
    assert (He : Js.endsWith (pre ++ n ++ suf) suf = true).
    { rewrite <- string_app_assoc. apply endsWith_app. }
    assert (Hl : (15 <=? String.length (pre ++ n ++ suf))%nat = true).
    { apply Nat.leb_le. rewrite !string_length_app.
      change (String.length pre) with 12%nat. change (String.length suf) with 2%nat.
      destruct n; [congruence | cbn; lia]. }
    rewrite Hs, He, Hl. cbn [andb].
    replace (String.length (pre ++ n ++ suf) - 14)%nat with (String.length n).
    + change 12%nat with (String.length pre). rewrite substring_middle, Ha.
      reflexivity.
    + rewrite !string_length_app.
      change (String.length pre) with 12%nat. change (String.length suf) with 2%nat.
      lia.
Qed.

(** X8. A URL that extends a trivial non-empty URL is trivial as well:
    only the start of the URL is looked at. *)
Theorem trivial_url_closed_under_extension (u v : string) :
  u <> ""%string ->
  isTrivialUrl (Some u) = true ->
  isTrivialUrl (Some (u ++ v)%string) = true.
Proof.
  intros Hne H. destruct u as [ | c u ]; [congruence | ].
  cbn [append]. unfold isTrivialUrl in *.
  apply existsb_exists in H. destruct H as (p & Hin & Hp).
  apply existsb_exists. exists p. split; [exact Hin | ].
  apply (prefix_app_r p (String c u) v Hp).
Qed.

Lemma trivial_url_closed_under_extension_witness :
  isTrivialUrl (Some ("about:blank" ++ "#top")%string) = true.
Proof.
  apply trivial_url_closed_under_extension; [discriminate | reflexivity].
Defined.

(** X9. No URL that starts with [http] is trivial: a navigation to a web
    address is never suppressed. *)
Theorem web_url_is_never_trivial (u : string) :
  Js.startsWith u "http" = true -> isTrivialUrl (Some u) = false.
Proof.
  intros H. destruct (prefix_inv "http" u H) as [r ->]. reflexivity.
Qed.

Lemma web_url_is_never_trivial_witness :
  isTrivialUrl (Some "https://example.com/a/b?x=1") = false.
Proof. apply web_url_is_never_trivial. reflexivity. Defined.

Lemma expectationOfSignal_kind s :
  match expectationOfSignal s with
  | Some e => isKnownSignal s = true /\ prop "expect" e = VStr (signalName s)
  | None => isKnownSignal s = false
  end.
Proof.
  unfold expectationOfSignal, isKnownSignal. cbn [existsb].
  destruct (String.eqb (signalName s) "navigation") eqn:E1.
  { apply String.eqb_eq in E1. rewrite E1.
    destruct (toUrlHint (signalUrl s)); split; reflexivity. }
  destruct (String.eqb (signalName s) "popup") eqn:E2.
  { apply String.eqb_eq in E2. rewrite E2. split; reflexivity. }
  destruct (String.eqb (signalName s) "download") eqn:E3.
  { apply String.eqb_eq in E3. rewrite E3. split; reflexivity. }
  destruct (String.eqb (signalName s) "dialog") eqn:E4.
  { apply String.eqb_eq in E4. rewrite E4. split; reflexivity. }
  reflexivity.
Qed.

Lemma expectationsOf_kinds l :
  map (prop "expect") (expectationsOf l) =
  map (fun s => VStr (signalName s)) (filter isKnownSignal l).
Proof.
  induction l as [ | s l IH ]; [reflexivity | ].
  cbn [expectationsOf filter].
  pose proof (expectationOfSignal_kind s) as H.
  destruct (expectationOfSignal s) as [e | ].
  - destruct H as [-> H]. cbn [map]. now rewrite H, IH.
  - now rewrite H.
Qed.

(** X10. The expectations of an action are one per signal of a known kind
    (navigation, popup, download, dialog), in the order of the signals
    and tagged with the kind; signals of other kinds are left out, and
    the result is never an empty array. *)
Theorem expectations_follow_known_signals (a : Action) :
  map (prop "expect") (itemsOf (expectFromSignals a)) =
    map (fun s => VStr (signalName s))
      (filter isKnownSignal (match signals a with Some l => l | None => [] end)) /\
  expectFromSignals a <> VArr [].
Proof.
  unfold expectFromSignals.
  destruct (signals a) as [ [ | s l ] | ]; try (split; [reflexivity | discriminate]).
  rewrite <- expectationsOf_kinds.
  destruct (expectationsOf (s :: l)); split; try reflexivity; discriminate.
Qed.

End SmallHelpers.

(* ===================================================================== *)
(** ** The rules of [parseTextSpec]                                       *)
(* ===================================================================== *)

Section TextSpecRules.

Context {host : Host}.

Lemma parseRegexLiteral_shape input m :
  parseRegexLiteral input = Some m -> exists src fl, m = regexText src fl.
Proof.
  unfold parseRegexLiteral.
  destruct (matchRegexLiteral input) as [ [b f] | ]; [ | discriminate].
  destruct (RegExp_new b f) as [ [src fl] | ]; [ | discriminate].
  intros H. injection H as <-. now exists src, fl.
Qed.

Lemma parseSuffixForm_shape input m :
  parseSuffixForm input = Some m -> isTextMatcher m = true.
Proof.
  unfold parseSuffixForm.
  destruct (Js.endsWith input (QUOTE ++ "s") || Js.endsWith input (QUOTE ++ "i"));
    [ | discriminate].
  destruct (Js.startsWith _ QUOTE && Js.endsWith _ QUOTE); [ | discriminate].
  destruct (parseJsonString _) as [decoded | ]; [ | discriminate].
  destruct (match Js.at_ input (-1) with Some c => Ascii.eqb c "s" | None => false end);
    intros H; injection H as <-; reflexivity.
Qed.

Lemma parsePlainQuoted_shape input m :
  parsePlainQuoted input = Some m -> exists s, m = VStr s.
Proof.
  unfold parsePlainQuoted.
  destruct (Js.startsWith input QUOTE && Js.endsWith input QUOTE); [ | discriminate].
  destruct (parseJsonString input) as [decoded | ]; [ | discriminate].
  intros H. injection H as <-. now exists decoded.
Qed.

(** X11. [parseTextSpec] gives [undefined] exactly on an absent or empty
    input; on every other input it gives one of the three matcher forms:
    a plain string, an exact matcher or a pattern with flags. *)
Theorem parseTextSpec_is_a_matcher (input : option string) :
  match input with
  | None | Some EmptyString => parseTextSpec input = VUndef
  | Some _ => isTextMatcher (parseTextSpec input) = true
  end.
Proof.
  destruct input as [ [ | c s ] | ]; try reflexivity.
  unfold parseTextSpec.
  destruct (parseRegexLiteral (String c s)) as [m | ] eqn:Hr.
  { destruct (parseRegexLiteral_shape _ _ Hr) as (src & fl & ->). reflexivity. }
  destruct (parseSuffixForm (String c s)) as [m | ] eqn:Hs.
  { exact (parseSuffixForm_shape _ _ Hs). }
  destruct (parsePlainQuoted (String c s)) as [m | ] eqn:Hp.
  { destruct (parsePlainQuoted_shape _ _ Hp) as (d & ->). reflexivity. }
  reflexivity.
Qed.

Lemma matchRegexLiteral_other c s :
  c <> "/"%char -> matchRegexLiteral (String c s) = None.
Proof.
  intros Hne. destruct c as [b0 b1 b2 b3 b4 b5 b6 b7].
  destruct b0, b1, b2, b3, b4, b5, b6, b7; try reflexivity.
  now contradiction Hne.
Qed.

Lemma startsWith_slice_other c q s e :
  c <> q -> Js.startsWith (Js.slice (String c s) 0 e) (String q "") = false.
Proof.
  intros Hne. unfold Js.startsWith, Js.slice.
  replace (Js.relIndex (String.length (String c s)) 0) with 0%nat by reflexivity.
  generalize (Js.relIndex (String.length (String c s)) e - 0)%nat. intros k.
  destruct k; cbn; [reflexivity | ].
  destruct (ascii_dec q c); [congruence | reflexivity].
Qed.

Lemma parseSuffixForm_other c s :
  c <> "034"%char -> parseSuffixForm (String c s) = None.
Proof.
  intros Hne. unfold parseSuffixForm.
  destruct (_ || _); [ | reflexivity].
  unfold QUOTE at 1. now rewrite startsWith_slice_other.
Qed.

(** X12. A text that starts neither with a slash nor with a double quote
    is a plain-text matcher: it is returned as it is. *)
Theorem parseTextSpec_keeps_plain_text (c : ascii) (s : string) :
  c <> "/"%char -> c <> "034"%char ->
  parseTextSpec (Some (String c s)) = VStr (String c s).
Proof.
  intros Hslash Hquote. unfold parseTextSpec, parseRegexLiteral.
  rewrite (matchRegexLiteral_other c s Hslash), (parseSuffixForm_other c s Hquote).
  unfold parsePlainQuoted, Js.startsWith, QUOTE. cbn [String.prefix].
  destruct (ascii_dec "034" c); [congruence | reflexivity].
Qed.

Lemma last_char_inj a : forall b c d,
  (a ++ String c "")%string = (b ++ String d "")%string -> c = d.
Proof.
  induction a as [ | x a IH ]; intros b c d H; destruct b as [ | y b ]; cbn in H.
  - congruence.
  - injection H as _ H. destruct b; discriminate.
  - injection H as _ H. destruct a; discriminate.
  - injection H as _ H. exact (IH _ _ _ H).
Qed.

Lemma endsWith_last_char x c p d :
  Js.endsWith (x ++ String c "") (p ++ String d "") = true -> c = d.
Proof.
  intros H. destruct (endsWith_inv _ _ H) as [pre E].
  rewrite <- string_app_assoc in E. exact (last_char_inj _ _ _ _ E).
Qed.

Lemma parseSuffixForm_quoted q :
  Js.endsWith q QUOTE = true -> parseSuffixForm q = None.
Proof.
  intros H. destruct (endsWith_inv _ _ H) as [pre ->].
  unfold parseSuffixForm, QUOTE.
  destruct (Js.endsWith _ (String "034" "" ++ "s")) eqn:E1.
  { apply (endsWith_last_char pre "034" (String "034" "") "s") in E1. discriminate. }
  destruct (Js.endsWith _ (String "034" "" ++ "i")) eqn:E2.
  { apply (endsWith_last_char pre "034" (String "034" "") "i") in E2. discriminate. }
  reflexivity.
Qed.

(** X13. A text in double quotes without suffix is decoded as a JSON
    string and matched as plain text; when it does not decode, the text
    is kept as it is, quotes included. *)
Theorem parseTextSpec_decodes_quoted_text (q : string) :
  Js.startsWith q QUOTE = true ->
  Js.endsWith q QUOTE = true ->
  parseTextSpec (Some q) =
    VStr (match parseJsonString q with Some decoded => decoded | None => q end).
Proof.
  intros Hs He. destruct (startsWith_quote _ Hs) as [rest ->].
  unfold parseTextSpec.
  replace (parseRegexLiteral (String "034" rest)) with (@None value) by reflexivity.
  rewrite (parseSuffixForm_quoted _ He).
  unfold parsePlainQuoted. rewrite Hs, He. cbn [andb].
  destruct (parseJsonString (String "034" rest)); reflexivity.
Qed.

Lemma splitLastSlash_none f :
  allChars isFlagChar f = true -> splitLastSlash f = None.
Proof.
  induction f as [ | c f IH ]; cbn [allChars splitLastSlash]; [reflexivity | ].
  intros H. apply andb_true_iff in H. destruct H as [Hc Hf].
  rewrite (IH Hf).
  destruct (Ascii.eqb_spec c "/") as [-> | _]; [discriminate | reflexivity].
Qed.

Lemma splitLastSlash_app b f :
  allChars isFlagChar f = true ->
  splitLastSlash (b ++ String "/" f) = Some (b, f).
Proof.
  intros Hf. induction b as [ | c b IH ]; cbn [append splitLastSlash].
  - now rewrite (splitLastSlash_none _ Hf).
  - now rewrite IH.
Qed.

(** X14. A regex literal, a slash, a source, a slash and flag letters, is
    a pattern matcher carrying the source and flags of the regular
    expression the engine builds from it; when the engine rejects it, the
    literal is kept as plain text. *)
Theorem parseTextSpec_reads_regex_literal (b f : string) :
  allChars isFlagChar f = true ->
  parseTextSpec (Some ("/" ++ b ++ "/" ++ f)%string) =
    match RegExp_new b f with
    | Some (src, fl) => regexText src fl
    | None => VStr ("/" ++ b ++ "/" ++ f)%string
    end.
Proof.
  intros Hf. change ("/" ++ b ++ "/" ++ f)%string with (String "/" (b ++ String "/" f)).
  unfold parseTextSpec, parseRegexLiteral, matchRegexLiteral.
  rewrite (splitLastSlash_app b f Hf), Hf.
  destruct (RegExp_new b f) as [ [src fl] | ]; [reflexivity | ].
  rewrite parseSuffixForm_other by discriminate.
  reflexivity.
Qed.

End TextSpecRules.

Lemma parseTextSpec_decodes_quoted_text_witness :
  parseTextSpec (host := Examples.host) (Some (Examples.quoted "Sign in")) =
    VStr "Sign in".
Proof.
  apply (@parseTextSpec_decodes_quoted_text Examples.host (Examples.quoted "Sign in"));
    reflexivity.
Defined.

Lemma parseTextSpec_reads_regex_literal_witness :
  parseTextSpec (host := Examples.host) (Some "/Go+/i") = regexText "Go+" "i".
Proof.
  apply (@parseTextSpec_reads_regex_literal Examples.host "Go+" "i"). reflexivity.
Defined.

Lemma parseTextSpec_keeps_plain_text_witness :
  parseTextSpec (host := Examples.host) (Some "Sign in") = VStr "Sign in".
Proof.
  apply (@parseTextSpec_keeps_plain_text Examples.host "S" "ign in"); discriminate.
Defined.

(* ===================================================================== *)
(** ** Secret masking                                                     *)
(* ===================================================================== *)

Section Masking.

Context {host : Host}.

Import Revised.

(** X15. Masking either leaves the text as it is or replaces it as a
    whole by the password placeholder; an absent text stays absent, and
    without an element nothing is masked. *)
Theorem maybeMaskValue_keeps_or_replaces (el : value) (text r : option string) :
  maybeMaskValue el text = Ret r ->
  r = text \/ (r = Some ENV_PASSWORD /\ text <> None /\ truthy el = true).
Proof.
  unfold maybeMaskValue. destruct (truthy el) eqn:Ht; cbn [negb].
  - destruct text as [t | ]; [ | intros [= <-]; now left].
    destruct el; try discriminate; try (intros [= <-]; now left).
    destruct (looksSecret entries) as [ [ | ] | e | ]; cbn [bind];
      try discriminate; intros [= <-].
    + right. repeat split. discriminate.
    + now left.
  - intros [= <-]. now left.
Qed.

Lemma maybeMaskValue_keeps_or_replaces_witness :
  Some ENV_PASSWORD = Some "hunter2" \/
  (Some ENV_PASSWORD = Some ENV_PASSWORD /\ Some "hunter2" <> None /\
   truthy (VObj [("testId", VStr "login-password")]) = true).
Proof.
  apply (maybeMaskValue_keeps_or_replaces
           (VObj [("testId", VStr "login-password")]) (Some "hunter2")).
  reflexivity.
Defined.

Lemma isTextMatcher_inv m :
  isTextMatcher m = true ->
  (exists s, m = VStr s) \/ (exists s, m = exactText s) \/
  (exists p f, m = regexText p f).
Proof.
  unfold isTextMatcher, exactText, regexText.
  destruct m as [ | | | | s | | | es ]; try discriminate.
  - intros _. left. now exists s.
  - destruct es as [ | [k1 v1] [ | [k2 v2] [ | e es ] ] ]; try discriminate;
      destruct v1; try discriminate; destruct v2 as [ | | [ | ] | | f | | | ];
      try discriminate; intros H; apply andb_true_iff in H; destruct H as [H1 H2];
      apply String.eqb_eq in H1, H2; subst; right; [left | right]; eauto.
Qed.

Lemma matchText_matcher m :
  isTextMatcher m = true -> matchText m = Ret (Js.testSecret (matcherText m)).
Proof.
  intros H. destruct (isTextMatcher_inv m H) as [ [s ->] | [ [s ->] | (p & f & ->) ] ].
  - reflexivity.
  - unfold matchText, exactText, matcherText. cbn [hasKey getKey String.eqb Ascii.eqb
      Bool.eqb orb andb]. cbv beta iota.
    destruct (Js.testSecret s); reflexivity.
  - unfold matchText, regexText, matcherText. cbn [hasKey getKey String.eqb Ascii.eqb
      Bool.eqb orb andb]. cbv beta iota.
    destruct (Js.testSecret p); reflexivity.
Qed.

(** X16. For an element that is a label, a placeholder or a text with a
    well-formed matcher, the filled text is masked exactly when the text
    of the matcher (the string, the exact value or the pattern) looks
    like a secret. *)
Theorem matcher_fields_are_masked_by_their_text (k : string) (m : value) (t : string) :
  In k ["label"; "placeholder"; "text"]%string ->
  isTextMatcher m = true ->
  maybeMaskValue (VObj [(k, m)]) (Some t) =
    Ret (Some (if Js.testSecret (matcherText m) then ENV_PASSWORD else t)).
Proof.
  intros Hk Hm. pose proof (matchText_matcher m Hm) as Hmt.
  unfold maybeMaskValue, looksSecret. cbn [truthy negb].
  destruct Hk as [<- | [<- | [<- | [] ] ] ];
    cbn [hasKey getKey String.eqb Ascii.eqb Bool.eqb orb andb]; cbv beta iota;
    rewrite Hmt; cbn [bind]; destruct (Js.testSecret (matcherText m)); reflexivity.
Qed.

Lemma matcher_fields_are_masked_by_their_text_witness :
  maybeMaskValue (VObj [("label", exactText "Password")]) (Some "hunter2") =
    Ret (Some ENV_PASSWORD).
Proof.
  apply (matcher_fields_are_masked_by_their_text "label" (exactText "Password")
           "hunter2"); [now left | reflexivity].
Defined.

End Masking.

(* ===================================================================== *)
(** ** The base part and the filters, further cases                       *)
(* ===================================================================== *)

Section MapperCases.

Context {host : Host}.

Import Revised.




Lemma skipIgnored_at pre p post :
  setHas IGNORE_ENGINES (partName p) = false ->
  skipIgnored (pre ++ p :: post) (S (List.length pre)) = Z.of_nat (List.length pre).
Proof.
  intros Hi. cbn [skipIgnored]. unfold ignoredAt.
  rewrite nth_error_app2 by lia. rewrite Nat.sub_diag. cbn [nth_error].
  now rewrite Hi.
Qed.

(** X18. When the parsed chain carries a capture index, the part at that
    index is the base part, provided it is not a describe part: the
    element is mapped from it, filter engine or not, and the filters from
    the parts after it. *)
Theorem captured_part_is_the_base (fuel : nat) (raw : string)
    (parsed : ParsedSelector) (pre post : list ParsedSelectorPart)
    (p : ParsedSelectorPart) :
  raw <> ""%string ->
  parseSelector raw = Some parsed ->
  parts parsed = pre ++ p :: post ->
  capture parsed = Some (Z.of_nat (List.length pre)) ->
  setHas IGNORE_ENGINES (partName p) = false ->
  elementFromParsedSelector (S fuel) (Some raw) = mappedFrom fuel parsed p post.
Proof.
  intros Hraw Hparse Hparts Hcap Hi.
  apply elementFromParsedSelector_at with (pre := pre); try assumption.
  unfold resolveBaseIndex. rewrite Hcap.
  assert (H0 : (Z.of_nat (List.length pre) >=? 0) = true) by (apply Z.geb_le; lia).
  rewrite H0, H0.
  replace (Z.to_nat (Z.of_nat (List.length pre) + 1)) with (S (List.length pre)) by lia.
  rewrite Hparts. now apply skipIgnored_at.
Qed.

Lemma skipIgnored_all_ignored ps n :
  Forall (fun q => setHas IGNORE_ENGINES (partName q) = true) ps ->
  skipIgnored ps n = -1 \/ Z.of_nat (List.length ps) <= skipIgnored ps n.
Proof.
  intros Hall. induction n as [ | i IH ]; cbn [skipIgnored]; [now left | ].
  unfold ignoredAt. destruct (nth_error ps i) as [q | ] eqn:E.
  - rewrite Forall_forall in Hall. rewrite (Hall q (nth_error_In _ _ E)). exact IH.
  - right. apply nth_error_None in E. lia.
Qed.

Lemma resolve_all_ignored ps b :
  Forall (fun q => setHas IGNORE_ENGINES (partName q) = true) ps ->
  (if b >=? 0 then skipIgnored ps (Z.to_nat (b + 1)) else b) < 0 \/
  Z.of_nat (List.length ps) <= (if b >=? 0 then skipIgnored ps (Z.to_nat (b + 1)) else b).
Proof.
  intros Hall. destruct (Z.geb_spec b 0) as [Hb | Hb]; [ | now left].
  destruct (skipIgnored_all_ignored ps (Z.to_nat (b + 1)) Hall) as [E | E].
  - left. rewrite E. lia.
  - now right.
Qed.

(** X19. A chain made of describe parts only, the empty chain included,
    has no base part: the result is the raw selector as a css element,
    without filters, whatever the capture index. *)
Theorem chain_of_ignored_parts_is_raw_css (fuel : nat) (raw : string)
    (parsed : ParsedSelector) :
  raw <> ""%string ->
  parseSelector raw = Some parsed ->
  Forall (fun q => setHas IGNORE_ENGINES (partName q) = true) (parts parsed) ->
  elementFromParsedSelector (S fuel) (Some raw) = Ret (cssFallback raw).
Proof.
  intros Hraw Hparse Hall.
  cbn [elementFromParsedSelector]. unfold elementFromParsedSelector_body.
  destruct raw as [ | c raw' ]; [contradiction | ].
  rewrite Hparse.
  assert (Hidx : resolveBaseIndex parsed < 0 \/
                 Z.of_nat (List.length (parts parsed)) <= resolveBaseIndex parsed).
  { unfold resolveBaseIndex. cbv zeta. now apply resolve_all_ignored. }
  destruct (Z.ltb_spec (resolveBaseIndex parsed) 0) as [Hlt | Hge]; [reflexivity | ].
  destruct Hidx as [Hneg | Hbig]; [lia | ].
  assert (Hnone : nth_error (parts parsed) (Z.to_nat (resolveBaseIndex parsed)) = None).
  { apply nth_error_None. lia. }
  now rewrite Hnone.
Qed.

Lemma scanBase_none ps n :
  Forall (fun q => passedOver q = true) ps -> scanBase ps n = -1.
Proof.
  intros Hall. induction n as [ | i IH ]; cbn [scanBase]; [reflexivity | ].
  destruct (nth_error ps i) as [q | ] eqn:E; [ | exact IH].
  rewrite Forall_forall in Hall. specialize (Hall q (nth_error_In _ _ E)).
  unfold passedOver in Hall.
  destruct (String.eqb (partName q) ""); [exact IH | ].
  destruct (setHas IGNORE_ENGINES (partName q)); [exact IH | ].
  rewrite orb_false_r in Hall. rewrite Hall. exact IH.
Qed.

Lemma skipIgnored_back pre p post k :
  (k <= List.length post)%nat ->
  setHas IGNORE_ENGINES (partName p) = false ->
  Forall (fun q => setHas IGNORE_ENGINES (partName q) = true) post ->
  skipIgnored (pre ++ p :: post) (List.length pre + 1 + k) = Z.of_nat (List.length pre).
Proof.
  intros Hk Hi Hpost. induction k as [ | k IHk ].
  - replace (List.length pre + 1 + 0)%nat with (S (List.length pre)) by lia.
    now apply skipIgnored_at.
  - replace (List.length pre + 1 + S k)%nat with (S (List.length pre + 1 + k)) by lia.
    cbn [skipIgnored]. unfold ignoredAt. rewrite nth_error_app2 by lia.
    replace (List.length pre + 1 + k - List.length pre)%nat with (S k) by lia.
    cbn [nth_error].
    destruct (nth_error post k) as [q | ] eqn:E.
    + rewrite Forall_forall in Hpost. rewrite (Hpost q (nth_error_In _ _ E)).
      apply IHk. lia.
    + apply nth_error_None in E. lia.
Qed.

Lemma filterParts_ignored rec post : forall acc,
  Forall (fun q => setHas IGNORE_ENGINES (partName q) = true) post ->
  filterParts rec acc post = Ret acc.
Proof.
  induction post as [ | q post IH ]; intros acc Hpost; [reflexivity | ].
  inversion Hpost as [ | ? ? Hq Hrest ]; subst.
  cbn [filterParts]. unfold filterPart. destruct acc as [filters nth].
  unfold setHas, IGNORE_ENGINES in Hq. cbn [existsb] in Hq.
  rewrite orb_false_r in Hq. rewrite Hq. cbn [bind]. now apply IH.
Qed.

Lemma elementOfBasePart_filter parsed p :
  setHas FILTER_ENGINES (partName p) = true ->
  setHas IGNORE_ENGINES (partName p) = false /\
  elementOfBasePart parsed p = Ret [("css", VStr (stringifySelector parsed))].
Proof.
  intros H. unfold setHas, FILTER_ENGINES in H. apply existsb_exists in H.
  destruct H as (n & Hin & Hn). apply String.eqb_eq in Hn.
  unfold elementOfBasePart. rewrite Hn.
  destruct Hin as [<- | [<- | [<- | [<- | [<- | [<- | [] ] ] ] ] ] ];
    split; reflexivity.
Qed.

(** X20. In a chain without capture whose parts are all filter or
    describe parts, the last filter part stands in as base part: the
    element is the whole chain, stringified, as a css element, and no
    filter is read from any part. *)
Theorem chain_of_filters_is_stringified_css (fuel : nat) (raw : string)
    (parsed : ParsedSelector) (pre post : list ParsedSelectorPart)
    (p : ParsedSelectorPart) :
  raw <> ""%string ->
  parseSelector raw = Some parsed ->
  (forall c, capture parsed = Some c -> c < 0) ->
  parts parsed = pre ++ p :: post ->
  Forall (fun q => passedOver q = true) pre ->
  setHas FILTER_ENGINES (partName p) = true ->
  Forall (fun q => setHas IGNORE_ENGINES (partName q) = true) post ->
  elementFromParsedSelector (S fuel) (Some raw) =
    Ret (VObj [("element", VObj [("css", VStr (stringifySelector parsed))]);
               ("filters", VUndef); ("nth", VUndef)]).
Proof.
  intros Hraw Hparse Hcap Hparts Hpre Hp Hpost.
  destruct (elementOfBasePart_filter parsed p Hp) as [Hi Hel].
  assert (Hall : Forall (fun q => passedOver q = true) (parts parsed)).
  { rewrite Hparts. apply Forall_app. split; [exact Hpre | ].
    constructor.
    - unfold passedOver. now rewrite Hp.
    - eapply Forall_impl; [ | exact Hpost].
      intros q Hq. unfold passedOver. rewrite Hq. apply orb_true_r. }
  assert (Hbase : resolveBaseIndex parsed = Z.of_nat (List.length pre)).
  { unfold resolveBaseIndex. cbv zeta. rewrite (scanBase_none _ _ Hall).
    change (-1 =? -1) with true. cbv iota.
    assert (Hlen : Z.of_nat (List.length (parts parsed)) - 1 =
                   Z.of_nat (List.length pre + List.length post)).
    { rewrite Hparts, length_app. cbn [List.length]. lia. }
    rewrite Hlen.
    assert (Hge : (Z.of_nat (List.length pre + List.length post) >=? 0) = true)
      by (apply Z.geb_le; lia).
    assert (Hskip : skipIgnored (parts parsed)
                      (Z.to_nat (Z.of_nat (List.length pre + List.length post) + 1)) =
                    Z.of_nat (List.length pre)).
    { replace (Z.to_nat (Z.of_nat (List.length pre + List.length post) + 1))
        with (List.length pre + 1 + List.length post)%nat by lia.
      rewrite Hparts. now apply skipIgnored_back. }
    destruct (capture parsed) as [c | ] eqn:Hc.
    - assert (Hneg : (c >=? 0) = false) by (specialize (Hcap c eq_refl); lia).
      rewrite Hneg. cbv iota. rewrite Hge. exact Hskip.
    - rewrite Hge. exact Hskip. }
  rewrite (elementFromParsedSelector_at fuel raw parsed pre p post
             Hraw Hparse Hparts Hbase).
  unfold mappedFrom. rewrite Hel. cbn [bind].
  rewrite (filterParts_ignored _ post _ Hpost). reflexivity.
Qed.

Lemma filterPart_keeps_nth rec acc q acc' :
  nthOf q = None ->
  filterPart rec acc q = Ret acc' ->
  snd acc' = snd acc.
Proof.
  unfold nthOf, filterPart. destruct acc as [filters nth]. intros Hn.
  repeat match goal with
  | |- context [String.eqb (partName q) ?s] =>
      destruct (String.eqb (partName q) s) eqn:?; cbv iota
  end;
    try (intros [= <-]; reflexivity);
    try (destruct (parseTextSpecOfBody (partBody q)); cbn [bind];
         try discriminate; intros [= <-]; reflexivity).
  - destruct (nestedFilter rec filters "has" (partBody q)); cbn [bind];
      try discriminate; intros [= <-]; reflexivity.
  - destruct (nestedFilter rec filters "hasNot" (partBody q)); cbn [bind];
      try discriminate; intros [= <-]; reflexivity.
  - rewrite Hn. intros [= <-]. reflexivity.
Qed.

Lemma filterParts_keep_nth rec post : forall acc acc',
  Forall (fun q => nthOf q = None) post ->
  filterParts rec acc post = Ret acc' ->
  snd acc' = snd acc.
Proof.
  induction post as [ | q post IH ]; intros acc acc' Hpost; cbn [filterParts].
  - intros [= <-]. reflexivity.
  - inversion Hpost as [ | ? ? Hq Hrest ]; subst.
    destruct (filterPart rec acc q) as [acc1 | e | ] eqn:E; cbn [bind];
      try discriminate.
    intros H. rewrite (IH _ _ Hrest H). exact (filterPart_keeps_nth _ _ _ _ Hq E).
Qed.

Lemma toFiniteDouble_exact n :
  0 <= n < 2 ^ 53 -> Js.toFiniteDouble n = Some n.
Proof.
  intros [Hlo Hhi]. unfold Js.toFiniteDouble. cbv zeta.
  destruct (Z.leb_spec (Z.log2 n + 1) 53) as [_ | Hbits]; [reflexivity | ].
  exfalso. destruct (Z.eq_dec n 0) as [-> | Hn]; [cbn in Hbits; lia | ].
  assert (Hlog : Z.log2 n < 53) by (apply Z.log2_lt_pow2; lia).
  lia.
Qed.

(** What [parseInt] reads, and what [Number.isFinite] lets through:
    leading blanks and a sign are skipped, the digits stop at the first
    other character, an integer beyond 2^53 is rounded to the nearest
    double, and about 309 digits or more give an infinity, which is not
    let through. *)
Lemma parseInt10_reads_finite_doubles :
  Js.parseInt10 "2" = Some 2 /\
  Js.parseInt10 " -12px" = Some (-12) /\
  Js.parseInt10 "last" = None /\
  Js.parseInt10 "9007199254740993" = Some 9007199254740992 /\
  Js.parseInt10 "99999999999999999999999" = Some 99999999999999991611392 /\
  Js.parseInt10 (nines 308) <> None /\
  Js.parseInt10 (nines 309) = None /\
  Js.parseInt10 (nines 400) = None.
Proof. repeat split; try (vm_compute; reflexivity). vm_compute. discriminate. Qed.

(** X21. Among the parts after the base part, the last [nth] part whose
    body [parseInt] reads as a finite number decides the position, and
    the position is that number (the double nearest to a long run of
    digits); an [nth] part whose body reads as no number or as an
    infinity changes nothing. *)
Theorem nth_is_the_last_readable_nth
    (rec : option string -> outcome value) (acc r : value * value)
    (before after : list ParsedSelectorPart) (part : ParsedSelectorPart) (n : Z) :
  nthOf part = Some n ->
  Forall (fun q => nthOf q = None) after ->
  filterParts rec acc (before ++ part :: after) = Ret r ->
  snd r = VNum n.
Proof.
  intros Hn Hafter. rewrite filterParts_app.
  destruct (filterParts rec acc before) as [ [filters nth] | e | ]; cbn [bind];
    try discriminate.
  cbn [filterParts]. unfold filterPart at 1. unfold nthOf in Hn.
  destruct (String.eqb_spec (partName part) "nth") as [E | ]; [ | discriminate].
  rewrite E, Hn. cbn [String.eqb Ascii.eqb Bool.eqb bind]. cbv iota.
  intros H. now rewrite (filterParts_keep_nth _ _ _ _ Hafter H).
Qed.

End MapperCases.

Lemma captured_part_is_the_base_witness :
  Revised.elementFromParsedSelector
      (host := hostWith [("css=ul >> *css=li >> css=a",
                          mkParsed [mkPart "css" BodyCss "ul"; mkPart "css" BodyCss "li";
                                    mkPart "css" BodyCss "a"] (Some 1))])
      1 (Some "css=ul >> *css=li >> css=a") =
    Ret (VObj [("element", VObj [("css", VStr "li")]);
               ("filters", VUndef); ("nth", VUndef)]).
Proof.
  rewrite (@captured_part_is_the_base
             (hostWith [("css=ul >> *css=li >> css=a",
                         mkParsed [mkPart "css" BodyCss "ul"; mkPart "css" BodyCss "li";
                                   mkPart "css" BodyCss "a"] (Some 1))])
             0%nat "css=ul >> *css=li >> css=a"
             (mkParsed [mkPart "css" BodyCss "ul"; mkPart "css" BodyCss "li";
                        mkPart "css" BodyCss "a"] (Some 1))
             [mkPart "css" BodyCss "ul"] [mkPart "css" BodyCss "a"]
             (mkPart "css" BodyCss "li"));
    try reflexivity. discriminate.
Defined.

Lemma chain_of_ignored_parts_is_raw_css_witness :
  Revised.elementFromParsedSelector
      (host := hostWith [("internal:describe=note",
                          mkParsed [mkPart "internal:describe" (BodyString "note") "note"]
                            None)])
      1 (Some "internal:describe=note") =
    Ret (Revised.cssFallback "internal:describe=note").
Proof.
  apply (@chain_of_ignored_parts_is_raw_css
           (hostWith [("internal:describe=note",
                       mkParsed [mkPart "internal:describe" (BodyString "note") "note"]
                         None)])
           0%nat "internal:describe=note"
           (mkParsed [mkPart "internal:describe" (BodyString "note") "note"] None)).
  - discriminate.
  - reflexivity.
  - repeat constructor.
Defined.

Lemma chain_of_filters_is_stringified_css_witness :
  Revised.elementFromParsedSelector
      (host := hostWith [("visible=true >> nth=0",
                          mkParsed [mkPart "visible" (BodyString "true") "true";
                                    mkPart "nth" (BodyString "0") "0"] None)])
      1 (Some "visible=true >> nth=0") =
    Ret (VObj [("element", VObj [("css", VStr "visible=true >> nth=0")]);
               ("filters", VUndef); ("nth", VUndef)]).
Proof.
  apply (@chain_of_filters_is_stringified_css
           (hostWith [("visible=true >> nth=0",
                       mkParsed [mkPart "visible" (BodyString "true") "true";
                                 mkPart "nth" (BodyString "0") "0"] None)])
           0%nat "visible=true >> nth=0"
           (mkParsed [mkPart "visible" (BodyString "true") "true";
                      mkPart "nth" (BodyString "0") "0"] None)
           [mkPart "visible" (BodyString "true") "true"] []
           (mkPart "nth" (BodyString "0") "0")).
  - discriminate.
  - reflexivity.
  - discriminate.
  - reflexivity.
  - repeat constructor.
  - reflexivity.
  - constructor.
Defined.

Lemma nth_is_the_last_readable_nth_witness :
  snd (VObj [("hasText", VStr "Go")], VNum 2) = VNum 2.
Proof.
  apply (@nth_is_the_last_readable_nth Examples.host (fun _ => Ret VUndef)
           (VUndef, VUndef) (VObj [("hasText", VStr "Go")], VNum 2)
           [mkPart "nth" (BodyString "7") "7";
            mkPart "internal:has-text" (BodyString (Examples.quoted "Go"))
              (Examples.quoted "Go")]
           [mkPart "nth" (BodyString "last") "last";
            mkPart "nth" (BodyString (nines 400)) (nines 400)]
           (mkPart "nth" (BodyString "2") "2") 2).
  - reflexivity.
  - apply Forall_cons; [vm_compute; reflexivity | ].
    apply Forall_cons; [vm_compute; reflexivity | apply Forall_nil].
  - vm_compute. reflexivity.
Defined.

(* ===================================================================== *)
(** ** The structured selector and the emitter, further properties        *)
(* ===================================================================== *)

Section EmitterCases.

Context {host : Host}.

Import Revised.

Lemma getKey_setKey_same k v o : getKey k (setKey k v o) = v.
Proof.
  induction o as [ | [k0 v0] o IHo ]; cbn [setKey getKey].
  - now rewrite String.eqb_refl.
  - destruct (String.eqb_spec k k0) as [-> | Hk]; cbn [getKey].
    + now rewrite String.eqb_refl.
    + destruct (String.eqb_spec k k0); [contradiction | exact IHo].
Qed.

Lemma mapped_element_is_object fuel raw v :
  elementFromParsedSelector fuel raw = Ret v ->
  v = VUndef \/ exists o, prop "element" v = VObj o.
Proof.
  destruct fuel as [ | fuel ]; [discriminate | ].
  cbn [elementFromParsedSelector]. unfold elementFromParsedSelector_body.
  destruct raw as [ [ | c r ] | ]; try (intros [= <-]; now left).
  destruct (parseSelector (String c r)) as [parsed | ]; [ | intros [= <-]; now left].
  destruct (resolveBaseIndex parsed <? 0).
  { intros [= <-]. right. eexists. reflexivity. }
  destruct (nth_error (parts parsed) (Z.to_nat (resolveBaseIndex parsed))) as [p | ].
  - destruct (elementOfBasePart parsed p) as [element | e | ]; cbn [bind];
      try discriminate.
    destruct (filterParts _ _ _) as [fn | e | ]; cbn [bind]; try discriminate.
    intros [= <-]. right. eexists. reflexivity.
  - intros [= <-]. right. eexists. reflexivity.
Qed.

(** X22. The structured selector of an action with a selector always
    has an element, and the element is an object: the mapped element,
    or the raw selector as a css element when nothing was mapped. *)
Theorem structured_selector_has_an_element (fuel : nat) (a : ActionInContext)
    (raw : option string) (s : object) :
  selector (action a) = Some raw ->
  buildStructuredSelector fuel a = Ret s ->
  exists o, getKey "element" s = VObj o.
Proof.
  intros Hsel. unfold buildStructuredSelector. rewrite Hsel.
  destruct (elementFromParsedSelector fuel raw) as [mapped | e | ] eqn:Hm;
    cbn [bind]; try discriminate.
  match goal with
  | |- context [setKey "element" ?v ?base] =>
      set (el := v); set (selector1 := base)
  end.
  assert (Hel : exists o, el = VObj o).
  { unfold el. destruct (mapped_element_is_object fuel raw mapped Hm) as [-> | [o Ho]].
    - eexists. reflexivity.
    - rewrite Ho. eexists. reflexivity. }
  destruct Hel as [o Ho].
  assert (Hget : getKey "element"
                   (if truthy (prop "filters" mapped)
                    then setKey "filters" (prop "filters" mapped)
                           (setKey "element" el selector1)
                    else setKey "element" el selector1) = VObj o).
  { destruct (truthy (prop "filters" mapped)).
    - rewrite getKey_setKey_other by discriminate.
      now rewrite getKey_setKey_same.
    - now rewrite getKey_setKey_same. }
  destruct (prop "nth" mapped); intros [= <-]; exists o;
    try exact Hget.
  rewrite getKey_setKey_other by discriminate. exact Hget.
Qed.

Lemma keepsSettings_refl g : keepsSettings g g.
Proof. unfold keepsSettings. tauto. Qed.

Lemma keepsSettings_trans g1 g2 g3 :
  keepsSettings g1 g2 -> keepsSettings g2 g3 -> keepsSettings g1 g3.
Proof.
  unfold keepsSettings.
  intros (D1 & S1 & V1 & N1 & H1 & B1) (D2 & S2 & V2 & N2 & H2 & B2).
  repeat split; try congruence.
  - intros H. apply H2, H1, H.
  - intros H. rewrite B2; [now apply B1 | ]. now rewrite (B1 H).
Qed.

Lemma navigateStep_keeps g a g' header step :
  navigateStep g a = Built g' header step -> keepsSettings g g'.
Proof.
  unfold navigateStep. destruct (isTrivialUrl (url a)); [discriminate | ].
  unfold _emitHeaderOnce.
  destruct (isSet (metaBaseURL (_meta g))) eqn:Hset;
    destruct (_headerEmitted g) eqn:Hh;
    cbn [withBaseURL withHeaderEmitted _headerEmitted _meta _debug _seedUrl];
    rewrite ?Hh; intros [= <- _ _]; unfold keepsSettings;
    cbn [withBaseURL withHeaderEmitted _headerEmitted _meta _debug _seedUrl
         version metaName metaBaseURL];
    repeat split; try reflexivity; try congruence.
Qed.

Lemma generateActionOut_keeps fuel g a g' out :
  generateActionOut fuel g a = Ret (g', out) -> keepsSettings g g'.
Proof.
  unfold generateActionOut.
  destruct (buildStructuredSelector fuel a) as [sel | e | ]; cbn [bind];
    try discriminate.
  destruct (stepOfAction g a sel) as [b | e | ] eqn:Hstep; cbn [bind];
    try discriminate.
  destruct b as [ | g1 header step ].
  - intros [= <- _]. apply keepsSettings_refl.
  - intros [= <- _].
    destruct (String.eqb (name (action a)) "openPage"
              || String.eqb (name (action a)) "navigate") eqn:Hnav.
    + unfold stepOfAction in Hstep. rewrite Hnav in Hstep.
      injection Hstep as Hstep. exact (navigateStep_keeps _ _ _ _ _ Hstep).
    + destruct (stepOfAction_other g a sel _ Hnav Hstep) as [step' [= -> _ _]].
      apply keepsSettings_refl.
Qed.

(** X23. A sequence of [generateAction] calls changes nothing of the
    instance but the header flag and the base URL: the debug switch, the
    seed URL, the version and the scenario name stay, the header flag is
    never lowered, and a base URL that is set is never replaced. *)
Theorem generateAction_keeps_the_settings (fuel : nat) (l : list ActionInContext)
    (g g' : Generator) (outs : list (list string)) :
  run fuel g l = Ret (g', outs) -> keepsSettings g g'.
Proof.
  revert g g' outs. induction l as [ | a l IH ]; intros g g' outs; cbn [run].
  - intros [= <- _]. apply keepsSettings_refl.
  - destruct (generateActionOut fuel g a) as [ [g1 out] | e | ] eqn:Hcall;
      cbn [bind fst snd]; try discriminate.
    destruct (run fuel g1 l) as [ [g2 outs'] | e | ] eqn:Hrun;
      cbn [bind fst snd]; try discriminate.
    intros [= <- _].
    exact (keepsSettings_trans _ _ _ (generateActionOut_keeps _ _ _ _ _ Hcall)
             (IH _ _ _ Hrun)).
Qed.

(** X24. [generateHeader] with a base URL that parses re-arms the
    header: it returns the comment line, the scenario is named after the
    host of the base URL, and the next retained navigation writes the
    header block, whatever the instance had written before. *)
Theorem generateHeader_rearms_the_header (fuel : nat) (g : Generator)
    (b : string) (parsed : URL) (a : ActionInContext) (u : string) :
  b <> ""%string ->
  URL_new b = Some parsed ->
  isRetainedNavigation a = true ->
  url (action a) = Some u ->
  exists g1 g2 item,
    generateHeader g (mkOptions (Some b)) = Ret (g1, "# Generated by Genfest"%string) /\
    metaName (_meta g1) = hostname parsed /\
    metaBaseURL (_meta g1) = Some b /\
    version (_meta g1) = version (_meta g) /\
    generateActionOut fuel g1 a = Ret (g2, headerLines g1 ++ [item]) /\
    _headerEmitted g2 = true /\
    metaBaseURL (_meta g2) = Some b.
Proof.
  intros Hb Hparsed Hnav Hu.
  destruct b as [ | c b' ]; [contradiction | ].
  unfold generateHeader. cbn [baseURL orElse]. rewrite Hparsed. cbn [bind].
  eexists. eexists. eexists. split; [reflexivity | ].
  cbn [_meta metaName metaBaseURL version].
  repeat (split; [reflexivity | ]).
  rewrite (generateActionOut_retained fuel _ a u Hnav Hu).
  cbn [_meta metaBaseURL isSet _headerEmitted baseAfter withHeaderEmitted].
  repeat split.
Qed.

Lemma hasKey_setKey_other k v k' o :
  k <> k' -> hasKey k' (setKey k v o) = hasKey k' o.
Proof.
  intros Hne. induction o as [ | [k0 v0] o IHo ]; cbn [setKey hasKey].
  - destruct (String.eqb_spec k' k); [congruence | reflexivity].
  - destruct (String.eqb_spec k k0) as [-> | Hk]; cbn [hasKey].
    + reflexivity.
    + now rewrite IHo.
Qed.

Lemma isTaggedStep_setKey k v step :
  k <> "action"%string -> k <> "selector"%string ->
  isTaggedStep step -> isTaggedStep (setKey k v step).
Proof.
  intros Ha Hs (Hnd & Hsel & tag & Htag & Hne). repeat split.
  - now apply NoDup_setKey.
  - now rewrite hasKey_setKey_other.
  - exists tag. split; [ | exact Hne]. now rewrite getKey_setKey_other.
Qed.

Ltac tagged_literal :=
  repeat split;
  [ repeat constructor; cbn; intuition discriminate
  | eexists; split; [reflexivity | discriminate] ].

Lemma stepOfAction_tagged g a sel g' header step :
  stepOfAction g a sel = Ret (Built g' header step) -> isTaggedStep step.
Proof.
  unfold stepOfAction.
  destruct (String.eqb (name (action a)) "openPage"
            || String.eqb (name (action a)) "navigate").
  { unfold navigateStep. destruct (isTrivialUrl (url (action a))); [discriminate | ].
    destruct (if isSet _ then _ else _) as [h1 s1 m1 d1].
    destruct (if _headerEmitted _ then _ else _) as [g2 hd].
    intros [= _ _ <-]. tagged_literal. }
  repeat match goal with
  | |- context [if String.eqb (name (action a)) ?s then _ else _] =>
      destruct (String.eqb (name (action a)) s)
  end.
  - intros [= _ _ <-].
    repeat (apply isTaggedStep_setKey; [discriminate | discriminate | ]).
    destruct (isNum (clickCount (action a)) 2); [tagged_literal | ].
    destruct (isNum (clickCount (action a)) 1); tagged_literal.
  - destruct (maybeMaskValue _ _); cbn [bind]; try discriminate.
    intros [= _ _ <-]. tagged_literal.
  - intros [= _ _ <-]. tagged_literal.
  - intros [= _ _ <-]. tagged_literal.
  - intros [= _ _ <-]. tagged_literal.
  - intros [= _ _ <-]. tagged_literal.
  - intros [= _ _ <-]. tagged_literal.
  - intros [= _ _ <-]. destruct (isNot (action a)); tagged_literal.
  - intros [= _ _ <-]. tagged_literal.
  - intros [= _ _ <-]. tagged_literal.
  - destruct (options (action a)); [ | discriminate].
    intros [= _ _ <-]. tagged_literal.
  - intros [= _ _ <-].
    assert (Hbase : isTaggedStep
                      [("action", VStr (name (action a) ++ " (NOT SUPPORTED)"))]).
    { repeat split.
      - repeat constructor. cbn. tauto.
      - eexists. split; [reflexivity | ].
        destruct (name (action a)); discriminate. }
    destruct (_debug g); [exact Hbase | ].
    apply (isTaggedStep_setKey "debug" (VObj [("action_in_context", actionObject a)])
             [("action", VStr (name (action a) ++ " (NOT SUPPORTED)"))]);
      [discriminate | discriminate | exact Hbase].
Qed.

Lemma getKey_absent k o : hasKey k o = false -> getKey k o = VUndef.
Proof.
  induction o as [ | [k0 v0] o IHo ]; cbn [hasKey getKey]; [reflexivity | ].
  destruct (String.eqb k k0); [discriminate | exact IHo].
Qed.

Lemma hasKey_stripped rec k es :
  hasKey k es = false -> hasKey k (flat_map (strippedEntry rec) es) = false.
Proof.
  induction es as [ | [k0 v0] es IH ]; cbn [hasKey flat_map]; [reflexivity | ].
  intros H. apply orb_false_iff in H. destruct H as [Hk Hrest].
  unfold strippedEntry at 1. cbn [fst snd].
  destruct (stripEntry rec k0 v0); cbn [app hasKey]; rewrite ?Hk; now apply IH.
Qed.

Lemma getKey_stripped rec k es :
  NoDup (keys es) ->
  hasKey k es = true ->
  getKey k (flat_map (strippedEntry rec) es) =
    match stripEntry rec k (getKey k es) with Some v => v | None => VUndef end.
Proof.
  induction es as [ | [k0 v0] es IH ]; cbn [hasKey getKey flat_map keys map fst];
    [discriminate | ].
  intros Hnd Hk. inversion Hnd as [ | ? ? Hfresh Hrest ]; subst.
  unfold strippedEntry at 1. cbn [fst snd].
  destruct (String.eqb_spec k k0) as [-> | Hne].
  - assert (Habs : hasKey k0 es = false).
    { destruct (hasKey k0 es) eqn:E; [ | reflexivity].
      apply hasKey_in in E. contradiction. }
    destruct (stripEntry rec k0 v0) as [v' | ]; cbn [app getKey].
    + now rewrite String.eqb_refl.
    + apply getKey_absent. now apply hasKey_stripped.
  - cbn [orb] in Hk.
    destruct (stripEntry rec k0 v0) as [v' | ]; cbn [app getKey].
    + destruct (String.eqb_spec k k0); [contradiction | now apply IH].
    + now apply IH.
Qed.

Lemma hasKey_setKey_same k v o : hasKey k (setKey k v o) = true.
Proof.
  induction o as [ | [k0 v0] o IHo ]; cbn [setKey hasKey].
  - now rewrite String.eqb_refl.
  - destruct (String.eqb_spec k k0) as [-> | Hk]; cbn [hasKey].
    + now rewrite String.eqb_refl.
    + now rewrite IHo, orb_true_r.
Qed.

Lemma hasKey_of_getKey k o v : getKey k o = v -> v <> VUndef -> hasKey k o = true.
Proof.
  intros Hget Hv. destruct (hasKey k o) eqn:E; [reflexivity | ].
  rewrite (getKey_absent k o E) in Hget. congruence.
Qed.

(** X25. Every step that is written carries its action tag, a non-empty
    string, and the structured selector of the action stripped of its
    defaults (no selector field when nothing is left of it); default
    stripping removes neither. *)
Theorem step_carries_action_tag_and_selector (g g' : Generator)
    (a : ActionInContext) (sel : object) (header : list string) (step : object) :
  stepOfAction g a sel = Ret (Built g' header step) ->
  (exists tag, prop "action" (entryOf g a sel step) = VStr tag /\ tag <> ""%string /\
               getKey "action" step = VStr tag) /\
  prop "selector" (entryOf g a sel step) =
    match stripDefaults (VObj sel) with
    | [] => VUndef
    | kept => VObj kept
    end.
Proof.
  intros Hstep.
  destruct (stepOfAction_tagged _ _ _ _ _ _ Hstep) as (Hnd & Hsel & tag & Htag & Hne).
  unfold entryOf. cbn [prop stripDefaults].
  set (full := finishStep g a sel step).
  assert (Hfull : NoDup (keys full) /\ getKey "action" full = VStr tag /\
                  getKey "selector" full = VObj sel).
  { unfold full, finishStep. destruct (_debug g).
    - repeat split.
      + now repeat apply NoDup_setKey.
      + now rewrite !getKey_setKey_other by discriminate.
      + rewrite getKey_setKey_other by discriminate. apply getKey_setKey_same.
    - repeat split.
      + now apply NoDup_setKey.
      + now rewrite getKey_setKey_other by discriminate.
      + apply getKey_setKey_same. }
  destruct Hfull as (Hfnd & Hfa & Hfs).
  rewrite (stripLoop_flat_map stripDefaults full []) by exact Hfnd.
  cbn [app]. split.
  - exists tag. repeat split; try assumption.
    rewrite getKey_stripped; try assumption.
    + rewrite Hfa. reflexivity.
    + apply (hasKey_of_getKey _ _ _ Hfa). discriminate.
  - rewrite getKey_stripped; try assumption.
    + rewrite Hfs. unfold stripEntry. cbn [isNullish String.eqb Ascii.eqb Bool.eqb
        andb isNonArrayObject]. cbv iota.
      cbn [stripDefaults]. destruct (stripLoop stripDefaults sel []); reflexivity.
    + apply (hasKey_of_getKey _ _ _ Hfs). discriminate.
Qed.

End EmitterCases.

Lemma structured_selector_has_an_element_witness :
  exists o,
    getKey "element"
      [("page", VStr "page"); ("element", VObj [("testId", VStr "login-password")])]
    = VObj o.
Proof.
  apply (@structured_selector_has_an_element Examples.host 1
           (Examples.fill Examples.loginRaw "hunter2") (Some Examples.loginRaw));
    reflexivity.
Defined.

Lemma generateAction_keeps_the_settings_witness :
  keepsSettings Examples.configured
    (Revised.withHeaderEmitted Examples.configured true).
Proof.
  apply (@generateAction_keeps_the_settings Examples.host 1
           [Examples.navigate "about:blank";
            Examples.navigate "https://example.com/a/b?x=1"; Examples.closePage]
           Examples.configured (Revised.withHeaderEmitted Examples.configured true)
           [[];
            Revised.headerLines (host := Examples.host) Examples.configured ++
            [formatAsYamlListItem (host := Examples.host)
               (VObj [("action", VStr "navigate"); ("url", VStr "/a/b?x=1");
                      ("selector", VObj [("page", VStr "page")])])
               Revised.YAML_DUMP_OPTIONS];
            [formatAsYamlListItem (host := Examples.host)
               (VObj [("action", VStr "closePage");
                      ("selector", VObj [("page", VStr "page")])])
               Revised.YAML_DUMP_OPTIONS]]).
  vm_compute. reflexivity.
Defined.

Lemma generateHeader_rearms_the_header_witness :
  exists g1 g2 item,
    Revised.generateHeader (host := Examples.host)
        (Revised.withHeaderEmitted Examples.configured true)
        (mkOptions (Some "https://other.com/")) =
      Ret (g1, "# Generated by Genfest"%string) /\
    Revised.metaName (Revised._meta g1) = "other.com"%string /\
    Revised.metaBaseURL (Revised._meta g1) = Some "https://other.com/"%string /\
    Revised.version (Revised._meta g1) = "0.2"%string /\
    Revised.generateActionOut (host := Examples.host) 1 g1
        (Examples.navigate "https://example.com/a/b?x=1") =
      Ret (g2, Revised.headerLines (host := Examples.host) g1 ++ [item]) /\
    Revised._headerEmitted g2 = true /\
    Revised.metaBaseURL (Revised._meta g2) = Some "https://other.com/"%string.
Proof.
  apply (@generateHeader_rearms_the_header Examples.host 1
           (Revised.withHeaderEmitted Examples.configured true)
           "https://other.com/"
           {| origin := "https://other.com"; protocol := "https:";
              hostname := "other.com"; pathname := "/"; search := ""; hash := "" |}
           (Examples.navigate "https://example.com/a/b?x=1")
           "https://example.com/a/b?x=1");
    try reflexivity. discriminate.
Defined.

Lemma step_carries_action_tag_and_selector_witness :
  (exists tag,
      prop "action"
        (Revised.entryOf (host := Examples.host) Revised.initial Examples.closePage
           [("page", VStr "page")] [("action", VStr "closePage")]) = VStr tag /\
      tag <> ""%string /\
      getKey "action" [("action", VStr "closePage")] = VStr tag) /\
  prop "selector"
    (Revised.entryOf (host := Examples.host) Revised.initial Examples.closePage
       [("page", VStr "page")] [("action", VStr "closePage")]) =
    VObj [("page", VStr "page")].
Proof.
  apply (@step_carries_action_tag_and_selector Examples.host Revised.initial
           Revised.initial Examples.closePage [("page", VStr "page")] []
           [("action", VStr "closePage")]).
  reflexivity.
Defined.

(* ===================================================================== *)
(** ** The layout of a list item                                          *)
(* ===================================================================== *)

Section ListItem.

Context {host : Host}.

Lemma normalizeNewlines_noCR_bounded n : forall s,
  (String.length s <= n)%nat -> allChars noCR (normalizeNewlines s) = true.
Proof.
  induction n as [ | n IH ]; intros s Hlen.
  - destruct s; [reflexivity | cbn in Hlen; lia].
  - destruct s as [ | c rest ]; [reflexivity | ].
    cbn [String.length] in Hlen. cbn [normalizeNewlines].
    destruct (Ascii.eqb c "013") eqn:Ec.
    + destruct rest as [ | c' rest' ]; [reflexivity | ].
      cbn [String.length] in Hlen.
      destruct (Ascii.eqb c' "010"); cbn [allChars noCR]; cbn [Ascii.eqb Bool.eqb negb andb].
      * apply IH. lia.
      * apply (IH (String c' rest')). cbn [String.length]. lia.
    + cbn [allChars]. unfold noCR at 1. rewrite Ec. cbn [negb andb].
      apply IH. lia.
Qed.

Lemma normalizeNewlines_noCR s : allChars noCR (normalizeNewlines s) = true.
Proof. apply (normalizeNewlines_noCR_bounded (String.length s)). lia. Qed.

Lemma splitLines_nonempty s : splitLines s <> [].
Proof.
  destruct s as [ | c rest ]; cbn [splitLines]; [discriminate | ].
  destruct (Ascii.eqb c "010"); [discriminate | ].
  destruct (splitLines rest); discriminate.
Qed.

Lemma splitLines_allChars f s :
  allChars f s = true -> Forall (fun l => allChars f l = true) (splitLines s).
Proof.
  induction s as [ | c rest IH ]; cbn [splitLines allChars]; intros H.
  - repeat constructor.
  - apply andb_true_iff in H. destruct H as [Hc Hrest]. specialize (IH Hrest).
    destruct (Ascii.eqb c "010").
    + constructor; [reflexivity | exact IH].
    + destruct (splitLines rest) as [ | l ls ].
      * repeat constructor. cbn. now rewrite Hc.
      * inversion IH as [ | ? ? Hl Hls ]; subst.
        constructor; [ | exact Hls]. cbn. now rewrite Hc, Hl.
Qed.

Lemma join_allChars f sep l :
  allChars f sep = true ->
  Forall (fun x => allChars f x = true) l ->
  allChars f (Js.join sep l) = true.
Proof.
  intros Hsep Hl. induction Hl as [ | x l Hx Hl IH ]; [reflexivity | ].
  cbn [Js.join]. destruct l as [ | y l ]; [exact Hx | ].
  rewrite !allChars_app, Hx, Hsep. exact IH.
Qed.

Lemma indentLines_allChars f lines :
  f " "%char = true -> f "-"%char = true ->
  Forall (fun l => allChars f l = true) lines ->
  Forall (fun l => allChars f l = true) (indentLines lines).
Proof.
  intros Hsp Hd Hl. destruct Hl as [ | first others Hfirst Hothers ];
    cbn [indentLines]; constructor.
  - cbn. now rewrite Hsp, Hd, Hfirst.
  - apply Forall_map. eapply Forall_impl; [ | exact Hothers].
    intros l Hl. cbn. now rewrite Hsp, Hl.
Qed.

Lemma join_indent_head sep lines :
  lines <> [] -> Js.startsWith (Js.join sep (indentLines lines)) "  - " = true.
Proof.
  destruct lines as [ | first others ]; [congruence | intros _ ].
  cbn [indentLines Js.join].
  destruct (map _ others);
    unfold Js.startsWith; rewrite ?string_app_assoc; apply prefix_app.
Qed.

(** X26. A formatted list item starts with the item marker, two blanks,
    a dash and a blank, ends with a line feed and holds no carriage
    return, whatever the YAML library returns for the entry. *)
Theorem list_item_layout (entry : value) (dumpOpts : DumpOptions) :
  Js.startsWith (formatAsYamlListItem entry dumpOpts) "  - " = true /\
  Js.endsWith (formatAsYamlListItem entry dumpOpts) LF = true /\
  allChars noCR (formatAsYamlListItem entry dumpOpts) = true.
Proof.
  unfold formatAsYamlListItem.
  set (dumped := normalizeNewlines (YAML_dump entry dumpOpts)).
  set (lines := if Js.endsWith dumped LF then splitLines (Js.slice dumped 0 (-1))
                else splitLines dumped).
  assert (Hne : lines <> []).
  { unfold lines. destruct (Js.endsWith dumped LF); apply splitLines_nonempty. }
  assert (Hcr : Forall (fun l => allChars noCR l = true) lines).
  { pose proof (normalizeNewlines_noCR (YAML_dump entry dumpOpts)) as Hd.
    fold dumped in Hd. unfold lines.
    destruct (Js.endsWith dumped LF); apply splitLines_allChars; [ | exact Hd].
    unfold Js.slice. now apply allChars_substring. }
  repeat split.
  - unfold Js.startsWith. apply prefix_app_r. now apply join_indent_head.
  - apply endsWith_app.
  - rewrite allChars_app. apply andb_true_iff. split; [ | reflexivity].
    apply join_allChars; [reflexivity | ].
    apply indentLines_allChars; [reflexivity | reflexivity | exact Hcr].
Qed.

End ListItem.

(* ===================================================================== *)
(** ** Empty stripping and nested filters                                 *)
(* ===================================================================== *)

Section EmptyStripping.

Context {host : Host}.

Import Revised.

Lemma stripEmptyEntry_filled rec v v' :
  stripEmptyEntry rec v = Some v' -> isFilled v' = true.
Proof.
  unfold stripEmptyEntry. destruct v as [ | | b | n | s | src fl | items | es ];
    cbn [isNullish]; try discriminate; try (intros [= <-]; reflexivity).
  - destruct (rec (VRegExp src fl)) as [ | e nested ]; [discriminate | ].
    intros [= <-]. reflexivity.
  - destruct items as [ | x items ]; [discriminate | ].
    intros [= <-]. reflexivity.
  - destruct (rec (VObj es)) as [ | e nested ]; [discriminate | ].
    intros [= <-]. reflexivity.
Qed.

Lemma objectLoop_filled rec es : forall out,
  (forall k v, In (k, v) out -> isFilled v = true) ->
  forall k v,
    In (k, v)
      ((fix loop (es : list (string * value)) (out : object) : object :=
          match es with
          | [] => out
          | (k, v) :: rest =>
              match stripEmptyEntry rec v with
              | Some v' => loop rest (setKey k v' out)
              | None => loop rest out
              end
          end) es out) ->
    isFilled v = true.
Proof.
  induction es as [ | [k0 v0] es IH ]; intros out Hout; [exact Hout | ].
  destruct (stripEmptyEntry rec v0) as [v' | ] eqn:E.
  - apply IH. intros k v Hin. apply in_setKey in Hin.
    destruct Hin as [ [_ ->] | Hin ]; [ | exact (Hout k v Hin)].
    exact (stripEmptyEntry_filled _ _ _ E).
  - apply IH. exact Hout.
Qed.

Lemma arrayLoop_filled rec items : forall i out,
  (forall k v, In (k, v) out -> isFilled v = true) ->
  forall k v,
    In (k, v)
      ((fix loop (items : list value) (i : Z) (out : object) : object :=
          match items with
          | [] => out
          | v :: rest =>
              match stripEmptyEntry rec v with
              | Some v' => loop rest (i + 1) (setKey (Js.numberToString i) v' out)
              | None => loop rest (i + 1) out
              end
          end) items i out) ->
    isFilled v = true.
Proof.
  induction items as [ | v0 items IH ]; intros i out Hout; [exact Hout | ].
  destruct (stripEmptyEntry rec v0) as [v' | ] eqn:E.
  - apply IH. intros k v Hin. apply in_setKey in Hin.
    destruct Hin as [ [_ ->] | Hin ]; [ | exact (Hout k v Hin)].
    exact (stripEmptyEntry_filled _ _ _ E).
  - apply IH. exact Hout.
Qed.

(** X27. Every field [stripEmpty] leaves in its result has a value:
    none is [null] or [undefined], an empty array or an empty object. *)
Theorem stripEmpty_leaves_no_empty_field (obj : value) :
  forallb (fun e => isFilled (snd e)) (stripEmpty obj) = true.
Proof.
  apply forallb_forall. intros [k v] Hin. cbn [snd].
  destruct obj as [ | | b | n | s | src fl | items | es ]; try contradiction.
  - exact (arrayLoop_filled stripEmpty items 0 [] (fun _ _ F => match F with end)
             k v Hin).
  - exact (objectLoop_filled stripEmpty es [] (fun _ _ F => match F with end)
             k v Hin).
Qed.

(** X28. A [has] or [has-not] part whose body is a nested chain stores,
    under [has] or [hasNot], what the mapper returns for the stringified
    nested chain, a structured selector with an element; when the mapper
    returns nothing for it, the filters stay as they were. *)
Theorem nested_filter_holds_the_mapped_selector (fuel : nat) (filters nth : value)
    (part : ParsedSelectorPart) (n : ParsedSelector) (d : option Z)
    (nested : value) :
  partName part = "internal:has"%string \/ partName part = "internal:has-not"%string ->
  partBody part = BodyNested n d ->
  elementFromParsedSelector fuel (Some (stringifySelector n)) = Ret nested ->
  exists filters',
    filterPart (elementFromParsedSelector fuel) (filters, nth) part =
      Ret (filters', nth) /\
    (nested = VUndef -> filters' = filters) /\
    (nested <> VUndef ->
     prop (if String.eqb (partName part) "internal:has" then "has" else "hasNot")
       filters' = nested /\
     exists o, prop "element" nested = VObj o).
Proof.
  intros Hname Hbody Hnested.
  pose proof (mapped_element_is_object _ _ _ Hnested) as Hshape.
  unfold filterPart.
  destruct Hname as [-> | ->]; cbn [String.eqb Ascii.eqb Bool.eqb]; cbv iota;
    unfold nestedFilter; rewrite Hbody; cbn [bodyParsed]; rewrite Hnested;
    cbn [bind];
    (destruct Hshape as [-> | [o Ho] ];
     [ exists filters; cbn [truthy bind]; repeat split; congruence
     | assert (Ht : truthy nested = true)
         by (destruct nested; try discriminate; reflexivity);
       rewrite Ht; cbn [bind]; eexists; split; [reflexivity | ];
       split; [intros ->; discriminate | ];
       intros _; split; [apply prop_setFilter_same | now exists o] ]).
Qed.

End EmptyStripping.

Lemma nested_filter_holds_the_mapped_selector_witness :
  exists filters',
    Revised.filterPart
        (host := hostWith [("li", mkParsed [mkPart "css" BodyCss "li"] None)])
        (Revised.elementFromParsedSelector
           (host := hostWith [("li", mkParsed [mkPart "css" BodyCss "li"] None)]) 1)
        (VUndef, VUndef)
        (mkPart "internal:has"
           (BodyNested (mkParsed [mkPart "css" BodyCss "li"] None) None) "li") =
      Ret (filters', VUndef) /\
    prop "has" filters' =
      VObj [("element", VObj [("css", VStr "li")]); ("filters", VUndef);
            ("nth", VUndef)].
Proof.
  destruct (@nested_filter_holds_the_mapped_selector
              (hostWith [("li", mkParsed [mkPart "css" BodyCss "li"] None)])
              1 VUndef VUndef
              (mkPart "internal:has"
                 (BodyNested (mkParsed [mkPart "css" BodyCss "li"] None) None) "li")
              (mkParsed [mkPart "css" BodyCss "li"] None) None
              (VObj [("element", VObj [("css", VStr "li")]); ("filters", VUndef);
                     ("nth", VUndef)]))
    as (filters' & Hrun & _ & Hset).
  - now left.
  - reflexivity.
  - reflexivity.
  - exists filters'. split; [exact Hrun | ].
    destruct Hset as [Hprop _]; [discriminate | exact Hprop].
Defined.
